(** * ignis: a shallow embedding of the OpenGL backend and its resource model

    The development follows the sources file by file:
    - [Pipeline]        include/graphics/shader/pipeline.hpp
    - [PrimitiveBuffer] the PrimitiveBuffer translation unit
    - [Framebuffer]     api/opengl/src/graphics/surface/gl_framebuffer.cpp
    - [Glx]             the glx* helpers of the OpenGL backend
    - [Graphics]        api/opengl/src/graphics/gl_graphics.cpp
    - [Commands]        the draw and debug commands of the command header
    - [GraphicsData]    api/opengl/include/graphics/gl_graphics.hpp
    - [BufferHint], [Vao], [BindPipeline], [RenderPass]
                        further glx* helpers of the OpenGL backend

    Unsigned machine integers are values of [N] or [Z]; [f64] is IEEE binary64
    (Rocq's primitive floats).  A pointer is a key of the object store it
    points into, [None] being the null pointer.  The logger is outside the
    sources: as in the specification's error model, a fatal condition
    ([oic::System::log()->fatal]) ends the computation ([Fatal]).  The
    assertion macro [oicAssert] is outside the sources as well, and its call
    sites disagree on the order of its arguments: which argument it tests is
    a parameter of the modules that use it.  What C++ leaves undefined is
    [Undefined]. *)

From Stdlib Require Import ZArith NArith Bool List String DecimalString Floats Lia.
From stdpp Require Import gmap strings list.

Open Scope Z_scope.

(** ** Outcomes and the state-and-error monad *)

Inductive Result (A : Type) : Type :=
| Ok (a : A)
| Fatal (msg : string)
| Undefined.

Arguments Ok {A} a.
Arguments Fatal {A} msg.
Arguments Undefined {A}.

Definition isOk {A} (r : Result A) : bool :=
  match r with Ok _ => true | _ => false end.

Definition isFatal {A} (r : Result A) : bool :=
  match r with Fatal _ => true | _ => false end.

Definition rbind {A B} (r : Result A) (k : A -> Result B) : Result B :=
  match r with
  | Ok a => k a
  | Fatal msg => Fatal msg
  | Undefined => Undefined
  end.

(** A computation over a mutable state [S] that may end fatally. *)
Definition M (S A : Type) : Type := S -> Result (A * S).

Definition ret {S A} (a : A) : M S A := fun s => Ok (a, s).

Definition bind {S A B} (m : M S A) (k : A -> M S B) : M S B :=
  fun s => match m s with
           | Ok (a, s') => k a s'
           | Fatal msg => Fatal msg
           | Undefined => Undefined
           end.

Definition get {S} : M S S := fun s => Ok (s, s).
Definition put {S} (s : S) : M S unit := fun _ => Ok (tt, s).
Definition modify {S} (f : S -> S) : M S unit := fun s => Ok (tt, f s).
Definition fatal {S A} (msg : string) : M S A := fun _ => Fatal msg.
Definition undefined {S A} : M S A := fun _ => Undefined.
Definition lift {S A} (r : Result A) : M S A :=
  fun s => match r with
           | Ok a => Ok (a, s)
           | Fatal msg => Fatal msg
           | Undefined => Undefined
           end.

Declare Scope m_scope.
Delimit Scope m_scope with m.
Notation "x <- m ;; k" := (bind m (fun x => k))
  (at level 100, m at next level, right associativity) : m_scope.
Notation "m ;;; k" := (bind m (fun _ => k))
  (at level 100, right associativity) : m_scope.

Definition when {S} (b : bool) (m : M S unit) : M S unit :=
  if b then m else ret tt.

(** [for (auto &x : xs) body(x)] *)
Fixpoint forEach {S A} (xs : list A) (body : A -> M S unit) : M S unit :=
  match xs with
  | [] => ret tt
  | x :: rest => bind (body x) (fun _ => forEach rest body)
  end.

(** Two-component vectors ([Vec2u], [Vec2i], [Vec2u32]). *)
Definition Vec2 : Type := (Z * Z)%type.

Definition vec2_eqb (a b : Vec2) : bool :=
  (fst a =? fst b) && (snd a =? snd b).

Definition u32_max : Z := 2 ^ 32.

(** [std::to_string] of an unsigned index. *)
Definition to_string (n : N) : string :=
  DecimalString.NilEmpty.string_of_uint (N.to_uint n).

Lemma vec2_eqb_eq (a b : Vec2) : vec2_eqb a b = true <-> a = b.
Proof.
  destruct a as [a1 a2], b as [b1 b2]; unfold vec2_eqb; simpl.
  rewrite andb_true_iff, !Z.eqb_eq. split.
  - intros [-> ->]; reflexivity.
  - intros [= -> ->]; split; reflexivity.
Qed.

Lemma vec2_eqb_refl (a : Vec2) : vec2_eqb a a = true.
Proof. apply vec2_eqb_eq; reflexivity. Qed.

Lemma vec2_eqb_neq (a b : Vec2) : vec2_eqb a b = false <-> a <> b.
Proof.
  rewrite <- vec2_eqb_eq. destruct (vec2_eqb a b); split; congruence.
Qed.

(** ** Enumerations shared by the resource model

    The enumerations are declared in graphics/enums.hpp and graphics/format.hpp;
    the enumerators below are the ones the sources name, and the [Other]
    constructor of each stands for any enumerator they do not name. *)

Inductive GPUFormat : Type :=
| R8 | RG8 | BGR8 | RGB8 | BGRA8 | RGBA8
| R16 | RG16 | RGB16 | RGBA16
| R8s | RG8s | BGR8s | RGB8s | BGRA8s | RGBA8s
| R16s | RG16s | RGB16s | RGBA16s
| R8u | RG8u | BGR8u | RGB8u | BGRA8u | RGBA8u
| R16u | RG16u | RGB16u | RGBA16u
| R32u | RG32u | RGB32u | RGBA32u
| R8i | RG8i | BGR8i | RGB8i | BGRA8i | RGBA8i
| R16i | RG16i | RGB16i | RGBA16i
| R32i | RG32i | RGB32i | RGBA32i
| R16f | RG16f | RGB16f | RGBA16f
| R32f | RG32f | RGB32f | RGBA32f
| sBGR8 | sRGB8 | sBGRA8 | sRGBA8
| R64f | R64u | R64i | RG64f | RG64u | RG64i
| RGB64f | RGB64u | RGB64i | RGBA64f | RGBA64u | RGBA64i
| OtherFormat (code : N).

Inductive DepthFormat : Type :=
| DepthNONE | D16 | D32 | D24_S8 | D24 | D32F | D32F_S8
| OtherDepthFormat (code : N).

Inductive GPUBufferType : Type :=
| UNIFORM | VERTEX | INDEX | STRUCTURED | STORAGE
| INDIRECT_DRAW | INDIRECT_DISPATCH
| OtherBufferType (code : N).

Inductive TextureType : Type :=
| TEXTURE_CUBE | TEXTURE_1D | TEXTURE_2D | TEXTURE_3D | TEXTURE_MS
| TEXTURE_CUBE_ARRAY | TEXTURE_1D_ARRAY | TEXTURE_2D_ARRAY | TEXTURE_MS_ARRAY
| OtherTextureType (code : N).

#[global] Instance GPUBufferType_eq_dec : EqDecision GPUBufferType.
Proof. solve_decision. Defined.

#[global] Instance DepthFormat_eq_dec : EqDecision DepthFormat.
Proof. solve_decision. Defined.

(** ** Pipeline classification (pipeline.hpp) *)

Module Pipeline.

Section Classification.

(** [enum class ShaderStage : u8] is declared in graphics/enums.hpp, outside
    the sources at hand: a stage is its [u8] code, and the enumerators the
    header names are variables. *)
Definition ShaderStage : Type := N.

Variable FRAGMENT : ShaderStage.
Variable COMPUTE : ShaderStage.
Variable PROPERTY_IS_RAYTRACING : ShaderStage.

(** Types of the attribute layout and of the fixed-function state
    (topology, depth-stencil, rasterizer, blend state, MSAA), with the
    default member initialisers of the latter. *)
Context {BufferAttributes FixedFunction : Type}.
Variable defaultFixedFunction : FixedFunction.

Definition Buffer : Type := list N.

(** [HashMap<ShaderStage, Pair<u32, String>>]: the entries in the order the
    container iterates them, so that [begin()] is the head. *)
Definition StageMap : Type := list (ShaderStage * (N * string)).

Record Info : Type := mkInfo {
  binaries : list Buffer;
  stages : StageMap;
  pipelineLayout : option N;
  flag : N;
  attributeLayout : list BufferAttributes;
  fixedFunction : FixedFunction;
  groupSize : Z * Z * Z;
  parent : option N
}.

(** The loop of the graphics constructor that takes binaries and stages. *)
Fixpoint checkStages (sts : StageMap) (nbin : N) : Result unit :=
  match sts with
  | [] => Ok tt
  | (stage, (binary, _)) :: rest =>
      if (FRAGMENT <? stage)%N then
        Fatal "Invalid graphics shaders (only accepting vert, geom, tesc, tese, frag"
      else if (nbin <? binary)%N then
        Fatal "Stage pointed to an invalid binary id"
      else checkStages rest nbin
  end.

(** [Info(Flag, attributeLayout, binaries, stages, pipelineLayout, msaa, ...)] *)
Definition graphicsInfo (f : N) (attrs : list BufferAttributes)
    (bins : list Buffer) (sts : StageMap) (layout : option N)
    (ff : FixedFunction) : Result Info :=
  rbind (checkStages sts (N.of_nat (length bins))) (fun _ =>
    Ok {| binaries := bins; stages := sts; pipelineLayout := layout;
          flag := f; attributeLayout := attrs; fixedFunction := ff;
          groupSize := (0, 0, 0); parent := None |}).

(** [Info(Flag, computeShader, pipelineLayout, groupSize, entryPoint)] *)
Definition computeInfo (f : N) (computeShader : Buffer) (layout : option N)
    (group : Z * Z * Z) (entryPoint : string) : Info :=
  {| binaries := [computeShader];
     stages := [(COMPUTE, (0%N, entryPoint))];
     pipelineLayout := layout; flag := f;
     attributeLayout := []; fixedFunction := defaultFixedFunction;
     groupSize := group; parent := None |}.

Definition hasStage (i : Info) (stage : ShaderStage) : bool :=
  existsb (fun e => (fst e =? stage)%N) (stages i).

Definition isCompute (i : Info) : bool :=
  (length (stages i) =? 1)%nat && hasStage i COMPUTE.

Definition isRaytracing (i : Info) : bool :=
  (1 <=? length (stages i))%nat &&
  match stages i with
  | [] => false
  | (stage, _) :: _ => negb (N.land stage PROPERTY_IS_RAYTRACING =? 0)%N
  end.

Definition isGraphics (i : Info) : bool :=
  negb (isCompute i) && negb (isRaytracing i).

(** The stage set, in iteration order. *)
Definition stageSet (i : Info) : list ShaderStage := map fst (stages i).

(** The stage [begin()] yields is tagged as a raytracing stage. *)
Definition firstStageIsRaytracing (i : Info) : Prop :=
  exists stage rest,
    stageSet i = stage :: rest /\ N.land stage PROPERTY_IS_RAYTRACING <> 0%N.

Lemma isCompute_iff (i : Info) :
  isCompute i = true <-> stageSet i = [COMPUTE].
Proof.
  unfold isCompute, hasStage, stageSet.
  destruct (stages i) as [|[s v] [|e rest]]; simpl.
  - split; [intros [=] | intros [=]].
  - rewrite orb_false_r, N.eqb_eq. split; [intros -> | intros [= ->]]; reflexivity.
  - split; [intros [=] | intros [=]].
Qed.

Lemma isRaytracing_iff (i : Info) :
  isRaytracing i = true <-> firstStageIsRaytracing i.
Proof.
  unfold isRaytracing, firstStageIsRaytracing, stageSet.
  destruct (stages i) as [|[s v] rest]; simpl.
  - split; [intros [=] | intros (? & ? & [=] & _)].
  - rewrite negb_true_iff, N.eqb_neq. split.
    + intros H; exists s, (map fst rest); split; [reflexivity | exact H].
    + intros (s' & r' & [= <- <-] & H); exact H.
Qed.

Lemma compute_not_raytracing (i : Info) :
  N.land COMPUTE PROPERTY_IS_RAYTRACING = 0%N ->
  isCompute i = true -> isRaytracing i = false.
Proof.
  intros Htag Hc. apply isCompute_iff in Hc.
  destruct (isRaytracing i) eqn:Hr; [|reflexivity].
  apply isRaytracing_iff in Hr. destruct Hr as (s & r & Hs & Hbit).
  rewrite Hc in Hs. injection Hs as <- <-. contradiction.
Qed.

(** C9. A pipeline description built by the compute constructor is classified
    as compute and as nothing else; in general [isCompute] holds exactly when
    the stage set is [{COMPUTE}], [isRaytracing] exactly when the first stage
    of the stage table carries the raytracing tag, [isGraphics] exactly when
    neither does, and exactly one of the three holds.  The only fact used
    about the enumeration is that COMPUTE does not carry the raytracing tag. *)
Theorem classification_exclusive :
  N.land COMPUTE PROPERTY_IS_RAYTRACING = 0%N ->
  (forall f shader layout group entry,
      let i := computeInfo f shader layout group entry in
      isCompute i = true /\ isGraphics i = false /\ isRaytracing i = false) /\
  (forall i : Info,
      (isCompute i = true <-> stageSet i = [COMPUTE]) /\
      (isRaytracing i = true <-> firstStageIsRaytracing i) /\
      (isGraphics i = true <-> isCompute i = false /\ isRaytracing i = false) /\
      ((isCompute i = true /\ isRaytracing i = false /\ isGraphics i = false) \/
       (isCompute i = false /\ isRaytracing i = true /\ isGraphics i = false) \/
       (isCompute i = false /\ isRaytracing i = false /\ isGraphics i = true))).
Proof.
  intros Htag. split.
  - intros f shader layout group entry i.
    assert (Hc : isCompute i = true).
    { unfold i, computeInfo, isCompute, hasStage; simpl.
      rewrite N.eqb_refl; reflexivity. }
    pose proof (compute_not_raytracing i Htag Hc) as Hr.
    unfold isGraphics. rewrite Hc, Hr. auto.
  - intros i. split; [apply isCompute_iff|]. split; [apply isRaytracing_iff|].
    split.
    + unfold isGraphics. rewrite andb_true_iff, !negb_true_iff. reflexivity.
    + unfold isGraphics.
      destruct (isCompute i) eqn:Hc.
      * rewrite (compute_not_raytracing i Htag Hc). simpl. auto.
      * destruct (isRaytracing i); simpl; auto.
Qed.

(** *** The graphics constructors *)

(** The stages and binary ids the first graphics constructor lets pass. *)
Definition stageAccepted (nbin : N) (e : ShaderStage * (N * string)) : Prop :=
  (fst e <= FRAGMENT)%N /\ (fst (snd e) <= nbin)%N.

(** The loop of the graphics constructor that takes one binary per stage:
    [bins] is [binaries] and [sts] is [stages], a map that the loop only
    assigns to by key. *)
Fixpoint collectStages (cstages : list (ShaderStage * (Buffer * string)))
    (bins : list Buffer) (sts : gmap N (N * string))
  : Result (list Buffer * gmap N (N * string)) :=
  match cstages with
  | [] => Ok (bins, sts)
  | (stage, (binary, entry)) :: rest =>
      if (FRAGMENT <? stage)%N then
        Fatal "Invalid graphics shaders (only accepting vert, geom, tesc, tese, frag"
      else
        let curr := (N.of_nat (length bins) mod 2 ^ 32)%N in
        collectStages rest (bins ++ [binary]) (<[stage := (curr, entry)]> sts)
  end.

Lemma checkStages_spec (sts : StageMap) (nbin : N) :
  (Forall (stageAccepted nbin) sts -> checkStages sts nbin = Ok tt) /\
  (~ Forall (stageAccepted nbin) sts -> exists msg, checkStages sts nbin = Fatal msg).
Proof.
  induction sts as [|[stage [binary entry]] rest [IHok IHbad]]; simpl.
  - split; [reflexivity|]. intros Hno. exfalso. apply Hno. constructor.
  - destruct (FRAGMENT <? stage)%N eqn:Hstage.
    + apply N.ltb_lt in Hstage. split.
      * intros Hall. inversion Hall as [|? ? [Hs _] _]; subst. simpl in Hs. lia.
      * intros _. eexists. reflexivity.
    + apply N.ltb_ge in Hstage.
      destruct (nbin <? binary)%N eqn:Hbin.
      * apply N.ltb_lt in Hbin. split.
        -- intros Hall. inversion Hall as [|? ? [_ Hb] _]; subst. simpl in Hb. lia.
        -- intros _. eexists. reflexivity.
      * apply N.ltb_ge in Hbin. split.
        -- intros Hall. inversion Hall; subst. apply IHok. assumption.
        -- intros Hno. apply IHbad. intros Hrest. apply Hno.
           constructor; [split; assumption | exact Hrest].
Qed.

(** X13. The graphics constructor that takes binaries and a stage table
    returns exactly when every stage is at most FRAGMENT and every binary id
    is at most the number of binaries (the id one past the last binary
    passes), and ends fatally otherwise.  What it returns is classified as
    graphics, and as neither compute nor raytracing, given that COMPUTE lies
    above FRAGMENT and that no stage up to FRAGMENT carries the raytracing
    tag. *)
Theorem graphicsInfo_is_graphics :
  (FRAGMENT < COMPUTE)%N ->
  (forall s, (s <= FRAGMENT)%N -> N.land s PROPERTY_IS_RAYTRACING = 0%N) ->
  forall (f : N) (attrs : list BufferAttributes) (bins : list Buffer)
         (sts : StageMap) (layout : option N) (ff : FixedFunction),
    let accepted := Forall (stageAccepted (N.of_nat (length bins))) sts in
    (accepted ->
     exists i,
       graphicsInfo f attrs bins sts layout ff = Ok i /\
       stages i = sts /\ binaries i = bins /\
       isGraphics i = true /\ isCompute i = false /\ isRaytracing i = false) /\
    (~ accepted ->
     exists msg, graphicsInfo f attrs bins sts layout ff = Fatal msg).
Proof.
  intros Hcompute Htag f attrs bins sts layout ff accepted.
  destruct (checkStages_spec sts (N.of_nat (length bins))) as [Hok Hbad].
  unfold graphicsInfo. split.
  - intros Hall. rewrite (Hok Hall). simpl. eexists. split; [reflexivity|].
    simpl. split; [reflexivity|]. split; [reflexivity|].
    match goal with |- isGraphics ?i = _ /\ _ => set (inf := i) end.
    assert (Hc : isCompute inf = false).
    { destruct (isCompute inf) eqn:Hc; [|reflexivity].
      apply isCompute_iff in Hc. unfold stageSet, inf in Hc. simpl in Hc.
      destruct sts as [|[s v] rest]; [discriminate|].
      injection Hc as -> _. inversion Hall as [|? ? [Hs _] _]; subst.
      simpl in Hs. lia. }
    assert (Hr : isRaytracing inf = false).
    { destruct (isRaytracing inf) eqn:Hr; [|reflexivity].
      apply isRaytracing_iff in Hr. destruct Hr as (s & r & Hs & Hbit).
      unfold stageSet, inf in Hs. simpl in Hs.
      destruct sts as [|[s' v] rest]; [discriminate|].
      injection Hs as -> _. inversion Hall as [|? ? [Hle _] _]; subst.
      simpl in Hle. rewrite (Htag s Hle) in Hbit. contradiction. }
    unfold isGraphics. rewrite Hc, Hr. auto.
  - intros Hno. destruct (Hbad Hno) as (msg & Hmsg). rewrite Hmsg.
    exists msg. reflexivity.
Qed.

Lemma collectStages_spec (cstages : list (ShaderStage * (Buffer * string))) :
  forall (bins : list Buffer) (sts : gmap N (N * string)),
  NoDup (map fst cstages) ->
  Forall (fun e => (fst e <= FRAGMENT)%N) cstages ->
  (N.of_nat (length bins + length cstages) <= 2 ^ 32)%N ->
  exists sts',
    collectStages cstages bins sts
    = Ok (bins ++ map (fun e => fst (snd e)) cstages, sts') /\
    (forall stage binary entry,
        (stage, (binary, entry)) ∈ cstages ->
        exists idx,
          sts' !! stage = Some (idx, entry) /\
          (bins ++ map (fun e => fst (snd e)) cstages) !! N.to_nat idx
          = Some binary) /\
    (forall stage, stage ∉ map fst cstages -> sts' !! stage = sts !! stage).
Proof.
  induction cstages as [|[stage [binary entry]] rest IH];
    intros bins sts Hnodup Hall Hlen.
  - exists sts. simpl. rewrite app_nil_r. split; [reflexivity|].
    split; [intros s b e Hin; inversion Hin | reflexivity].
  - simpl in Hnodup. apply NoDup_cons in Hnodup. destruct Hnodup as [Hfresh Hnodup].
    inversion Hall as [|? ? Hstage Hrest]; subst. simpl in Hstage.
    simpl collectStages.
    apply N.ltb_ge in Hstage. rewrite Hstage.
    simpl length in Hlen.
    destruct (IH (bins ++ [binary])
                 (<[stage := ((N.of_nat (length bins) mod 2 ^ 32)%N, entry)]> sts)
                 Hnodup Hrest)
      as (sts' & Hrun & Hfound & Hframe).
    { rewrite length_app. simpl. lia. }
    exists sts'. simpl map. rewrite <- app_assoc in Hrun, Hfound. simpl in Hrun, Hfound.
    split; [exact Hrun|]. split.
    + intros s b e Hin. apply elem_of_cons in Hin.
      destruct Hin as [[= -> -> ->] | Hin]; [|apply Hfound; exact Hin].
      exists (N.of_nat (length bins) mod 2 ^ 32)%N. split.
      * rewrite Hframe by exact Hfresh. apply lookup_insert_eq.
      * rewrite N.mod_small by lia. rewrite Nat2N.id.
        rewrite lookup_app_r by lia. rewrite Nat.sub_diag. reflexivity.
    + intros s Hs. simpl in Hs. apply not_elem_of_cons in Hs.
      destruct Hs as [Hne Hs]. rewrite Hframe by exact Hs.
      apply lookup_insert_ne. congruence.
Qed.

(** X14. The graphics constructor that takes one binary per stage records,
    for every stage, the index of the binary that was given for that stage:
    looking the stage up and indexing [binaries] with what is found gives
    that binary back, with the entry point given.  It returns when every
    stage is at most FRAGMENT, and ends fatally when one is not. *)
Theorem collectStages_round_trip
    (cstages : list (ShaderStage * (Buffer * string))) :
  NoDup (map fst cstages) ->
  (N.of_nat (length cstages) <= 2 ^ 32)%N ->
  (Forall (fun e => (fst e <= FRAGMENT)%N) cstages ->
   exists bins sts,
     collectStages cstages [] ∅ = Ok (bins, sts) /\
     length bins = length cstages /\
     (forall stage binary entry,
         (stage, (binary, entry)) ∈ cstages ->
         exists idx, sts !! stage = Some (idx, entry) /\
                     bins !! N.to_nat idx = Some binary) /\
     (forall stage, stage ∉ map fst cstages -> sts !! stage = None)) /\
  (Exists (fun e => (FRAGMENT < fst e)%N) cstages ->
   exists msg, collectStages cstages [] ∅ = Fatal msg).
Proof.
  intros Hnodup Hlen. split.
  - intros Hall.
    destruct (collectStages_spec cstages [] ∅ Hnodup Hall Hlen)
      as (sts & Hrun & Hfound & Hframe).
    simpl in Hrun, Hfound. eexists _, sts. split; [exact Hrun|].
    split; [apply length_map|]. split; [exact Hfound|].
    intros stage Hs. rewrite Hframe by exact Hs. apply lookup_empty.
  - clear Hnodup Hlen. generalize (@nil Buffer) (∅ : gmap N (N * string)).
    induction cstages as [|[stage [binary entry]] rest IH]; intros bins sts Hex;
      [inversion Hex|].
    simpl. destruct (FRAGMENT <? stage)%N eqn:Hstage; [eexists; reflexivity|].
    apply IH. inversion Hex as [? ? Hbad | ? ? Hlater]; subst; [|exact Hlater].
    simpl in Hbad. apply N.ltb_ge in Hstage. lia.
Qed.

End Classification.

(** The classification at the encoding VERTEX, GEOMETRY, TESS_CTRL,
    TESS_EVAL, FRAGMENT, COMPUTE = 0..5 (the order of the cases of
    [glxShaderStage]) with the raytracing tag 0x40 (the bit that
    [glxShaderStage] tests): a compute description, and a description of a
    vertex and a fragment stage. *)
Lemma classification_exclusive_witness :
  let c : Info (BufferAttributes := unit) :=
    computeInfo 5%N tt 0%N [1%N; 2%N] None (8, 8, 1) "main" in
  let g : Info (BufferAttributes := unit) :=
    {| binaries := [[1%N]; [2%N]];
       stages := [(0%N, (0%N, "main")); (4%N, (1%N, "main"))];
       pipelineLayout := None; flag := 0%N; attributeLayout := [];
       fixedFunction := tt; groupSize := (0, 0, 0); parent := None |} in
  N.land 5 0x40 = 0%N /\
  (isCompute 5%N c = true /\ isGraphics 5%N 0x40%N c = false /\
   isRaytracing 0x40%N c = false) /\
  (isCompute 5%N g = false /\ isRaytracing 0x40%N g = false /\
   isGraphics 5%N 0x40%N g = true).
Proof.
  pose proof (classification_exclusive 5%N 0x40%N (BufferAttributes := unit)
                tt eq_refl) as [Hc Hall].
  split; [reflexivity|]. split.
  - exact (Hc 0%N [1%N; 2%N] None (8, 8, 1) "main").
  - destruct (Hall {| binaries := [[1%N]; [2%N]];
                      stages := [(0%N, (0%N, "main")); (4%N, (1%N, "main"))];
                      pipelineLayout := None; flag := 0%N; attributeLayout := [];
                      fixedFunction := tt; groupSize := (0, 0, 0);
                      parent := None |})
      as (_ & _ & Hg & _).
    split; [reflexivity|]. split; [reflexivity|].
    apply Hg. split; reflexivity.
Defined.

(** *** The constructors at the encoding VERTEX .. COMPUTE = 0 .. 5 *)

Lemma graphicsInfo_is_graphics_witness :
  exists i : Info (BufferAttributes := unit),
    graphicsInfo 4%N 0%N [] [[1%N]; [2%N]]
                 [(0%N, (0%N, "main")); (4%N, (2%N, "main"))] None tt = Ok i /\
    isGraphics 5%N 0x40%N i = true /\
    isCompute 5%N i = false /\ isRaytracing 0x40%N i = false.
Proof.
  destruct (graphicsInfo_is_graphics 4%N 5%N 0x40%N (BufferAttributes := unit)
              (FixedFunction := unit)) with
    (f := 0%N) (attrs := @nil unit) (bins := [[1%N]; [2%N]])
    (sts := [(0%N, (0%N, "main"%string)); (4%N, (2%N, "main"%string))])
    (layout := @None N) (ff := tt) as [Hok _].
  - reflexivity.
  - intros s Hs.
    destruct (N.eq_dec s 0%N) as [-> | H0]; [reflexivity|].
    destruct (N.eq_dec s 1%N) as [-> | H1]; [reflexivity|].
    destruct (N.eq_dec s 2%N) as [-> | H2]; [reflexivity|].
    destruct (N.eq_dec s 3%N) as [-> | H3]; [reflexivity|].
    destruct (N.eq_dec s 4%N) as [-> | H4]; [reflexivity | lia].
  - destruct Hok as (i & Hrun & _ & _ & Hg & Hc & Hr).
    + repeat constructor; simpl; lia.
    + exists i. auto.
Defined.

Lemma collectStages_round_trip_witness :
  exists bins sts,
    collectStages 4%N [(0%N, ([1%N], "vs"%string)); (4%N, ([2%N], "fs"%string))]
                  [] ∅ = Ok (bins, sts) /\
    length bins = 2%nat /\
    exists idx, sts !! 4%N = Some (idx, "fs"%string) /\
                bins !! N.to_nat idx = Some [2%N].
Proof.
  destruct (collectStages_round_trip 4%N
              [(0%N, ([1%N], "vs"%string)); (4%N, ([2%N], "fs"%string))])
    as [Hok _].
  - apply (bool_decide_unpack _). vm_compute. exact I.
  - simpl. lia.
  - destruct Hok as (bins & sts & Hrun & Hlen & Hfound & _).
    + repeat constructor; simpl; lia.
    + exists bins, sts. split; [exact Hrun|]. split; [exact Hlen|].
      apply (Hfound 4%N [2%N] "fs"%string).
      apply list_elem_of_further, list_elem_of_here.
Defined.

(** *** The depth-stencil helpers *)

Inductive CompareOp : Type := NV | LE | EQ | LEQ | GR | NEQ | GEQ | AL.

Inductive StencilOp : Type :=
| KEEP | ZERO | REPL | INC_CLAMP | DEC_CLAMP | INV | INC_WRAP | DEC_WRAP.

Record Stencil : Type := mkStencil {
  fail : StencilOp;
  pass : StencilOp;
  depthFail : StencilOp;
  compare : CompareOp
}.

(** [Stencil{}] *)
Definition defaultStencil : Stencil :=
  {| fail := KEEP; pass := KEEP; depthFail := KEEP; compare := AL |}.

Record DepthStencil : Type := mkDepthStencil {
  front : Stencil;
  back : Stencil;
  stencilMask : N;
  stencilWriteMask : N;
  stencilReference : N;
  depthCompare : CompareOp;
  enableDepthRead : bool;
  enableDepthWrite : bool;
  enableStencilTest : bool
}.

(** [DepthStencil::depth(depthCompare, depthWrite, depthRead)] *)
Definition depth (depthCompare : CompareOp) (depthWrite depthRead : bool)
  : DepthStencil :=
  let depthCompare := if depthWrite && negb depthRead then NV else depthCompare in
  let depthRead := (depthWrite && negb depthRead) || depthRead in
  {| front := defaultStencil; back := defaultStencil;
     stencilMask := 0xFF; stencilWriteMask := 0xFF; stencilReference := 0x00;
     depthCompare := depthCompare; enableDepthRead := depthRead;
     enableDepthWrite := depthWrite; enableStencilTest := false |}.

(** [DepthStencil::depthStencil(depthCompare, depthWrite, depthRead,
    frontAndBack, stencilMask, stencilWriteMask, stencilReference)] *)
Definition depthStencil (depthCompare : CompareOp) (depthWrite depthRead : bool)
    (frontAndBack : Stencil) (mask writeMask reference : N) : DepthStencil :=
  let depthCompare := if depthWrite && negb depthRead then NV else depthCompare in
  let depthRead := (depthWrite && negb depthRead) || depthRead in
  {| front := frontAndBack; back := frontAndBack;
     stencilMask := mask; stencilWriteMask := writeMask;
     stencilReference := reference;
     depthCompare := depthCompare; enableDepthRead := depthRead;
     enableDepthWrite := depthWrite; enableStencilTest := true |}.

(** A state that one of the two helpers builds. *)
Inductive built : DepthStencil -> Prop :=
| built_depth cmp w r : built (depth cmp w r)
| built_depthStencil cmp w r s m wm ref :
    built (depthStencil cmp w r s m wm ref).

(** X15. Neither helper builds a state that writes depth without reading
    it: a request to write without reading is turned into a state that
    reads, with the comparison NV in place of the one requested; a request
    that reads keeps its comparison.  The two faces of the stencil state
    are the same. *)
Theorem built_write_implies_read (ds : DepthStencil) :
  built ds ->
  (enableDepthWrite ds = true -> enableDepthRead ds = true) /\
  front ds = back ds /\
  forall cmp w r,
    (ds = depth cmp w r \/ exists s m wm ref, ds = depthStencil cmp w r s m wm ref) ->
    enableDepthWrite ds = w /\ enableDepthRead ds = w || r /\
    (r = true -> depthCompare ds = cmp) /\
    (w = true -> r = false -> depthCompare ds = NV).
Proof.
  intros Hb. split; [|split].
  - destruct Hb as [cmp w r | cmp w r s m wm ref]; simpl;
      destruct w, r; auto.
  - destruct Hb; reflexivity.
  - intros cmp w r [-> | (s & m & wm & ref & ->)]; simpl;
      destruct w, r; repeat split; auto; discriminate.
Qed.

Lemma built_write_implies_read_witness :
  let ds := depth GR true false in
  enableDepthRead ds = true /\ depthCompare ds = NV.
Proof.
  destruct (built_write_implies_read (depth GR true false) (built_depth _ _ _))
    as (Hread & _ & Hall).
  split; [apply Hread; reflexivity|].
  destruct (Hall GR true false (or_introl eq_refl)) as (_ & _ & _ & Hnv).
  apply Hnv; reflexivity.
Defined.

End Pipeline.

(** ** PrimitiveBuffer construction and layout matching *)

Module PrimitiveBuffer.

Section Construction.

(** [BufferAttributes] (graphics/memory/buffer_layout.hpp) is a vertex format
    descriptor compared with [==]; the sources use its stride and the formats
    of its attributes.  [NAME] is the name-hashing macro and [hasIndices] the
    accessor that tells whether the index layout declares indices; the count
    a freshly constructed [GPUBuffer] starts with is [initialRefs]. *)
Context {BufferAttributes : Type} `{EqDecision BufferAttributes}.
Variable getStride : BufferAttributes -> N.
Variable attributeFormats : BufferAttributes -> list GPUFormat.
Variable NAME : string -> string.
Variable initialRefs : N.

Definition Buffer : Type := list N.

Record GPUBuffer : Type := mkGPUBuffer {
  gpuName : string;
  gpuType : GPUBufferType;
  gpuUsage : N;
  gpuSize : N;
  refs : N
}.

Record BufferLayout : Type := mkBufferLayout {
  formats : BufferAttributes;
  initData : Buffer;
  buffer : option N;
  bufferOffset : N;
  elements : N
}.

Variable hasIndices : BufferLayout -> bool.

Record Info : Type := mkInfo {
  vertexLayout : list BufferLayout;
  indexLayout : BufferLayout;
  usage : N
}.

Record PrimitiveBuffer : Type := mkPrimitiveBuffer {
  name : string;
  info : Info
}.

(** The store of [GPUBuffer] objects, by address. *)
Abbreviation Heap := (gmap N GPUBuffer).

Definition stride (l : BufferLayout) : N := getStride (formats l).

(** Modelled from the spec: [BufferLayout::size()] is declared in
    buffer_layout.hpp, outside the sources.  The layout derives
    [elementCount = bufferSize / stride]; its byte size is that of
    [elements] elements of [stride] bytes. *)
Definition layoutSize (l : BufferLayout) : N := (stride l * elements l)%N.

Definition deref (p : N) : M Heap GPUBuffer :=
  fun h => match h !! p with
           | Some b => Ok (b, h)
           | None => Undefined
           end.

(** [BufferLayout(GPUBuffer *b, formats, bufferOffset)] *)
Definition bufferLayoutOf (b : N) (f : BufferAttributes) (off : N)
  : M Heap BufferLayout :=
  (gb <- deref b ;;
   if (getStride f =? 0)%N then undefined
   else ret {| formats := f; initData := []; buffer := Some b;
               bufferOffset := off;
               elements := ((gpuSize gb / getStride f) mod 2 ^ 32)%N |})%m.

(** Modelled from the spec: the [GPUBuffer] constructor is outside the
    sources.  A buffer that is not supplied is allocated "sized to the
    layout's data and usage" at an address not in use. *)
Definition newGPUBuffer (nm : string) (data : Buffer) (ty : GPUBufferType)
    (use : N) : M Heap N :=
  fun h =>
    let p := fresh (dom h) in
    Ok (p, <[p := {| gpuName := nm; gpuType := ty; gpuUsage := use;
                     gpuSize := N.of_nat (length data);
                     refs := initialRefs |}]> h).

Definition addRef (p : N) : M Heap unit :=
  fun h => match h !! p with
           | Some b =>
               Ok (tt, <[p := {| gpuName := gpuName b; gpuType := gpuType b;
                                 gpuUsage := gpuUsage b; gpuSize := gpuSize b;
                                 refs := (refs b + 1)%N |}]> h)
           | None => Undefined
           end.

Definition clearInitData (it : BufferLayout) (p : N) : BufferLayout :=
  {| formats := formats it; initData := []; buffer := Some p;
     bufferOffset := bufferOffset it; elements := elements it |}.

(** The tail of the loop body: the size check and [it.buffer->addRef()]. *)
Definition checkSizeAndRef (it : BufferLayout) (p : N) : M Heap unit :=
  (b <- deref p ;;
   if negb (gpuSize b =? layoutSize it)%N
   then fatal "Invalid primitive buffer size"
   else addRef p)%m.

(** One iteration of [for (auto &it : info.vertexLayout)]; [elems] is the
    local [elements], the result the layout as left in [info] and the new
    value of [elements]. *)
Definition vertexStep (nm : string) (use : N) (i elems : N)
    (it : BufferLayout) : M Heap (BufferLayout * N) :=
  match buffer it with
  | None =>
      (p <- newGPUBuffer (NAME (nm ++ " vbo " ++ to_string i)) (initData it)
                         VERTEX use ;;
       let it' := clearInitData it p in
       if (layoutSize it' =? 0)%N then fatal "Invalid primitive buffer size"
       else if (elems =? 0)%N then
         (checkSizeAndRef it' p ;;; ret (it', elements it'))
       else if negb (elems =? elements it')%N then
         fatal "Invalid primitive buffer size"
       else (checkSizeAndRef it' p ;;; ret (it', elems)))%m
  | Some p =>
      (b <- deref p ;;
       if negb (bool_decide (gpuType b = VERTEX)) then
         fatal "Invalid predefined vertex buffer"
       else
         let elems' := if (elems =? 0)%N then elements it else elems in
         if negb (elems' =? elements it)%N || (elems' =? 0)%N then
           fatal "Invalid predefined vertex buffer size"
         else (checkSizeAndRef it p ;;; ret (it, elems')))%m
  end.

Fixpoint vertexLoop (nm : string) (use : N) (i elems : N)
    (vl : list BufferLayout) : M Heap (list BufferLayout * N) :=
  match vl with
  | [] => ret ([], elems)
  | it :: rest =>
      (r <- vertexStep nm use i elems it ;;
       rs <- vertexLoop nm use (i + 1)%N (snd r) rest ;;
       ret (fst r :: fst rs, snd rs))%m
  end.

Definition isIndexFormat (f : GPUFormat) : bool :=
  match f with
  | R32u | R32i | R16u | R16i => true
  | _ => false
  end.

(** The body of [if (hasIndices())]. *)
Definition indexStep (nm : string) (use : N) (il : BufferLayout)
  : M Heap BufferLayout :=
  (il' <- match buffer il with
          | None =>
              (p <- newGPUBuffer (NAME (nm ++ " ibo")) (initData il) INDEX use ;;
               ret (clearInitData il p))
          | Some p =>
              (b <- deref p ;;
               if negb (bool_decide (gpuType b = INDEX)) then
                 fatal "Invalid predefined index buffer"
               else (addRef p ;;; ret il))
          end ;;
   match attributeFormats (formats il') with
   | [f] =>
       if isIndexFormat f then ret il'
       else fatal "Index buffer requires a 32 or 16 bit (unsigned) int format"
   | _ => fatal "Index buffer requires one format"
   end)%m.

(** [PrimitiveBuffer::PrimitiveBuffer(g, name, info)] *)
Definition construct (nm : string) (inf : Info) : M Heap PrimitiveBuffer :=
  (r <- vertexLoop nm (usage inf) 0%N 0%N (vertexLayout inf) ;;
   if (length (fst r) =? 0)%nat then
     fatal "Primitive buffer requires at least one vertex buffer"
   else
     il <- (if hasIndices (indexLayout inf)
            then indexStep nm (usage inf) (indexLayout inf)
            else ret (indexLayout inf)) ;;
     ret {| name := nm;
            info := {| vertexLayout := fst r; indexLayout := il;
                       usage := usage inf |} |})%m.

(** The formats of the vertex layouts, in order. *)
Definition vertexFormats (pb : PrimitiveBuffer) : list BufferAttributes :=
  map formats (vertexLayout (info pb)).

(** [for (usz i = 0, j = layout.size(); i < j; ++i)]: [n] iterations are
    left and [i] is the index; [info.vertexLayout[i]] past the end of the
    vector is undefined. *)
Fixpoint matchLoop (n i : nat) (layout : list BufferAttributes)
    (vl : list BufferLayout) : Result bool :=
  match n with
  | O => Ok true
  | S n' =>
      match layout !! i, vl !! i with
      | Some a, Some v =>
          if bool_decide (a <> formats v) then Ok false
          else matchLoop n' (S i) layout vl
      | _, _ => Undefined
      end
  end.

(** [PrimitiveBuffer::matchLayout(layout)] *)
Definition matchLayout (pb : PrimitiveBuffer) (layout : list BufferAttributes)
  : Result bool :=
  matchLoop (length layout) 0 layout (vertexLayout (info pb)).

(** *** Construction *)

(** Every object of [h] is still there in [h'], with its kind and size. *)
Definition heapExtends (h h' : Heap) : Prop :=
  forall p b, h !! p = Some b ->
    exists b', h' !! p = Some b' /\ gpuType b' = gpuType b /\
               gpuSize b' = gpuSize b.

(** What the constructor accepts of a vertex layout whose element count is
    [E]: a non-empty byte size, and a buffer of that size, either allocated
    from the initial data or supplied and tagged as a vertex buffer. *)
Definition validVertex (h : Heap) (E : N) (l : BufferLayout) : Prop :=
  elements l = E /\ layoutSize l <> 0%N /\
  match buffer l with
  | None => N.of_nat (length (initData l)) = layoutSize l
  | Some p => exists b, h !! p = Some b /\ gpuType b = VERTEX /\
                        gpuSize b = layoutSize l
  end.

(** What the constructor accepts of the index layout. *)
Definition validIndex (h : Heap) (il : BufferLayout) : Prop :=
  hasIndices il = false \/
  (exists f, attributeFormats (formats il) = [f] /\ isIndexFormat f = true) /\
  match buffer il with
  | None => True
  | Some p => exists b, h !! p = Some b /\ gpuType b = INDEX
  end.

(** Every supplied buffer pointer points to an object. *)
Definition pointersValid (h : Heap) (vl : list BufferLayout) : Prop :=
  Forall (fun l => forall p, buffer l = Some p -> is_Some (h !! p)) vl.

Lemma heapExtends_refl (h : Heap) : heapExtends h h.
Proof. intros p b Hp. exists b. auto. Qed.

Lemma heapExtends_trans (h1 h2 h3 : Heap) :
  heapExtends h1 h2 -> heapExtends h2 h3 -> heapExtends h1 h3.
Proof.
  intros H12 H23 p b Hp.
  destruct (H12 p b Hp) as (b2 & Hp2 & Ht2 & Hs2).
  destruct (H23 p b2 Hp2) as (b3 & Hp3 & Ht3 & Hs3).
  exists b3. repeat split; congruence.
Qed.

Lemma newGPUBuffer_spec (nm : string) (data : Buffer) (ty : GPUBufferType)
    (use : N) (h : Heap) :
  exists p h', newGPUBuffer nm data ty use h = Ok (p, h') /\
    h !! p = None /\ heapExtends h h' /\
    h' !! p = Some {| gpuName := nm; gpuType := ty; gpuUsage := use;
                      gpuSize := N.of_nat (length data);
                      refs := initialRefs |}.
Proof.
  unfold newGPUBuffer. eexists _, _. split; [reflexivity|].
  assert (Hfresh : h !! fresh (dom h) = None).
  { apply not_elem_of_dom. apply is_fresh. }
  split; [exact Hfresh|]. split; [|apply lookup_insert_eq].
  intros q b Hq. exists b. split; [|auto].
  rewrite lookup_insert_ne; [exact Hq|]. intros <-. congruence.
Qed.

Lemma addRef_spec (p : N) (b : GPUBuffer) (h : Heap) :
  h !! p = Some b ->
  exists h', addRef p h = Ok (tt, h') /\ heapExtends h h'.
Proof.
  intros Hp. unfold addRef. rewrite Hp. eexists. split; [reflexivity|].
  intros q c Hq. destruct (decide (p = q)) as [<-|Hne].
  - rewrite Hp in Hq. injection Hq as <-.
    rewrite lookup_insert_eq. eexists. split; [reflexivity|].
    simpl. split; reflexivity.
  - rewrite lookup_insert_ne by exact Hne. exists c. auto.
Qed.

Lemma addRef_extends (p : N) (h h' : Heap) (u : unit) :
  addRef p h = Ok (u, h') -> heapExtends h h'.
Proof.
  unfold addRef. destruct (h !! p) as [b|] eqn:Hp; [|discriminate].
  intros Heq. destruct (addRef_spec p b h Hp) as (h2 & H2 & Hext).
  unfold addRef in H2. rewrite Hp in H2.
  injection Heq as _ <-. injection H2 as <-. exact Hext.
Qed.

Lemma checkSizeAndRef_ok (it : BufferLayout) (p : N) (b : GPUBuffer)
    (h : Heap) :
  h !! p = Some b -> gpuSize b = layoutSize it ->
  exists h', checkSizeAndRef it p h = Ok (tt, h') /\ heapExtends h h'.
Proof.
  intros Hp Hsz. unfold checkSizeAndRef, bind, deref. rewrite Hp, Hsz.
  rewrite N.eqb_refl. simpl. apply (addRef_spec p b h Hp).
Qed.

Lemma checkSizeAndRef_extends (it : BufferLayout) (p : N) (h h' : Heap)
    (u : unit) :
  checkSizeAndRef it p h = Ok (u, h') -> heapExtends h h'.
Proof.
  unfold checkSizeAndRef, bind, deref.
  destruct (h !! p) as [b|]; [|discriminate].
  destruct (negb (gpuSize b =? layoutSize it)%N); [discriminate|].
  apply addRef_extends.
Qed.

Lemma checkSizeAndRef_defined (it : BufferLayout) (p : N) (h : Heap) :
  is_Some (h !! p) -> checkSizeAndRef it p h <> Undefined.
Proof.
  intros [b Hp]. unfold checkSizeAndRef, bind, deref, fatal, addRef.
  rewrite Hp. destruct (negb (gpuSize b =? layoutSize it)%N); [discriminate|].
  rewrite Hp. discriminate.
Qed.

Lemma validVertex_extends (h h' : Heap) (E : N) (l : BufferLayout) :
  heapExtends h h' -> validVertex h E l -> validVertex h' E l.
Proof.
  intros Hext (He & Hs & Hb). split; [exact He|]. split; [exact Hs|].
  destruct (buffer l) as [p|]; [|exact Hb].
  destruct Hb as (b & Hp & Ht & Hsz).
  destruct (Hext p b Hp) as (b' & Hp' & Ht' & Hs').
  exists b'. repeat split; congruence.
Qed.

Lemma pointersValid_extends (h h' : Heap) (vl : list BufferLayout) :
  heapExtends h h' -> pointersValid h vl -> pointersValid h' vl.
Proof.
  intros Hext Hv. unfold pointersValid. eapply Forall_impl; [exact Hv|].
  intros l Hl p Hp. destruct (Hl p Hp) as [b Hb].
  destruct (Hext p b Hb) as (b' & Hb' & _). exists b'. exact Hb'.
Qed.

Lemma layoutSize_clearInitData (it : BufferLayout) (p : N) :
  layoutSize (clearInitData it p) = layoutSize it.
Proof. reflexivity. Qed.

Lemma validVertex_nonzero (h : Heap) (E : N) (l : BufferLayout) :
  validVertex h E l -> E <> 0%N.
Proof.
  intros (He & Hs & _) ->. apply Hs. unfold layoutSize. rewrite He. lia.
Qed.

Lemma vertexStep_ok (nm : string) (use i elems E : N) (it : BufferLayout)
    (h : Heap) :
  validVertex h E it -> elems = 0%N \/ elems = E ->
  exists it' h',
    vertexStep nm use i elems it h = Ok ((it', E), h') /\
    elements it' = E /\ heapExtends h h'.
Proof.
  intros Hv Hel. pose proof (validVertex_nonzero h E it Hv) as HE.
  destruct Hv as (He & Hs & Hb).
  assert (Hz : (E =? 0)%N = false) by (apply N.eqb_neq; exact HE).
  unfold vertexStep. destruct (buffer it) as [p|] eqn:Hbuf.
  - destruct Hb as (b & Hp & Ht & Hsz).
    destruct (checkSizeAndRef_ok it p b h Hp Hsz) as (h' & Hc & Hext).
    exists it, h'. split; [|split; [exact He | exact Hext]].
    unfold bind at 1, deref. rewrite Hp, Ht. simpl.
    destruct Hel as [-> | ->]; simpl.
    + rewrite He, N.eqb_refl, Hz. simpl. unfold bind, ret. rewrite Hc.
      reflexivity.
    + rewrite Hz, He, N.eqb_refl, Hz. simpl. unfold bind, ret. rewrite Hc.
      reflexivity.
  - destruct (newGPUBuffer_spec (NAME (nm ++ " vbo " ++ to_string i))
                (initData it) VERTEX use h) as (p & h1 & Hnew & _ & Hext1 & Hp1).
    destruct (checkSizeAndRef_ok (clearInitData it p) p _ h1 Hp1)
      as (h' & Hc & Hext2); [simpl; rewrite Hb; reflexivity|].
    exists (clearInitData it p), h'.
    split; [|split; [exact He | exact (heapExtends_trans _ _ _ Hext1 Hext2)]].
    unfold bind at 1. rewrite Hnew. cbv zeta.
    rewrite layoutSize_clearInitData.
    destruct (layoutSize it =? 0)%N eqn:Hls; [apply N.eqb_eq in Hls; contradiction|].
    destruct Hel as [-> | ->]; simpl.
    + unfold bind, ret. rewrite Hc, He. reflexivity.
    + rewrite Hz, He, N.eqb_refl. simpl. unfold bind, ret. rewrite Hc.
      reflexivity.
Qed.

Lemma vertexStep_inv (nm : string) (use i elems e : N)
    (it it' : BufferLayout) (h h' : Heap) :
  vertexStep nm use i elems it h = Ok ((it', e), h') ->
  elements it = e /\ e <> 0%N /\ (elems <> 0%N -> e = elems) /\
  elements it' = e /\ heapExtends h h'.
Proof.
  unfold vertexStep. destruct (buffer it) as [p|] eqn:Hbuf.
  - unfold bind at 1, deref. destruct (h !! p) as [b|] eqn:Hp; [|discriminate].
    destruct (negb (bool_decide (gpuType b = VERTEX))); [discriminate|].
    cbv zeta.
    destruct (negb (_ =? elements it)%N || (_ =? 0)%N) eqn:Hchk; [discriminate|].
    apply orb_false_elim in Hchk. destruct Hchk as [Heq Hnz].
    apply negb_false_iff, N.eqb_eq in Heq. apply N.eqb_neq in Hnz.
    unfold bind, ret.
    destruct (checkSizeAndRef it p h) as [[[] h2]| |] eqn:Hc; try discriminate.
    intros [= <- <- <-].
    split; [symmetry; exact Heq|]. split; [exact Hnz|].
    split; [|split; [symmetry; exact Heq | exact (checkSizeAndRef_extends _ _ _ _ _ Hc)]].
    intros Hne. destruct (elems =? 0)%N eqn:Hz; [|reflexivity].
    apply N.eqb_eq in Hz. contradiction.
  - destruct (newGPUBuffer_spec (NAME (nm ++ " vbo " ++ to_string i))
                (initData it) VERTEX use h) as (p & h1 & Hnew & _ & Hext1 & _).
    unfold bind at 1. rewrite Hnew. cbv zeta.
    rewrite layoutSize_clearInitData.
    destruct (layoutSize it =? 0)%N eqn:Hls; [discriminate|].
    apply N.eqb_neq in Hls.
    assert (Hnz : elements it <> 0%N).
    { intros H0. apply Hls. unfold layoutSize. rewrite H0. lia. }
    destruct (elems =? 0)%N eqn:Hz.
    + unfold bind, ret.
      destruct (checkSizeAndRef (clearInitData it p) p h1) as [[[] h2]| |] eqn:Hc;
        try discriminate.
      intros [= <- <- <-]. simpl.
      split; [reflexivity|]. split; [exact Hnz|].
      split; [|split; [reflexivity|]].
      * apply N.eqb_eq in Hz. intros Hne. contradiction.
      * exact (heapExtends_trans _ _ _ Hext1 (checkSizeAndRef_extends _ _ _ _ _ Hc)).
    + simpl. destruct (negb (elems =? elements it)%N) eqn:Heq; [discriminate|].
      apply negb_false_iff, N.eqb_eq in Heq.
      unfold bind, ret.
      destruct (checkSizeAndRef (clearInitData it p) p h1) as [[[] h2]| |] eqn:Hc;
        try discriminate.
      intros [= <- <- <-]. simpl.
      split; [symmetry; exact Heq|]. split; [rewrite Heq; exact Hnz|].
      split; [intros _; reflexivity|]. split; [symmetry; exact Heq|].
      exact (heapExtends_trans _ _ _ Hext1 (checkSizeAndRef_extends _ _ _ _ _ Hc)).
Qed.

Lemma vertexStep_defined (nm : string) (use i elems : N) (it : BufferLayout)
    (h : Heap) :
  (forall p, buffer it = Some p -> is_Some (h !! p)) ->
  vertexStep nm use i elems it h <> Undefined.
Proof.
  intros Hptr. unfold vertexStep. destruct (buffer it) as [p|] eqn:Hbuf.
  - destruct (Hptr p eq_refl) as [b Hp].
    pose proof (checkSizeAndRef_defined it p h (ex_intro _ b Hp)) as Hc.
    unfold bind at 1, deref. rewrite Hp.
    destruct (negb (bool_decide (gpuType b = VERTEX))); [discriminate|].
    cbv zeta. destruct (negb _ || _); [discriminate|].
    unfold bind, ret.
    destruct (checkSizeAndRef it p h) as [[[] h2]| |];
      [discriminate | discriminate | contradiction].
  - destruct (newGPUBuffer_spec (NAME (nm ++ " vbo " ++ to_string i))
                (initData it) VERTEX use h) as (p & h1 & Hnew & _ & _ & Hp1).
    pose proof (checkSizeAndRef_defined (clearInitData it p) p h1
                  (ex_intro _ _ Hp1)) as Hc.
    unfold bind at 1. rewrite Hnew. cbv zeta.
    destruct (_ =? 0)%N; [discriminate|].
    destruct (elems =? 0)%N.
    + unfold bind, ret.
      destruct (checkSizeAndRef (clearInitData it p) p h1) as [[[] h2]| |];
        [discriminate | discriminate | contradiction].
    + destruct (negb _); [discriminate|]. unfold bind, ret.
      destruct (checkSizeAndRef (clearInitData it p) p h1) as [[[] h2]| |];
        [discriminate | discriminate | contradiction].
Qed.

Lemma vertexLoop_ok (nm : string) (use E : N) (vl : list BufferLayout) :
  forall (i elems : N) (h : Heap),
    Forall (validVertex h E) vl -> elems = 0%N \/ elems = E ->
    exists vl' e h',
      vertexLoop nm use i elems vl h = Ok ((vl', e), h') /\
      Forall (fun l => elements l = E) vl' /\ length vl' = length vl /\
      heapExtends h h' /\ (vl <> [] -> e = E).
Proof.
  induction vl as [|it rest IH]; intros i elems h Hall Hel.
  - exists [], elems, h. simpl. unfold ret.
    repeat split; [constructor | apply heapExtends_refl | congruence].
  - inversion Hall as [|? ? Hit Hrest]; subst.
    destruct (vertexStep_ok nm use i elems E it h Hit Hel)
      as (it' & h1 & Hstep & He & Hext1).
    destruct (IH (i + 1)%N E h1) as (vl' & e & h2 & Hloop & Hall' & Hlen & Hext2 & _).
    { eapply Forall_impl; [exact Hrest|]. intros l. apply validVertex_extends.
      exact Hext1. }
    { right; reflexivity. }
    assert (Hrest_e : e = E).
    { destruct rest as [|r rest'].
      - simpl in Hloop. unfold ret in Hloop. congruence.
      - destruct (IH (i + 1)%N E h1) as (? & e' & ? & Hloop' & _ & _ & _ & He');
          [eapply Forall_impl; [exact Hrest|]; intros l;
           apply validVertex_extends; exact Hext1 | right; reflexivity |].
        rewrite Hloop in Hloop'. injection Hloop' as _ <- _.
        apply He'. discriminate. }
    subst e. exists (it' :: vl'), E, h2.
    split; [|split; [constructor; assumption | split; [simpl; congruence |
             split; [exact (heapExtends_trans _ _ _ Hext1 Hext2) | reflexivity]]]].
    simpl. unfold bind at 1. rewrite Hstep. simpl.
    unfold bind at 1. rewrite Hloop. reflexivity.
Qed.

Lemma vertexLoop_inv (nm : string) (use : N) (vl : list BufferLayout) :
  forall (i elems e : N) (vl' : list BufferLayout) (h h' : Heap),
    vertexLoop nm use i elems vl h = Ok ((vl', e), h') ->
    Forall (fun l => elements l = e) vl /\ (elems <> 0%N -> e = elems) /\
    length vl' = length vl.
Proof.
  induction vl as [|it rest IH]; intros i elems e vl' h h'; simpl.
  - unfold ret. intros [= <- <- <-].
    split; [constructor | split; [intros _; reflexivity | reflexivity]].
  - unfold bind at 1.
    destruct (vertexStep nm use i elems it h) as [[[it1 e1] h1]| |] eqn:Hstep;
      try discriminate.
    apply vertexStep_inv in Hstep. destruct Hstep as (He1 & Hnz & Hkeep & _ & _).
    simpl. unfold bind at 1.
    destruct (vertexLoop nm use (i + 1)%N e1 rest h1) as [[[vl1 e2] h2]| |] eqn:Hloop;
      try discriminate.
    apply IH in Hloop. destruct Hloop as (Hall & Hkeep2 & Hlen).
    unfold ret. simpl. intros [= <- <- <-].
    pose proof (Hkeep2 Hnz) as ->.
    split; [constructor; assumption|]. split; [exact Hkeep | simpl; congruence].
Qed.

Lemma vertexLoop_defined (nm : string) (use : N) (vl : list BufferLayout) :
  forall (i elems : N) (h : Heap),
    pointersValid h vl -> vertexLoop nm use i elems vl h <> Undefined.
Proof.
  induction vl as [|it rest IH]; intros i elems h Hptr; simpl.
  - discriminate.
  - inversion Hptr as [|? ? Hit Hrest]; subst.
    pose proof (vertexStep_defined nm use i elems it h Hit) as Hd.
    unfold bind at 1.
    destruct (vertexStep nm use i elems it h) as [[[it1 e1] h1]| |] eqn:Hstep;
      [|discriminate|contradiction].
    apply vertexStep_inv in Hstep. destruct Hstep as (_ & _ & _ & _ & Hext).
    pose proof (IH (i + 1)%N e1 h1 (pointersValid_extends _ _ _ Hext Hrest)) as Hd'.
    simpl. unfold bind at 1.
    destruct (vertexLoop nm use (i + 1)%N e1 rest h1) as [[[vl1 e2] h2]| |];
      [discriminate | discriminate | contradiction].
Qed.

Lemma indexStep_ok (nm : string) (use : N) (il : BufferLayout) (h : Heap) :
  validIndex h il -> hasIndices il = true ->
  exists il' h', indexStep nm use il h = Ok (il', h').
Proof.
  intros [Hno | [(f & Hf & Hfmt) Hb]] Hhas; [congruence|].
  unfold indexStep. destruct (buffer il) as [p|] eqn:Hbuf.
  - destruct Hb as (b & Hp & Ht).
    destruct (addRef_spec p b h Hp) as (h' & Hadd & _).
    exists il, h'. unfold bind at 1. unfold bind at 1, deref. rewrite Hp, Ht.
    simpl. unfold bind at 1. rewrite Hadd. unfold ret. rewrite Hf, Hfmt.
    reflexivity.
  - destruct (newGPUBuffer_spec (NAME (nm ++ " ibo")) (initData il) INDEX use h)
      as (p & h' & Hnew & _).
    exists (clearInitData il p), h'. unfold bind at 1. unfold bind at 1.
    rewrite Hnew. unfold ret. simpl. rewrite Hf, Hfmt. reflexivity.
Qed.

Lemma validIndex_extends (h h' : Heap) (il : BufferLayout) :
  heapExtends h h' -> validIndex h il -> validIndex h' il.
Proof.
  intros Hext [Hno | [Hf Hb]]; [left; exact Hno|]. right. split; [exact Hf|].
  destruct (buffer il) as [p|]; [|exact I].
  destruct Hb as (b & Hp & Ht). destruct (Hext p b Hp) as (b' & Hp' & Ht' & _).
  exists b'. split; congruence.
Qed.

(** What the constructor has tested of a vertex layout when its loop
    returns with the element count [e]: the count, which is not zero, and
    the buffer, which is of the layout's byte size and, when it was
    supplied, tagged as a vertex buffer. *)
Definition checkedVertex (h : Heap) (e : N) (l : BufferLayout) : Prop :=
  elements l = e /\ e <> 0%N /\
  match buffer l with
  | None => layoutSize l <> 0%N /\
            N.of_nat (length (initData l)) = layoutSize l
  | Some p => forall b, h !! p = Some b ->
                        gpuType b = VERTEX /\ gpuSize b = layoutSize l
  end.

Lemma checkSizeAndRef_inv (it : BufferLayout) (p : N) (h h' : Heap) (u : unit) :
  checkSizeAndRef it p h = Ok (u, h') ->
  exists b, h !! p = Some b /\ gpuSize b = layoutSize it.
Proof.
  unfold checkSizeAndRef, bind, deref.
  destruct (h !! p) as [b|]; [|discriminate].
  destruct (gpuSize b =? layoutSize it)%N eqn:Hsz; [|discriminate].
  intros _. exists b. split; [reflexivity | apply N.eqb_eq; exact Hsz].
Qed.

Lemma vertexStep_checked (nm : string) (use i elems e : N)
    (it it' : BufferLayout) (h0 h' : Heap) :
  vertexStep nm use i elems it h0 = Ok ((it', e), h') ->
  forall h, heapExtends h h0 -> checkedVertex h e it.
Proof.
  intros Hstep h Hext.
  destruct (vertexStep_inv _ _ _ _ _ _ _ _ _ Hstep) as (He & Hnz & _ & _ & _).
  split; [exact He|]. split; [exact Hnz|].
  revert Hstep. unfold vertexStep. destruct (buffer it) as [p|] eqn:Hbuf.
  - unfold bind at 1, deref. destruct (h0 !! p) as [b0|] eqn:Hp; [|discriminate].
    destruct (negb (bool_decide (gpuType b0 = VERTEX))) eqn:Ht; [discriminate|].
    apply negb_false_iff, bool_decide_eq_true in Ht. cbv zeta.
    destruct (negb (_ =? elements it)%N || (_ =? 0)%N); [discriminate|].
    unfold bind, ret.
    destruct (checkSizeAndRef it p h0) as [[[] h2]| |] eqn:Hc; try discriminate.
    intros _ b Hb. apply checkSizeAndRef_inv in Hc.
    destruct Hc as (b1 & Hb1 & Hsz).
    destruct (Hext p b Hb) as (b' & Hb' & Ht' & Hs').
    rewrite Hp in Hb1, Hb'. injection Hb1 as <-. injection Hb' as <-.
    split; congruence.
  - destruct (newGPUBuffer_spec (NAME (nm ++ " vbo " ++ to_string i))
                (initData it) VERTEX use h0) as (p & h1 & Hnew & _ & _ & Hp1).
    unfold bind at 1. rewrite Hnew. cbv zeta.
    rewrite layoutSize_clearInitData.
    destruct (layoutSize it =? 0)%N eqn:Hls; [discriminate|].
    apply N.eqb_neq in Hls.
    destruct (elems =? 0)%N.
    + unfold bind, ret.
      destruct (checkSizeAndRef (clearInitData it p) p h1) as [[u h2]| |] eqn:Hc;
        try discriminate.
      intros _. split; [exact Hls|]. apply checkSizeAndRef_inv in Hc.
      destruct Hc as (b1 & Hb1 & Hsz). rewrite Hp1 in Hb1.
      injection Hb1 as <-. exact Hsz.
    + destruct (negb _); [discriminate|]. unfold bind, ret.
      destruct (checkSizeAndRef (clearInitData it p) p h1) as [[u h2]| |] eqn:Hc;
        try discriminate.
      intros _. split; [exact Hls|]. apply checkSizeAndRef_inv in Hc.
      destruct Hc as (b1 & Hb1 & Hsz). rewrite Hp1 in Hb1.
      injection Hb1 as <-. exact Hsz.
Qed.

Lemma vertexLoop_checked (nm : string) (use : N) (vl : list BufferLayout) :
  forall (i elems e : N) (vl' : list BufferLayout) (h0 h' : Heap),
    vertexLoop nm use i elems vl h0 = Ok ((vl', e), h') ->
    forall h, heapExtends h h0 -> Forall (checkedVertex h e) vl.
Proof.
  induction vl as [|it rest IH]; intros i elems e vl' h0 h' Hloop h Hext;
    [constructor|].
  simpl in Hloop. unfold bind at 1 in Hloop.
  destruct (vertexStep nm use i elems it h0) as [[[it1 e1] h1]| |] eqn:Hstep;
    try discriminate.
  simpl in Hloop. unfold bind at 1 in Hloop.
  destruct (vertexLoop nm use (i + 1)%N e1 rest h1) as [[[vl1 e2] h2]| |] eqn:Hrest;
    try discriminate.
  unfold ret in Hloop. simpl in Hloop. injection Hloop as <- <- <-.
  destruct (vertexStep_inv _ _ _ _ _ _ _ _ _ Hstep) as (_ & Hnz & _ & _ & Hext1).
  destruct (vertexLoop_inv _ _ _ _ _ _ _ _ _ Hrest) as (_ & Hkeep & _).
  pose proof (Hkeep Hnz) as ->.
  constructor.
  - exact (vertexStep_checked _ _ _ _ _ _ _ _ _ Hstep h Hext).
  - exact (IH _ _ _ _ _ _ Hrest h (heapExtends_trans _ _ _ Hext Hext1)).
Qed.

(** C1, as the code has it.  Construction succeeds, and every vertex layout
    of the object has element count [E], when the description has at least
    one vertex layout, every vertex layout has element count [E] and a
    non-empty byte size backed by a buffer of exactly that size (allocated
    from the initial data, or supplied and tagged as a vertex buffer), and
    the index layout, if indices are declared, has one 16- or 32-bit integer
    format and a buffer that is allocated or tagged as an index buffer.
    Whenever two vertex layouts differ in their element counts, construction
    ends fatally.  A construction that returns has found one element count,
    not zero, on every vertex layout, and every buffer of the layout's byte
    size, the supplied ones tagged as vertex buffers: construction ends
    fatally when a vertex layout has the element count 0, a supplied buffer
    of another type, or a buffer whose size is not the layout's. *)
Theorem construct_element_count :
  (forall (nm : string) (inf : Info) (h : Heap) (E : N),
      vertexLayout inf <> [] ->
      Forall (validVertex h E) (vertexLayout inf) ->
      validIndex h (indexLayout inf) ->
      exists pb h',
        construct nm inf h = Ok (pb, h') /\
        vertexLayout (info pb) <> [] /\
        length (vertexLayout (info pb)) = length (vertexLayout inf) /\
        Forall (fun l => elements l = E) (vertexLayout (info pb))) /\
  (forall (nm : string) (inf : Info) (h : Heap) (i j : nat)
          (li lj : BufferLayout),
      pointersValid h (vertexLayout inf) ->
      vertexLayout inf !! i = Some li -> vertexLayout inf !! j = Some lj ->
      elements li <> elements lj ->
      exists msg, construct nm inf h = Fatal msg) /\
  (forall (nm : string) (inf : Info) (h h' : Heap) (pb : PrimitiveBuffer),
      construct nm inf h = Ok (pb, h') ->
      vertexLayout inf <> [] /\
      exists E, Forall (checkedVertex h E) (vertexLayout inf)) /\
  (forall (nm : string) (inf : Info) (h : Heap) (l : BufferLayout),
      pointersValid h (vertexLayout inf) ->
      l ∈ vertexLayout inf ->
      elements l = 0%N \/
      (exists p b, buffer l = Some p /\ h !! p = Some b /\
                   gpuType b <> VERTEX) \/
      (exists p b, buffer l = Some p /\ h !! p = Some b /\
                   gpuSize b <> layoutSize l) \/
      (buffer l = None /\ N.of_nat (length (initData l)) <> layoutSize l) ->
      exists msg, construct nm inf h = Fatal msg).
Proof.
  assert (Hchecked : forall (nm : string) (inf : Info) (h h' : Heap)
                            (pb : PrimitiveBuffer),
             construct nm inf h = Ok (pb, h') ->
             vertexLayout inf <> [] /\
             exists E, Forall (checkedVertex h E) (vertexLayout inf)).
  { intros nm inf h h' pb. unfold construct. unfold bind at 1.
    destruct (vertexLoop nm (usage inf) 0%N 0%N (vertexLayout inf) h)
      as [[[vl' e] h1]| |] eqn:Hloop; try discriminate.
    simpl. destruct (length vl' =? 0)%nat eqn:Hlen; [discriminate|].
    intros _. split.
    - intros Hnil. apply vertexLoop_inv in Hloop.
      destruct Hloop as (_ & _ & Hl). rewrite Hnil in Hl.
      destruct vl'; [discriminate Hlen | discriminate Hl].
    - exists e. exact (vertexLoop_checked _ _ _ _ _ _ _ _ _ Hloop h
                         (heapExtends_refl h)). }
  split; [|split; [|split; [exact Hchecked|]]].
  - intros nm inf h E Hne Hall Hidx.
    destruct (vertexLoop_ok nm (usage inf) E (vertexLayout inf) 0%N 0%N h Hall)
      as (vl' & e & h1 & Hloop & Hall' & Hlen & Hext & _); [left; reflexivity|].
    assert (Hne' : vl' <> []).
    { intros ->. destruct (vertexLayout inf); [congruence | discriminate]. }
    assert (Hlen0 : (length vl' =? 0)%nat = false).
    { destruct vl'; [congruence | reflexivity]. }
    unfold construct. unfold bind at 1. rewrite Hloop. simpl. rewrite Hlen0.
    destruct (hasIndices (indexLayout inf)) eqn:Hhas.
    + destruct (indexStep_ok nm (usage inf) (indexLayout inf) h1
                  (validIndex_extends _ _ _ Hext Hidx) Hhas) as (il' & h2 & Hstep).
      eexists _, h2. unfold bind at 1. rewrite Hstep. unfold ret.
      split; [reflexivity|]. simpl. auto.
    + eexists _, h1. unfold bind, ret. split; [reflexivity|]. simpl. auto.
  - intros nm inf h i j li lj Hptr Hi Hj Hdiff.
    pose proof (vertexLoop_defined nm (usage inf) (vertexLayout inf) 0%N 0%N h Hptr)
      as Hdef.
    unfold construct. unfold bind at 1.
    destruct (vertexLoop nm (usage inf) 0%N 0%N (vertexLayout inf) h)
      as [[[vl' e] h1]| msg |] eqn:Hloop; [|eexists; reflexivity|contradiction].
    apply vertexLoop_inv in Hloop. destruct Hloop as (Hall & _ & _).
    rewrite Forall_lookup in Hall.
    pose proof (Hall i li Hi) as Hei. pose proof (Hall j lj Hj) as Hej.
    simpl in Hei, Hej. congruence.
  - intros nm inf h l Hptr Hin Hbad.
    pose proof (vertexLoop_defined nm (usage inf) (vertexLayout inf) 0%N 0%N h Hptr)
      as Hdef.
    unfold construct. unfold bind at 1.
    destruct (vertexLoop nm (usage inf) 0%N 0%N (vertexLayout inf) h)
      as [[[vl' e] h1]| msg |] eqn:Hloop; [|eexists; reflexivity|contradiction].
    exfalso.
    pose proof (vertexLoop_checked _ _ _ _ _ _ _ _ _ Hloop h (heapExtends_refl h))
      as Hall.
    rewrite Forall_forall in Hall. destruct (Hall l Hin) as (He & Hnz & Hb).
    destruct Hbad as [H0 | [(p & b & Hp & Hh & Ht) | [(p & b & Hp & Hh & Hs)
                     | (Hnone & Hs)]]].
    + congruence.
    + rewrite Hp in Hb. destruct (Hb b Hh) as [Ht' _]. contradiction.
    + rewrite Hp in Hb. destruct (Hb b Hh) as [_ Hs']. contradiction.
    + rewrite Hnone in Hb. destruct Hb as [_ Hs']. contradiction.
Qed.

End Construction.

(** *** Layout matching *)

Section Matching.

Context {BufferAttributes : Type} `{EqDecision BufferAttributes}.

Lemma matchLoop_prefix (n i : nat) (layout : list BufferAttributes)
    (vl : list BufferLayout) :
  (i + n)%nat = length layout ->
  (length layout <= length vl)%nat ->
  exists b, matchLoop n i layout vl = Ok b /\
            (b = true <-> drop i layout = take n (drop i (map formats vl))).
Proof.
  revert i. induction n as [|n IH]; intros i Hlen Hle.
  - exists true. split; [reflexivity|]. split; [|reflexivity].
    intros _. rewrite (drop_ge layout i) by lia. reflexivity.
  - destruct (lookup_lt_is_Some_2 layout i) as [a Ha]; [lia|].
    destruct (lookup_lt_is_Some_2 vl i) as [v Hv]; [lia|].
    assert (Hf : map formats vl !! i = Some (formats v)).
    { change (map formats vl) with (formats <$> vl).
      rewrite list_lookup_fmap, Hv. reflexivity. }
    simpl. rewrite Ha, Hv.
    rewrite (drop_S _ _ _ Ha), (drop_S _ _ _ Hf). simpl.
    destruct (bool_decide_reflect (a <> formats v)) as [Hne|Heq].
    + exists false. split; [reflexivity|]. split; [discriminate|].
      intros [= Hhead _]. contradiction.
    + assert (a = formats v) as -> by (destruct (decide (a = formats v)); tauto).
      destruct (IH (S i)) as (b & Hb & Hiff); [lia | lia |].
      exists b. split; [exact Hb|]. rewrite Hiff. split; [congruence|].
      intros [= Htl]. exact Htl.
Qed.

Lemma matchLoop_past_end (n i : nat) (layout : list BufferAttributes)
    (vl : list BufferLayout) :
  (i + n)%nat = length layout ->
  (i <= length vl)%nat -> (length vl < length layout)%nat ->
  drop i (take (length vl) layout) = drop i (map formats vl) ->
  matchLoop n i layout vl = Undefined.
Proof.
  revert i. induction n as [|n IH]; intros i Hlen Hi Hlt Hagree; [lia|].
  destruct (lookup_lt_is_Some_2 layout i) as [a Ha]; [lia|].
  simpl. rewrite Ha.
  destruct (vl !! i) as [v|] eqn:Hv; [|reflexivity].
  pose proof (lookup_lt_Some _ _ _ Hv) as Hiv.
  assert (Hf : map formats vl !! i = Some (formats v)).
  { change (map formats vl) with (formats <$> vl).
    rewrite list_lookup_fmap, Hv. reflexivity. }
  assert (Ht : take (length vl) layout !! i = Some a).
  { rewrite lookup_take_lt by lia. exact Ha. }
  rewrite (drop_S _ _ _ Ht), (drop_S _ _ _ Hf) in Hagree.
  injection Hagree as -> Hrest.
  destruct (bool_decide_reflect (formats v <> formats v)) as [Hne|_];
    [contradiction|].
  apply IH; [lia | lia | lia | exact Hrest].
Qed.

(** C3, as the code has it.  For a candidate attribute layout no longer than
    the buffer's list of vertex layouts, [matchLayout] returns, and it returns
    true exactly when the candidate equals, element by element, the formats of
    the first [length layout] vertex layouts. *)
Theorem matchLayout_prefix (pb : PrimitiveBuffer)
    (layout : list BufferAttributes) :
  (length layout <= length (vertexLayout (info pb)))%nat ->
  exists b, matchLayout pb layout = Ok b /\
            (b = true <-> layout = take (length layout) (vertexFormats pb)).
Proof.
  intros Hle. unfold matchLayout, vertexFormats.
  destruct (matchLoop_prefix (length layout) 0 layout
              (vertexLayout (info pb)) eq_refl Hle) as (b & Hb & Hiff).
  exists b. split; [exact Hb|]. rewrite Hiff, !drop_0. reflexivity.
Qed.

(** A candidate that extends the buffer's formats by further entries makes
    the loop index [info.vertexLayout] past its end. *)
Lemma matchLayout_longer_candidate (pb : PrimitiveBuffer)
    (extra : list BufferAttributes) :
  extra <> [] ->
  matchLayout pb (vertexFormats pb ++ extra) = Undefined.
Proof.
  intros Hne. unfold matchLayout, vertexFormats.
  set (vl := vertexLayout (info pb)).
  assert (Hl : length (map formats vl) = length vl) by apply length_map.
  apply matchLoop_past_end.
  - reflexivity.
  - lia.
  - rewrite length_app, Hl. destruct extra; [contradiction|simpl; lia].
  - rewrite <- Hl, take_app_length. reflexivity.
Qed.

Lemma matchLoop_mismatch (n i : nat) (layout : list BufferAttributes)
    (vl : list BufferLayout) :
  (i + n)%nat = length layout ->
  (i <= length vl)%nat -> (length vl < length layout)%nat ->
  drop i (take (length vl) layout) <> drop i (map formats vl) ->
  matchLoop n i layout vl = Ok false.
Proof.
  revert i. induction n as [|n IH]; intros i Hlen Hi Hlt Hdiff; [lia|].
  destruct (lookup_lt_is_Some_2 layout i) as [a Ha]; [lia|].
  simpl. rewrite Ha.
  destruct (vl !! i) as [v|] eqn:Hv.
  - pose proof (lookup_lt_Some _ _ _ Hv) as Hiv.
    assert (Hf : map formats vl !! i = Some (formats v)).
    { change (map formats vl) with (formats <$> vl).
      rewrite list_lookup_fmap, Hv. reflexivity. }
    assert (Ht : take (length vl) layout !! i = Some a).
    { rewrite lookup_take_lt by lia. exact Ha. }
    rewrite (drop_S _ _ _ Ht), (drop_S _ _ _ Hf) in Hdiff.
    destruct (bool_decide_reflect (a <> formats v)) as [Hne|Heq];
      [reflexivity|].
    assert (a = formats v) as -> by (destruct (decide (a = formats v)); tauto).
    apply IH; [lia | lia | lia |]. intros Hrest. apply Hdiff. congruence.
  - exfalso. apply lookup_ge_None in Hv. apply Hdiff.
    rewrite !drop_ge; [reflexivity | rewrite length_map; lia |].
    rewrite length_take. lia.
Qed.

(** X16. A candidate with more entries than the buffer has vertex layouts is
    never accepted: [matchLayout] returns false when one of the first N
    entries differs from the buffer's formats, and reads
    [info.vertexLayout] past its end when all of them agree. *)
Theorem matchLayout_longer_never_true (pb : PrimitiveBuffer)
    (layout : list BufferAttributes) :
  (length (vertexLayout (info pb)) < length layout)%nat ->
  let n := length (vertexLayout (info pb)) in
  (take n layout <> vertexFormats pb -> matchLayout pb layout = Ok false) /\
  (take n layout = vertexFormats pb -> matchLayout pb layout = Undefined).
Proof.
  intros Hlt n. unfold matchLayout, vertexFormats. split.
  - intros Hdiff. apply matchLoop_mismatch; [reflexivity | lia | exact Hlt|].
    rewrite !drop_0. exact Hdiff.
  - intros Hsame. apply matchLoop_past_end; [reflexivity | lia | exact Hlt|].
    rewrite !drop_0. exact Hsame.
Qed.

End Matching.

(** A buffer with two vertex layouts, attribute sets named by a number. *)
Definition twoLayouts : PrimitiveBuffer (BufferAttributes := N) :=
  {| name := "quad";
     info := {| vertexLayout :=
                  [ {| formats := 1%N; initData := []; buffer := Some 10%N;
                       bufferOffset := 0%N; elements := 4%N |};
                    {| formats := 2%N; initData := []; buffer := Some 11%N;
                       bufferOffset := 0%N; elements := 4%N |} ];
                indexLayout := {| formats := 0%N; initData := [];
                                  buffer := None; bufferOffset := 0%N;
                                  elements := 0%N |};
                usage := 0%N |} |}.

(** C3 fails as stated: the candidate [[1]] is accepted by a buffer whose
    formats are [[1; 2]], although the two lists differ. *)
Lemma matchLayout_accepts_shorter_candidate :
  matchLayout twoLayouts [1%N] = Ok true /\
  vertexFormats twoLayouts = [1%N; 2%N] /\
  [1%N] <> vertexFormats twoLayouts.
Proof. repeat split. discriminate. Qed.

Lemma matchLayout_prefix_witness :
  exists b, matchLayout twoLayouts [1%N; 2%N] = Ok b /\
            (b = true <-> [1%N; 2%N] = take 2 (vertexFormats twoLayouts)).
Proof.
  apply (matchLayout_prefix twoLayouts [1%N; 2%N]). simpl. lia.
Defined.

(** Candidates of three entries against the buffer of two layouts. *)
Lemma matchLayout_longer_never_true_witness :
  matchLayout twoLayouts [1%N; 3%N; 5%N] = Ok false /\
  matchLayout twoLayouts [1%N; 2%N; 5%N] = Undefined.
Proof.
  split.
  - apply (proj1 (matchLayout_longer_never_true twoLayouts [1%N; 3%N; 5%N]
                    ltac:(simpl; lia))).
    discriminate.
  - apply (proj2 (matchLayout_longer_never_true twoLayouts [1%N; 2%N; 5%N]
                    ltac:(simpl; lia))).
    reflexivity.
Defined.

(** *** Construction at concrete descriptions

    Attribute sets are named by their stride; no indices are declared. *)

Definition oneBuffer (kind : GPUBufferType) (bytes : N) : gmap N GPUBuffer :=
  {[ 1%N := {| gpuName := "supplied"; gpuType := kind; gpuUsage := 0%N;
               gpuSize := bytes; refs := 1%N |} ]}.

Definition noIndexLayout : BufferLayout (BufferAttributes := N) :=
  {| formats := 0%N; initData := []; buffer := None; bufferOffset := 0%N;
     elements := 0%N |}.

Definition construct12 : string -> Info -> M (gmap N GPUBuffer) PrimitiveBuffer :=
  construct (fun stride : N => stride) (fun _ => []) (fun nm => nm) 1%N
            (fun _ => false).

(** C1 fails as stated.  One supplied vertex buffer of 4 bytes under a
    12-byte stride resolves to 0 elements: every layout of the description
    has the one element count 0, and construction ends fatally.  So it does
    for one supplied buffer of 24 bytes that resolves to 2 elements and is
    tagged as an index buffer. *)
Lemma construct_rejects_zero_elements :
  (let h := oneBuffer VERTEX 4%N in
   exists l,
     bufferLayoutOf (fun stride : N => stride) 1%N 12%N 0%N h = Ok (l, h) /\
     elements l = 0%N /\
     construct12 "tri" {| vertexLayout := [l]; indexLayout := noIndexLayout;
                          usage := 0%N |} h
     = Fatal "Invalid predefined vertex buffer size") /\
  (let h := oneBuffer INDEX 24%N in
   exists l,
     bufferLayoutOf (fun stride : N => stride) 1%N 12%N 0%N h = Ok (l, h) /\
     elements l = 2%N /\
     construct12 "tri" {| vertexLayout := [l]; indexLayout := noIndexLayout;
                          usage := 0%N |} h
     = Fatal "Invalid predefined vertex buffer").
Proof.
  split; (eexists; split; [reflexivity|]; split; reflexivity).
Qed.

(** Two vertex layouts of 2 elements each: one supplied 24-byte vertex
    buffer and one allocated from 16 bytes of initial data. *)
Definition twoElements : Info (BufferAttributes := N) :=
  {| vertexLayout :=
       [ {| formats := 12%N; initData := []; buffer := Some 1%N;
            bufferOffset := 0%N; elements := 2%N |};
         {| formats := 8%N; initData := repeat 0%N 16; buffer := None;
            bufferOffset := 0%N; elements := 2%N |} ];
     indexLayout := noIndexLayout;
     usage := 0%N |}.

(** The same description with the second layout resolved to 3 elements. *)
Definition twoAndThree : Info (BufferAttributes := N) :=
  {| vertexLayout :=
       [ {| formats := 12%N; initData := []; buffer := Some 1%N;
            bufferOffset := 0%N; elements := 2%N |};
         {| formats := 8%N; initData := repeat 0%N 24; buffer := None;
            bufferOffset := 0%N; elements := 3%N |} ];
     indexLayout := noIndexLayout;
     usage := 0%N |}.

(** One supplied buffer, at address 1, under a layout of [n] elements of
    12 bytes. *)
Definition oneSupplied (n : N) : Info (BufferAttributes := N) :=
  {| vertexLayout :=
       [ {| formats := 12%N; initData := []; buffer := Some 1%N;
            bufferOffset := 0%N; elements := n |} ];
     indexLayout := noIndexLayout;
     usage := 0%N |}.

Lemma construct_element_count_witness :
  (exists pb h',
      construct12 "quad" twoElements (oneBuffer VERTEX 24%N) = Ok (pb, h') /\
      vertexLayout (info pb) <> [] /\
      length (vertexLayout (info pb)) = length (vertexLayout twoElements) /\
      Forall (fun l => elements l = 2%N) (vertexLayout (info pb))) /\
  (exists msg,
      construct12 "quad" twoAndThree (oneBuffer VERTEX 24%N) = Fatal msg) /\
  (exists E,
      Forall (checkedVertex (fun stride : N => stride) (oneBuffer VERTEX 24%N) E)
             (vertexLayout twoElements)) /\
  (exists msg,
      construct12 "tri" (oneSupplied 0%N) (oneBuffer VERTEX 4%N) = Fatal msg) /\
  (exists msg,
      construct12 "tri" (oneSupplied 2%N) (oneBuffer INDEX 24%N) = Fatal msg) /\
  (exists msg,
      construct12 "tri" (oneSupplied 3%N) (oneBuffer VERTEX 24%N) = Fatal msg).
Proof.
  pose proof (construct_element_count (fun stride : N => stride)
                (fun _ => []) (fun nm => nm) 1%N (fun _ => false))
    as (Hok & Hfail & Hchecked & Hfatal).
  assert (Hptr : forall ty bytes n,
             pointersValid (oneBuffer ty bytes) (vertexLayout (oneSupplied n))).
  { intros ty bytes n. repeat constructor. intros p [= <-]. eexists. reflexivity. }
  assert (Hrun : exists pb h',
             construct12 "quad" twoElements (oneBuffer VERTEX 24%N) = Ok (pb, h') /\
             vertexLayout (info pb) <> [] /\
             length (vertexLayout (info pb)) = length (vertexLayout twoElements) /\
             Forall (fun l => elements l = 2%N) (vertexLayout (info pb))).
  { apply Hok.
    + discriminate.
    + repeat constructor; try discriminate.
      exists {| gpuName := "supplied"; gpuType := VERTEX; gpuUsage := 0%N;
                gpuSize := 24%N; refs := 1%N |}.
      repeat split.
    + left. reflexivity. }
  split; [exact Hrun|]. split; [|split; [|split; [|split]]].
  - apply (Hfail "quad" twoAndThree (oneBuffer VERTEX 24%N) 0%nat 1%nat
             _ _ ltac:(repeat constructor; intros p [= <-]; eexists; reflexivity
                       || discriminate)
             eq_refl eq_refl).
    discriminate.
  - destruct Hrun as (pb & h' & Hpb & _).
    exact (proj2 (Hchecked "quad" twoElements _ _ _ Hpb)).
  - apply (Hfatal "tri" (oneSupplied 0%N) (oneBuffer VERTEX 4%N) _ (Hptr _ _ _)
             (list_elem_of_here _ _)).
    left. reflexivity.
  - apply (Hfatal "tri" (oneSupplied 2%N) (oneBuffer INDEX 24%N) _ (Hptr _ _ _)
             (list_elem_of_here _ _)).
    right. left. eexists _, _. split; [reflexivity|].
    split; [apply lookup_singleton_eq | discriminate].
  - apply (Hfatal "tri" (oneSupplied 3%N) (oneBuffer VERTEX 24%N) _ (Hptr _ _ _)
             (list_elem_of_here _ _)).
    right. right. left. eexists _, _. split; [reflexivity|].
    split; [apply lookup_singleton_eq | discriminate].
Defined.

Example construct_twoElements_runs :
  match construct12 "quad" twoElements (oneBuffer VERTEX 24%N) with
  | Ok (pb, h') =>
      map elements (vertexLayout (info pb)) = [2%N; 2%N] /\
      map buffer (vertexLayout (info pb)) = [Some 1%N; Some 2%N] /\
      gpuName <$> h' !! 2%N = Some "quad vbo 1" /\
      refs <$> h' !! 1%N = Some 2%N /\ refs <$> h' !! 2%N = Some 2%N
  | _ => False
  end.
Proof. vm_compute. repeat split. Qed.

Example construct_twoAndThree_fails :
  construct12 "quad" twoAndThree (oneBuffer VERTEX 24%N)
  = Fatal "Invalid primitive buffer size".
Proof. vm_compute. reflexivity. Qed.

End PrimitiveBuffer.

(** ** The OpenGL interface: constants, native calls, enum translation *)

Module GL.

(** The names of the [GL_*] constants the sources use.  Their numeric values
    come from the Khronos header glext.h, which is not part of the sources:
    the code below takes them from a table [GLconst -> Z]. *)
Inductive GLconst : Type :=
| GL_FALSE | GL_TRUE
| GL_FRAMEBUFFER | GL_READ_FRAMEBUFFER | GL_DRAW_FRAMEBUFFER
| GL_FRAMEBUFFER_COMPLETE
| GL_RENDERBUFFER | GL_TEXTURE | GL_SAMPLER | GL_IMAGE_2D
| GL_UNIFORM_BUFFER | GL_SHADER_STORAGE_BUFFER
| GL_DEPTH_ATTACHMENT | GL_DEPTH_STENCIL_ATTACHMENT | GL_COLOR_ATTACHMENT0
| GL_SCISSOR_TEST | GL_WRITE_ONLY | GL_COLOR_BUFFER_BIT | GL_LINEAR
| GL_DEPTH_COMPONENT16 | GL_DEPTH_COMPONENT32 | GL_DEPTH24_STENCIL8
| GL_DEPTH_COMPONENT24 | GL_DEPTH_COMPONENT32F | GL_DEPTH32F_STENCIL8
| GL_R8 | GL_RG8 | GL_RGB8 | GL_RGBA8
| GL_R16 | GL_RG16 | GL_RGB16 | GL_RGBA16
| GL_R8_SNORM | GL_RG8_SNORM | GL_RGB8_SNORM | GL_RGBA8_SNORM
| GL_R16_SNORM | GL_RG16_SNORM | GL_RGB16_SNORM | GL_RGBA16_SNORM
| GL_R8UI | GL_RG8UI | GL_RGB8UI | GL_RGBA8UI
| GL_R16UI | GL_RG16UI | GL_RGB16UI | GL_RGBA16UI
| GL_R32UI | GL_RG32UI | GL_RGB32UI | GL_RGBA32UI
| GL_R8I | GL_RG8I | GL_RGB8I | GL_RGBA8I
| GL_R16I | GL_RG16I | GL_RGB16I | GL_RGBA16I
| GL_R32I | GL_RG32I | GL_RGB32I | GL_RGBA32I
| GL_R16F | GL_RG16F | GL_RGB16F | GL_RGBA16F
| GL_R32F | GL_RG32F | GL_RGB32F | GL_RGBA32F
| GL_SRGB8 | GL_SRGB8_ALPHA8
| GL_TEXTURE_CUBE_MAP | GL_TEXTURE_1D | GL_TEXTURE_2D | GL_TEXTURE_3D
| GL_TEXTURE_2D_MULTISAMPLE | GL_TEXTURE_CUBE_MAP_ARRAY
| GL_TEXTURE_1D_ARRAY | GL_TEXTURE_2D_ARRAY
| GL_TEXTURE_2D_MULTISAMPLE_ARRAY.

Definition GLenum : Type := Z.
Definition GLuint : Type := Z.

(** A call into the driver or into the platform, with its arguments.  A
    [glGen*] call carries the one name the driver returned. *)
Inductive GLCall : Type :=
| GlDeleteFramebuffers (fb : GLuint)
| GlDeleteTextures (tex : GLuint)
| GlDeleteRenderbuffers (rb : GLuint)
| GlDeleteVertexArrays (vao : GLuint)
| GlGenFramebuffers (fb : GLuint)
| GlGenTextures (tex : GLuint)
| GlGenRenderbuffers (rb : GLuint)
| GlBindFramebuffer (target : GLenum) (fb : GLuint)
| GlBindTexture (target : GLenum) (tex : GLuint)
| GlBindRenderBuffer (target : GLenum) (rb : GLuint)
| GlObjectLabel (identifier : GLenum) (obj : GLuint) (len : Z) (label : string)
| GlTexImage2DMultisample (target : GLenum) (samples : Z)
    (internalformat : GLenum) (width height : Z) (fixedLocations : GLenum)
| GlRenderbufferStorageMultisample (target : GLenum) (samples : Z)
    (internalformat : GLenum) (width height : Z)
| GlFramebufferTexture (target attachment : GLenum) (tex : GLuint) (level : Z)
| GlFramebufferRenderbuffer (target attachment rbtarget : GLenum) (rb : GLuint)
| GlDrawBuffers (n : Z) (bufs : list GLenum)
| GlCheckFramebufferStatus (target : GLenum)
| GlViewport (x y width height : Z)
| GlScissor (x y width height : Z)
| GlEnable (cap : GLenum)
| GlDisable (cap : GLenum)
| GlBindBufferRange (target : GLenum) (index : Z) (buf : GLuint)
    (offset size : Z)
| GlBindSampler (unit : Z) (sampler : GLuint)
| GlTextureView (tex : GLuint) (target : GLenum) (orig : GLuint)
    (internalformat : GLenum) (minLevel numLevels minLayer numLayers : Z)
| GlBindTextureUnit (unit : Z) (tex : GLuint)
| GlBindImageTexture (unit : Z) (tex : GLuint) (level : Z) (layered : GLenum)
    (layer : Z) (access format : GLenum)
| GlBlitNamedFramebuffer (readFb drawFb : GLuint)
    (srcX0 srcY0 srcX1 srcY1 dstX0 dstY0 dstX1 dstY1 : Z)
    (mask filter : GLenum)
| LogWarn (msg : string)
| SwapchainBind (swapchain : Z)
| SwapchainPresent (swapchain : Z).

(** [GLsizei(x)] and [GLint(x)] of an unsigned 32-bit value. *)
Definition to_GLsizei (x : Z) : Z :=
  if x <? 2 ^ 31 then x else x - 2 ^ 32.

(** An unsigned 64-bit value ([usz]) passed for a [GLintptr] or a
    [GLsizeiptr] parameter, both signed and 64 bits wide. *)
Definition to_GLintptr (x : Z) : Z :=
  if x <? 2 ^ 63 then x else x - 2 ^ 64.

(** [glxDepthFormat] ([glDepthFormat] in gl_header.hpp) *)
Definition glxDepthFormat (format : DepthFormat) : Result GLconst :=
  match format with
  | D16 => Ok GL_DEPTH_COMPONENT16
  | D32 => Ok GL_DEPTH_COMPONENT32
  | D24_S8 => Ok GL_DEPTH24_STENCIL8
  | D24 => Ok GL_DEPTH_COMPONENT24
  | D32F => Ok GL_DEPTH_COMPONENT32F
  | D32F_S8 => Ok GL_DEPTH32F_STENCIL8
  | _ => Fatal "Invalid depth format"
  end.

(** [glxColorFormat] ([glColorFormat] in gl_header.hpp) *)
Definition glxColorFormat (format : GPUFormat) : Result GLconst :=
  match format with
  | R8 => Ok GL_R8 | RG8 => Ok GL_RG8
  | BGR8 | RGB8 => Ok GL_RGB8
  | BGRA8 | RGBA8 => Ok GL_RGBA8
  | R16 => Ok GL_R16 | RG16 => Ok GL_RG16
  | RGB16 => Ok GL_RGB16 | RGBA16 => Ok GL_RGBA16
  | R8s => Ok GL_R8_SNORM | RG8s => Ok GL_RG8_SNORM
  | BGR8s | RGB8s => Ok GL_RGB8_SNORM
  | BGRA8s | RGBA8s => Ok GL_RGBA8_SNORM
  | R16s => Ok GL_R16_SNORM | RG16s => Ok GL_RG16_SNORM
  | RGB16s => Ok GL_RGB16_SNORM | RGBA16s => Ok GL_RGBA16_SNORM
  | R8u => Ok GL_R8UI | RG8u => Ok GL_RG8UI
  | BGR8u | RGB8u => Ok GL_RGB8UI
  | BGRA8u | RGBA8u => Ok GL_RGBA8UI
  | R16u => Ok GL_R16UI | RG16u => Ok GL_RG16UI
  | RGB16u => Ok GL_RGB16UI | RGBA16u => Ok GL_RGBA16UI
  | R32u => Ok GL_R32UI | RG32u => Ok GL_RG32UI
  | RGB32u => Ok GL_RGB32UI | RGBA32u => Ok GL_RGBA32UI
  | R8i => Ok GL_R8I | RG8i => Ok GL_RG8I
  | BGR8i | RGB8i => Ok GL_RGB8I
  | BGRA8i | RGBA8i => Ok GL_RGBA8I
  | R16i => Ok GL_R16I | RG16i => Ok GL_RG16I
  | RGB16i => Ok GL_RGB16I | RGBA16i => Ok GL_RGBA16I
  | R32i => Ok GL_R32I | RG32i => Ok GL_RG32I
  | RGB32i => Ok GL_RGB32I | RGBA32i => Ok GL_RGBA32I
  | R16f => Ok GL_R16F | RG16f => Ok GL_RG16F
  | RGB16f => Ok GL_RGB16F | RGBA16f => Ok GL_RGBA16F
  | R32f => Ok GL_R32F | RG32f => Ok GL_RG32F
  | RGB32f => Ok GL_RGB32F | RGBA32f => Ok GL_RGBA32F
  | sBGR8 | sRGB8 => Ok GL_SRGB8
  | sBGRA8 | sRGBA8 => Ok GL_SRGB8_ALPHA8
  | R64f | R64u | R64i | RG64f | RG64u | RG64i
  | RGB64f | RGB64u | RGB64i | RGBA64f | RGBA64u | RGBA64i =>
      Fatal "OpenGL doesn't support 64-bit buffers"
  | OtherFormat _ => Fatal "Invalid depth format"
  end.

(** [glxTextureType] *)
Definition glxTextureType (type : TextureType) : Result GLconst :=
  match type with
  | TEXTURE_CUBE => Ok GL_TEXTURE_CUBE_MAP
  | TEXTURE_1D => Ok GL_TEXTURE_1D
  | TEXTURE_2D => Ok GL_TEXTURE_2D
  | TEXTURE_3D => Ok GL_TEXTURE_3D
  | TEXTURE_MS => Ok GL_TEXTURE_2D_MULTISAMPLE
  | TEXTURE_CUBE_ARRAY => Ok GL_TEXTURE_CUBE_MAP_ARRAY
  | TEXTURE_1D_ARRAY => Ok GL_TEXTURE_1D_ARRAY
  | TEXTURE_2D_ARRAY => Ok GL_TEXTURE_2D_ARRAY
  | TEXTURE_MS_ARRAY => Ok GL_TEXTURE_2D_MULTISAMPLE_ARRAY
  | OtherTextureType _ => Fatal "Invalid texture type"
  end.

(** The values glext.h gives to the constants the examples below read;
    the examples read no other constant. *)
Definition headerValue (c : GLconst) : GLenum :=
  match c with
  | GL_FALSE => 0 | GL_TRUE => 1
  | GL_FRAMEBUFFER => 0x8D40
  | GL_READ_FRAMEBUFFER => 0x8CA8 | GL_DRAW_FRAMEBUFFER => 0x8CA9
  | GL_FRAMEBUFFER_COMPLETE => 0x8CD5
  | GL_RENDERBUFFER => 0x8D41 | GL_TEXTURE => 0x1702
  | GL_SAMPLER => 0x82E6 | GL_IMAGE_2D => 0x904D
  | GL_UNIFORM_BUFFER => 0x8A11 | GL_SHADER_STORAGE_BUFFER => 0x90D2
  | GL_DEPTH_ATTACHMENT => 0x8D00 | GL_DEPTH_STENCIL_ATTACHMENT => 0x821A
  | GL_COLOR_ATTACHMENT0 => 0x8CE0
  | GL_SCISSOR_TEST => 0x0C11 | GL_WRITE_ONLY => 0x88B9
  | GL_COLOR_BUFFER_BIT => 0x4000 | GL_LINEAR => 0x2601
  | GL_DEPTH_COMPONENT32 => 0x81A7 | GL_RGBA8 => 0x8058
  | GL_TEXTURE_2D => 0x0DE1 | GL_TEXTURE_2D_MULTISAMPLE => 0x9100
  | _ => 0
  end.

End GL.

(** ** Framebuffer::onResize (gl_framebuffer.cpp) *)

Module Framebuffer.

Import GL.

(** *** The arithmetic of [u32(siz[i] * info.viewportScale)] *)

(** [f64(n)] for an unsigned 32-bit [n]. *)
Definition u32_to_f64 (n : Z) : float := PrimFloat.of_uint63 (Uint63.of_Z n).

(** The integer a finite [x] truncates to, toward zero. *)
Definition truncate (x : float) : option Z :=
  match Prim2SF x with
  | S754_zero _ => Some 0
  | S754_finite s m e =>
      let t := Z.shiftl (Z.pos m) e in Some (if s then - t else t)
  | S754_infinity _ | S754_nan => None
  end.

(** The largest integer not above a finite [x]. *)
Definition floor (x : float) : option Z :=
  match Prim2SF x with
  | S754_zero _ => Some 0
  | S754_finite s m e => Some (Z.shiftl (if s then Z.neg m else Z.pos m) e)
  | S754_infinity _ | S754_nan => None
  end.

(** [x] is finite and below zero. *)
Definition negative (x : float) : bool :=
  match Prim2SF x with
  | S754_finite true _ _ => true
  | _ => false
  end.

(** [u32(x)]: the fractional part is discarded; the conversion is undefined
    when the truncated value is not a value of [u32]. *)
Definition f64_to_u32 (x : float) : Result Z :=
  match truncate x with
  | Some t => if (0 <=? t) && (t <? u32_max) then Ok t else Undefined
  | None => Undefined
  end.

Definition scaled (n : Z) (scale : float) : Result Z :=
  f64_to_u32 (PrimFloat.mul (u32_to_f64 n) scale).

(** *** The surface *)

(** [Surface::Info] *)
Record Info : Type := mkInfo {
  size : Vec2;
  colorFormats : list GPUFormat;
  depthFormat : DepthFormat;
  keepDepth : bool;
  samples : Z;
  isDynamic : bool;
  viewportScale : float
}.

(** [Framebuffer::Data] *)
Record Data : Type := mkData {
  index : GLuint;
  depth : GLuint;
  renderTextures : list GLuint
}.

Record Framebuffer : Type := mkFramebuffer {
  name : string;
  info : Info;
  data : Data
}.

Definition setSize (i : Info) (s : Vec2) : Info :=
  {| size := s; colorFormats := colorFormats i; depthFormat := depthFormat i;
     keepDepth := keepDepth i; samples := samples i;
     isDynamic := isDynamic i; viewportScale := viewportScale i |}.

(** [std::vector::resize(n)] of a vector of handles. *)
Definition resize (n : nat) (l : list GLuint) : list GLuint :=
  take n l ++ replicate (n - length l) 0.

Section OnResize.

(** The header's table of constants, the name-hashing macro,
    [FormatHelper::hasStencil], and the driver: the name a [glGen*] call
    returns and the status [glCheckFramebufferStatus] reports, each after
    the calls made so far. *)
Variable GLv : GLconst -> GLenum.
Variable NAME : string -> string.
Variable hasStencil : DepthFormat -> bool.
Variable genName : list GLCall -> GLuint.
Variable checkStatus : list GLCall -> GLenum.

(** The state the body of [onResize] works on: [*data] and the calls made. *)
Definition St : Type := (Data * list GLCall)%type.

Definition call (c : GLCall) : M St unit :=
  modify (fun s => (fst s, snd s ++ [c])).

Definition gen (mk : GLuint -> GLCall) : M St GLuint :=
  fun s => let n := genName (snd s) in Ok (n, (fst s, snd s ++ [mk n])).

Definition getData : M St Data := fun s => Ok (fst s, s).

Definition setData (f : Data -> Data) : M St unit :=
  modify (fun s => (f (fst s), snd s)).

Definition setIndex (v : GLuint) (d : Data) : Data :=
  {| index := v; depth := depth d; renderTextures := renderTextures d |}.

Definition setDepth (v : GLuint) (d : Data) : Data :=
  {| index := index d; depth := v; renderTextures := renderTextures d |}.

Definition setRenderTextures (f : list GLuint -> list GLuint) (d : Data) : Data :=
  {| index := index d; depth := depth d;
     renderTextures := f (renderTextures d) |}.

Definition label (identifier : GLconst) (obj : GLuint) (s : string)
  : M St unit :=
  call (GlObjectLabel (GLv identifier) obj
          (to_GLsizei (Z.of_nat (String.length s))) s).

(** The deletion of the handles the surface holds. *)
Definition release (keep : bool) : M St unit :=
  (d <- getData ;;
   when (negb (index d =? 0)) (call (GlDeleteFramebuffers (index d))) ;;;
   when (negb (depth d =? 0))
        (call (if keep then GlDeleteTextures (depth d)
               else GlDeleteRenderbuffers (depth d))) ;;;
   forEach (renderTextures d)
           (fun t => when (negb (t =? 0)) (call (GlDeleteTextures t))))%m.

(** The body of [if (info.depthFormat != DepthFormat::NONE)]. *)
Definition allocateDepth (nm : string) (i : Info) (sz : Vec2) : M St unit :=
  if keepDepth i then
    (tex <- gen GlGenTextures ;;
     setData (setDepth tex) ;;;
     call (GlBindTexture (GLv GL_TEXTURE_2D_MULTISAMPLE) tex) ;;;
     label GL_TEXTURE tex (NAME (nm ++ " depth texture")) ;;;
     fmt <- lift (glxDepthFormat (depthFormat i)) ;;
     call (GlTexImage2DMultisample (GLv GL_TEXTURE_2D_MULTISAMPLE)
             (to_GLsizei (samples i)) (GLv fmt)
             (to_GLsizei (fst sz)) (to_GLsizei (snd sz)) (GLv GL_FALSE)) ;;;
     call (GlFramebufferTexture (GLv GL_FRAMEBUFFER) (GLv GL_DEPTH_ATTACHMENT)
             tex 0))%m
  else
    (rb <- gen GlGenRenderbuffers ;;
     setData (setDepth rb) ;;;
     call (GlBindRenderBuffer (GLv GL_RENDERBUFFER) rb) ;;;
     label GL_RENDERBUFFER rb (NAME (nm ++ " depth buffer")) ;;;
     fmt <- lift (glxDepthFormat (depthFormat i)) ;;
     call (GlRenderbufferStorageMultisample (GLv GL_RENDERBUFFER)
             (to_GLsizei (samples i)) (GLv fmt)
             (to_GLsizei (fst sz)) (to_GLsizei (snd sz))) ;;;
     call (GlFramebufferRenderbuffer (GLv GL_FRAMEBUFFER)
             (GLv (if hasStencil (depthFormat i)
                   then GL_DEPTH_STENCIL_ATTACHMENT else GL_DEPTH_ATTACHMENT))
             (GLv GL_RENDERBUFFER) rb))%m.

(** [for (usz i = 0, j = info.colorFormats.size(); i < j; ++i)]: [fmts] are
    the formats from index [i] on, [bufs] is [drawBuffers]. *)
Fixpoint allocateColors (nm : string) (i : Info) (sz : Vec2) (k : nat)
    (fmts : list GPUFormat) (bufs : list GLenum) : M St (list GLenum) :=
  match fmts with
  | [] => ret bufs
  | f :: rest =>
      (tex <- gen GlGenTextures ;;
       setData (setRenderTextures (fun l => <[k := tex]> l)) ;;;
       call (GlBindTexture (GLv GL_TEXTURE_2D_MULTISAMPLE) tex) ;;;
       fmt <- lift (glxColorFormat f) ;;
       call (GlTexImage2DMultisample (GLv GL_TEXTURE_2D_MULTISAMPLE)
               (to_GLsizei (samples i)) (GLv fmt)
               (to_GLsizei (fst sz)) (to_GLsizei (snd sz)) (GLv GL_FALSE)) ;;;
       label GL_TEXTURE tex (NAME (nm ++ " buffer " ++ to_string (N.of_nat k))) ;;;
       let attachment := (GLv GL_COLOR_ATTACHMENT0 + Z.of_nat k) mod u32_max in
       call (GlFramebufferTexture (GLv GL_FRAMEBUFFER) attachment tex 0) ;;;
       allocateColors nm i sz (S k) rest (<[k := attachment]> bufs))%m
  end.

(** From [glGenFramebuffers] to the completeness check. *)
Definition allocate (nm : string) (i : Info) (sz : Vec2) : M St unit :=
  (fb <- gen GlGenFramebuffers ;;
   setData (setIndex fb) ;;;
   call (GlBindFramebuffer (GLv GL_FRAMEBUFFER) fb) ;;;
   label GL_FRAMEBUFFER fb nm ;;;
   when (negb (bool_decide (depthFormat i = DepthNONE)))
        (allocateDepth nm i sz) ;;;
   let n := length (colorFormats i) in
   setData (setRenderTextures (resize n)) ;;;
   bufs <- allocateColors nm i sz 0 (colorFormats i) (replicate n 0) ;;
   call (GlDrawBuffers (to_GLsizei (Z.of_nat (length bufs))) bufs) ;;;
   s <- get ;;
   call (GlCheckFramebufferStatus (GLv GL_FRAMEBUFFER)) ;;;
   if negb (checkStatus (snd s) =? GLv GL_FRAMEBUFFER_COMPLETE)
   then fatal "Couldn't create framebuffer"
   else ret tt)%m.

(** The size [onResize] computes from the backbuffer size. *)
Definition computeSize (i : Info) (siz : Vec2) : Result Vec2 :=
  rbind (scaled (fst siz) (viewportScale i)) (fun w =>
  rbind (scaled (snd siz) (viewportScale i)) (fun h => Ok (w, h))).

(** The part of [onResize] after [info.size = size]: [nm] is the surface's
    name, [i] its description with the new size [sz]. *)
Definition reallocate (nm : string) (i : Info) (sz : Vec2) : M St unit :=
  (release (keepDepth i) ;;;
   if fst sz =? 0
   then setData (fun d => setIndex 0 (setDepth 0 d))
   else allocate nm i sz)%m.

(** [Framebuffer::onResize(siz)]: the surface afterwards and the calls made. *)
Definition onResize (f : Framebuffer) (siz : Vec2)
  : Result (Framebuffer * list GLCall) :=
  rbind (computeSize (info f) siz) (fun sz =>
    if vec2_eqb (size (info f)) sz || negb (isDynamic (info f)) then Ok (f, [])
    else
      let i := setSize (info f) sz in
      rbind (reallocate (name f) i sz (data f, []))
            (fun r => Ok ({| name := name f; info := i; data := fst (snd r) |},
                          snd (snd r)))).

(** *** Facts about the arithmetic *)

Lemma binary_round_aux_sign (sx : bool) (mx ex : Z) (lx : SpecFloat.location) :
  match binary_round_aux prec emax sx mx ex lx with
  | S754_finite s _ _ => s = sx
  | _ => True
  end.
Proof.
  unfold binary_round_aux.
  destruct (shr_fexp prec emax mx ex lx) as [mrs e].
  destruct (shr_fexp prec emax _ e SpecFloat.loc_Exact) as [mrs' e'].
  destruct (shr_m mrs'); [exact I | | exact I].
  destruct (e' <=? emax - prec); [reflexivity | exact I].
Qed.

Lemma u32_to_f64_not_negative (n : Z) : negative (u32_to_f64 n) = false.
Proof.
  unfold negative, u32_to_f64. rewrite of_uint63_spec.
  pose proof (Uint63.to_Z_bounded (Uint63.of_Z n)) as [Hlo _].
  unfold binary_normalize.
  destruct (Uint63.to_Z (Uint63.of_Z n)) as [|m|m]; [reflexivity | | lia].
  unfold binary_round. destruct (shl_align _ _ _) as [mz ez].
  pose proof (binary_round_aux_sign false (Z.pos mz) ez SpecFloat.loc_Exact) as Hs.
  destruct (binary_round_aux prec emax false (Z.pos mz) ez SpecFloat.loc_Exact)
    as [| | |s m' e']; try reflexivity.
  rewrite Hs. reflexivity.
Qed.

(** The product of two numbers that are not negative is not negative. *)
Lemma mul_not_negative (x y : float) :
  negative x = false -> negative y = false ->
  negative (PrimFloat.mul x y) = false.
Proof.
  unfold negative. rewrite mul_spec. unfold SF64mul, SFmul.
  destruct (Prim2SF x) as [sx|sx| |sx mx ex], (Prim2SF y) as [sy|sy| |sy my ey];
    try reflexivity.
  intros Hx Hy.
  assert (sx = false) as -> by (destruct sx; [discriminate | reflexivity]).
  assert (sy = false) as -> by (destruct sy; [discriminate | reflexivity]).
  simpl xorb.
  pose proof (binary_round_aux_sign false (Z.pos (mx * my)) (ex + ey)
                SpecFloat.loc_Exact) as Hs.
  destruct (binary_round_aux prec emax false (Z.pos (mx * my)) (ex + ey)
              SpecFloat.loc_Exact) as [| | |s m' e']; try reflexivity.
  rewrite Hs. reflexivity.
Qed.

(** Truncation and floor agree on what is not negative. *)
Lemma truncate_floor (x : float) :
  negative x = false -> truncate x = floor x.
Proof.
  unfold negative, truncate, floor.
  destruct (Prim2SF x) as [s|s| |s m e]; try reflexivity.
  destruct s; [discriminate | reflexivity].
Qed.

Lemma scaled_floor (n w : Z) (scale : float) :
  negative scale = false -> scaled n scale = Ok w ->
  floor (PrimFloat.mul (u32_to_f64 n) scale) = Some w /\ 0 <= w < u32_max.
Proof.
  intros Hs. unfold scaled, f64_to_u32.
  rewrite (truncate_floor _ (mul_not_negative _ _
                               (u32_to_f64_not_negative n) Hs)).
  destruct (floor _) as [t|]; [|discriminate].
  destruct ((0 <=? t) && (t <? u32_max)) eqn:Hr; [|discriminate].
  intros [= ->]. apply andb_true_iff in Hr. destruct Hr as [H0 H1].
  apply Z.leb_le in H0. apply Z.ltb_lt in H1. split; [reflexivity | lia].
Qed.

(** *** The size after a resize *)

Lemma computeSize_components (i : Info) (siz sz : Vec2) :
  computeSize i siz = Ok sz <->
  scaled (fst siz) (viewportScale i) = Ok (fst sz) /\
  scaled (snd siz) (viewportScale i) = Ok (snd sz).
Proof.
  unfold computeSize, rbind. destruct sz as [w h]. simpl.
  destruct (scaled (fst siz) (viewportScale i)) as [w'| |];
    [|split; [discriminate | intros [[=] _]] ..].
  destruct (scaled (snd siz) (viewportScale i)) as [h'| |];
    [|split; [discriminate | intros [_ [=]]] ..].
  split; [intros [= -> ->]; auto | intros [[= ->] [= ->]]; reflexivity].
Qed.

Lemma onResize_dynamic_computed (f f' : Framebuffer) (siz : Vec2)
    (calls : list GLCall) :
  isDynamic (info f) = true -> onResize f siz = Ok (f', calls) ->
  computeSize (info f) siz = Ok (size (info f')).
Proof.
  intros Hdyn. unfold onResize.
  destruct (computeSize (info f) siz) as [sz| |]; simpl; try discriminate.
  rewrite Hdyn, orb_false_r.
  destruct (vec2_eqb (size (info f)) sz) eqn:Heq.
  - intros [= <- _]. apply vec2_eqb_eq in Heq. congruence.
  - unfold rbind.
    destruct (reallocate _ _ _ _) as [[u [d t]]| |]; try discriminate.
    intros [= <- _]. reflexivity.
Qed.

Lemma scaled_truncate (n v : Z) (scale : float) :
  scaled n scale = Ok v <->
  truncate (PrimFloat.mul (u32_to_f64 n) scale) = Some v /\ 0 <= v < u32_max.
Proof.
  unfold scaled, f64_to_u32.
  destruct (truncate _) as [t|]; [|split; [discriminate | intros [[=] _]]].
  destruct ((0 <=? t) && (t <? u32_max)) eqn:Hr.
  - apply andb_true_iff in Hr. destruct Hr as [H0 H1].
    apply Z.leb_le in H0. apply Z.ltb_lt in H1.
    split; [intros [= ->]; split; [reflexivity | lia]
           | intros [[= ->] _]; reflexivity].
  - split; [discriminate|]. intros [[= ->] Hv].
    apply andb_false_iff in Hr. destruct Hr as [Hr | Hr];
      [apply Z.leb_gt in Hr | apply Z.ltb_ge in Hr]; lia.
Qed.

Lemma computeSize_not_fatal (i : Info) (siz : Vec2) (msg : string) :
  computeSize i siz <> Fatal msg.
Proof.
  unfold computeSize, rbind, scaled, f64_to_u32.
  repeat (destruct (truncate _); try discriminate;
          destruct (_ && _); try discriminate).
Qed.

Lemma onResize_unchanged (f : Framebuffer) (siz sz : Vec2) :
  computeSize (info f) siz = Ok sz ->
  isDynamic (info f) = false \/ sz = size (info f) ->
  onResize f siz = Ok (f, []).
Proof.
  intros Hsz Hcase. unfold onResize. rewrite Hsz. simpl.
  destruct Hcase as [-> | ->].
  - rewrite orb_true_r. reflexivity.
  - rewrite vec2_eqb_refl. reflexivity.
Qed.

(** C7. [onResize] leaves the surface as it is (its size and its handles)
    and makes no call when the size it computes is the surface's current
    size, and when the surface is static: then for every backbuffer size,
    the only other outcome being that the conversion of the scaled extent
    to [u32] is undefined. *)
Theorem onResize_noop (f : Framebuffer) (siz : Vec2) :
  (forall sz, computeSize (info f) siz = Ok sz ->
              isDynamic (info f) = false \/ sz = size (info f) ->
              onResize f siz = Ok (f, [])) /\
  (isDynamic (info f) = false ->
   onResize f siz = Ok (f, []) \/
   (computeSize (info f) siz = Undefined /\ onResize f siz = Undefined)).
Proof.
  split; [intros sz; apply onResize_unchanged|].
  intros Hst. destruct (computeSize (info f) siz) as [sz|msg|] eqn:Hsz.
  - left. apply (onResize_unchanged f siz sz Hsz). left; exact Hst.
  - exfalso. exact (computeSize_not_fatal _ _ _ Hsz).
  - right. unfold onResize. rewrite Hsz. auto.
Qed.

(** *** Release and reallocation *)

(** The calls that delete the handles [d] holds. *)
Definition releaseCalls (keep : bool) (d : Data) : list GLCall :=
  (if index d =? 0 then [] else [GlDeleteFramebuffers (index d)]) ++
  (if depth d =? 0 then []
   else [if keep then GlDeleteTextures (depth d)
         else GlDeleteRenderbuffers (depth d)]) ++
  flat_map (fun t => if t =? 0 then [] else [GlDeleteTextures t])
           (renderTextures d).

Definition isDelete (c : GLCall) : bool :=
  match c with
  | GlDeleteFramebuffers _ | GlDeleteTextures _ | GlDeleteRenderbuffers _ => true
  | _ => false
  end.

(** Every format of the description has a native counterpart. *)
Definition formatsTranslate (i : Info) : Prop :=
  (depthFormat i = DepthNONE \/ isOk (glxDepthFormat (depthFormat i)) = true) /\
  Forall (fun f => isOk (glxColorFormat f) = true) (colorFormats i).

(** The surface without attachments: no framebuffer and no depth handle. *)
Definition suspended (f : Framebuffer) (sz : Vec2) : Framebuffer :=
  {| name := name f; info := setSize (info f) sz;
     data := {| index := 0; depth := 0;
                renderTextures := renderTextures (data f) |} |}.

(** Among the calls [cs]: the texture [x] is generated and attached as the
    colour attachment [j]. *)
Definition colorAttached (cs : list GLCall) (j : nat) (x : GLuint) : Prop :=
  GlGenTextures x ∈ cs /\
  GlFramebufferTexture (GLv GL_FRAMEBUFFER)
    ((GLv GL_COLOR_ATTACHMENT0 + Z.of_nat j) mod u32_max) x 0 ∈ cs.

(** Among the calls [cs]: [x] is generated and attached as the depth
    attachment, a texture if the depth is kept and a renderbuffer if not. *)
Definition depthAttached (i : Info) (cs : list GLCall) (x : GLuint) : Prop :=
  if keepDepth i then
    GlGenTextures x ∈ cs /\
    GlFramebufferTexture (GLv GL_FRAMEBUFFER) (GLv GL_DEPTH_ATTACHMENT) x 0 ∈ cs
  else
    GlGenRenderbuffers x ∈ cs /\
    GlFramebufferRenderbuffer (GLv GL_FRAMEBUFFER)
      (GLv (if hasStencil (depthFormat i)
            then GL_DEPTH_STENCIL_ATTACHMENT else GL_DEPTH_ATTACHMENT))
      (GLv GL_RENDERBUFFER) x ∈ cs.

Lemma releaseTextures_run (l : list GLuint) (d : Data) (t : list GLCall) :
  forEach l (fun x => when (negb (x =? 0)) (call (GlDeleteTextures x))) (d, t)
  = Ok (tt, (d, t ++ flat_map (fun x => if x =? 0 then []
                                        else [GlDeleteTextures x]) l)).
Proof.
  revert t. induction l as [|x l IH]; intros t; simpl.
  - unfold ret. rewrite app_nil_r. reflexivity.
  - unfold bind at 1. destruct (x =? 0); simpl.
    + unfold ret. apply IH.
    + unfold call, modify. simpl. rewrite IH, <- app_assoc. reflexivity.
Qed.

Lemma release_run (keep : bool) (d : Data) (t : list GLCall) :
  release keep (d, t) = Ok (tt, (d, t ++ releaseCalls keep d)).
Proof.
  unfold release, releaseCalls, bind, getData. simpl.
  destruct (index d =? 0), (depth d =? 0); simpl;
    unfold ret, call, modify; simpl;
    rewrite releaseTextures_run, <- ?app_assoc; reflexivity.
Qed.

Lemma releaseCalls_deletes (keep : bool) (d : Data) :
  Forall (fun c => isDelete c = true) (releaseCalls keep d).
Proof.
  unfold releaseCalls. rewrite !Forall_app. repeat split.
  - destruct (index d =? 0); repeat constructor.
  - destruct (depth d =? 0); [constructor|]. destruct keep; repeat constructor.
  - induction (renderTextures d) as [|x l IH]; simpl; [constructor|].
    rewrite Forall_app. split; [|exact IH].
    destruct (x =? 0); repeat constructor.
Qed.

(** Every handle the surface holds is deleted, as the kind of object it is. *)
Lemma releaseCalls_complete (keep : bool) (d : Data) :
  (index d <> 0 -> GlDeleteFramebuffers (index d) ∈ releaseCalls keep d) /\
  (depth d <> 0 ->
   (if keep then GlDeleteTextures (depth d)
    else GlDeleteRenderbuffers (depth d)) ∈ releaseCalls keep d) /\
  (forall x, x ∈ renderTextures d -> x <> 0 ->
             GlDeleteTextures x ∈ releaseCalls keep d).
Proof.
  unfold releaseCalls. repeat split.
  - intros Hne. apply Z.eqb_neq in Hne. rewrite Hne.
    apply elem_of_app. left. apply list_elem_of_singleton. reflexivity.
  - intros Hne. apply Z.eqb_neq in Hne. rewrite Hne.
    apply elem_of_app. right. apply elem_of_app. left.
    apply list_elem_of_singleton. reflexivity.
  - intros x Hin Hne. apply elem_of_app. right. apply elem_of_app. right.
    apply list_elem_of_In, in_flat_map. exists x.
    split; [apply list_elem_of_In; exact Hin|].
    apply Z.eqb_neq in Hne. rewrite Hne. left. reflexivity.
Qed.

Ltac in_list :=
  solve [ assumption
        | apply list_elem_of_here
        | apply list_elem_of_further; in_list
        | apply elem_of_app; left; in_list
        | apply elem_of_app; right; in_list ].

Ltac run_monad :=
  unfold bind, gen, setData, call, label, modify, lift, ret, get, when, fatal;
  cbn.

Lemma allocateColors_run (nm : string) (i : Info) (sz : Vec2)
    (fmts : list GPUFormat) :
  Forall (fun f => isOk (glxColorFormat f) = true) fmts ->
  forall (k : nat) (bufs : list GLenum) (d : Data) (t : list GLCall),
  exists d' ext bufs',
    allocateColors nm i sz k fmts bufs (d, t) = Ok (bufs', (d', t ++ ext)) /\
    index d' = index d /\ depth d' = depth d /\
    length (renderTextures d') = length (renderTextures d) /\
    length bufs' = length bufs /\
    (forall j x, (k <= j < k + length fmts)%nat ->
                 renderTextures d' !! j = Some x -> colorAttached ext j x) /\
    (forall j, (j < k)%nat -> renderTextures d' !! j = renderTextures d !! j).
Proof.
  induction 1 as [|f rest Hf Hrest IH]; intros k bufs d t.
  - exists d, [], bufs. simpl. unfold ret. rewrite app_nil_r.
    do 5 (split; [reflexivity|]). split; [intros j x Hj; lia | reflexivity].
  - destruct (glxColorFormat f) as [fmt| |] eqn:Hfmt; try discriminate.
    cbn [allocateColors]. run_monad. rewrite Hfmt. cbn.
    rewrite <- !app_assoc. cbn [app].
    match goal with
    | |- context [allocateColors nm i sz (S k) rest ?b (?d1, t ++ ?pre)] =>
        destruct (IH (S k) b d1 (t ++ pre))
          as (d' & ext & bufs' & Hrun & Hi & Hd & Hlen & Hbl & Hgen & Hlow);
        exists d', (pre ++ ext), bufs'
    end.
    rewrite Hrun, <- app_assoc. split; [reflexivity|].
    cbn in Hi, Hd, Hlen, Hlow. rewrite length_insert in Hlen, Hbl.
    do 4 (split; [assumption|]). split.
    + intros j x Hj Hx. destruct (decide (j = k)) as [->|Hne].
      * rewrite Hlow in Hx by lia.
        apply list_lookup_insert_Some in Hx.
        destruct Hx as [(_ & <- & _) | (Hkk & _)]; [|congruence].
        split; apply elem_of_app; left; in_list.
      * destruct (Hgen j x) as [Hg Ha]; [lia | exact Hx |].
        split; apply elem_of_app; right; assumption.
    + intros j Hj. rewrite Hlow by lia. apply list_lookup_insert_ne. lia.
Qed.

Lemma allocateColors_fatal (nm : string) (i : Info) (sz : Vec2)
    (fmts : list GPUFormat) :
  Exists (fun f => isOk (glxColorFormat f) = false) fmts ->
  forall (k : nat) (bufs : list GLenum) (d : Data) (t : list GLCall),
  exists msg, allocateColors nm i sz k fmts bufs (d, t) = Fatal msg.
Proof.
  induction fmts as [|f rest IH]; intros Hex k bufs d t;
    [inversion Hex|].
  cbn [allocateColors]. run_monad.
  destruct (glxColorFormat f) as [fmt| msg |] eqn:Hfmt; cbn.
  - apply IH. inversion Hex as [? ? Hbad | ? ? Hlater]; subst;
      [rewrite Hfmt in Hbad; discriminate | exact Hlater].
  - exists msg. reflexivity.
  - destruct f; discriminate.
Qed.

Lemma allocateDepth_run (nm : string) (i : Info) (sz : Vec2) (d : Data)
    (t : list GLCall) :
  isOk (glxDepthFormat (depthFormat i)) = true ->
  exists ext,
    allocateDepth nm i sz (d, t) = Ok (tt, (setDepth (genName t) d, t ++ ext)) /\
    depthAttached i ext (genName t).
Proof.
  intros Hok. unfold allocateDepth, depthAttached.
  destruct (glxDepthFormat (depthFormat i)) as [fmt| |] eqn:Hfmt;
    try discriminate.
  destruct (keepDepth i); run_monad; rewrite <- !app_assoc; cbn [app];
    (eexists; split; [reflexivity | split; in_list]).
Qed.

Lemma allocateDepth_fatal (nm : string) (i : Info) (sz : Vec2) (d : Data)
    (t : list GLCall) :
  isOk (glxDepthFormat (depthFormat i)) = false ->
  exists msg, allocateDepth nm i sz (d, t) = Fatal msg.
Proof.
  intros Hbad. unfold allocateDepth.
  destruct (glxDepthFormat (depthFormat i)) as [fmt| msg |] eqn:Hfmt;
    [discriminate | | destruct (depthFormat i); discriminate].
  exists msg. destruct (keepDepth i); run_monad; reflexivity.
Qed.

Lemma length_resize (n : nat) (l : list GLuint) : length (resize n l) = n.
Proof.
  unfold resize. rewrite length_app, length_take, length_replicate. lia.
Qed.

Lemma allocate_run (nm : string) (i : Info) (sz : Vec2) (d : Data)
    (t : list GLCall) :
  formatsTranslate i ->
  exists d' allocs,
    allocate nm i sz (d, t)
    = (if checkStatus (t ++ allocs) =? GLv GL_FRAMEBUFFER_COMPLETE
       then Ok (tt, (d', t ++ allocs ++
                         [GlCheckFramebufferStatus (GLv GL_FRAMEBUFFER)]))
       else Fatal "Couldn't create framebuffer") /\
    GlGenFramebuffers (index d') ∈ allocs /\
    (depthFormat i <> DepthNONE -> depthAttached i allocs (depth d')) /\
    length (renderTextures d') = length (colorFormats i) /\
    (forall j x, renderTextures d' !! j = Some x -> colorAttached allocs j x).
Proof.
  intros [Hdepth Hcol]. unfold allocate. run_monad.
  destruct (bool_decide_reflect (depthFormat i = DepthNONE)) as [Hnone|Hsome]; cbn.
  - match goal with
    | |- context [allocateColors nm i sz 0 ?fm ?b (?d1, ?t1)] =>
        destruct (allocateColors_run nm i sz fm Hcol 0%nat b d1 t1)
          as (d' & ext & bufs' & Hrun & Hi & Hd & Hlen & Hbl & Hgen & Hlow)
    end.
    rewrite Hrun. cbn. rewrite <- !app_assoc.
    match goal with |- context [checkStatus (t ++ ?al)] => exists d', al end.
    rewrite <- !app_assoc. cbn in Hi, Hlen. rewrite length_resize in Hlen.
    split; [destruct (checkStatus _ =? _); reflexivity|].
    split; [rewrite Hi; apply list_elem_of_here|].
    split; [intros Hne; contradiction|]. split; [exact Hlen|].
    intros j x Hx. pose proof (lookup_lt_Some _ _ _ Hx) as Hj.
    destruct (Hgen j x) as [Hg Ha]; [lia | exact Hx |].
    split; in_list.
  - destruct Hdepth as [Hnone | Hok]; [contradiction|].
    match goal with
    | |- context [allocateDepth nm i sz (?d1, ?t1)] =>
        destruct (allocateDepth_run nm i sz d1 t1 Hok) as (dext & Hdrun & Hdgen)
    end.
    rewrite Hdrun. cbn.
    match goal with
    | |- context [allocateColors nm i sz 0 ?fm ?b (?d1, ?t1)] =>
        destruct (allocateColors_run nm i sz fm Hcol 0%nat b d1 t1)
          as (d' & ext & bufs' & Hrun & Hi & Hd & Hlen & Hbl & Hgen & Hlow)
    end.
    rewrite Hrun. cbn. rewrite <- !app_assoc.
    match goal with |- context [checkStatus (t ++ ?al)] => exists d', al end.
    rewrite <- !app_assoc. cbn in Hi, Hd, Hlen. rewrite length_resize in Hlen.
    split; [destruct (checkStatus _ =? _); reflexivity|].
    split; [rewrite Hi; apply list_elem_of_here|].
    split.
    { intros _. rewrite Hd. cbn. revert Hdgen. unfold depthAttached.
      destruct (keepDepth i); intros [Hg Ha]; split; in_list. }
    split; [exact Hlen|].
    intros j x Hx. pose proof (lookup_lt_Some _ _ _ Hx) as Hj.
    destruct (Hgen j x) as [Hg Ha]; [lia | exact Hx |].
    split; in_list.
Qed.

Lemma formatsTranslate_dec (i : Info) :
  formatsTranslate i \/
  (depthFormat i <> DepthNONE /\ isOk (glxDepthFormat (depthFormat i)) = false) \/
  ((depthFormat i = DepthNONE \/ isOk (glxDepthFormat (depthFormat i)) = true) /\
   Exists (fun f => isOk (glxColorFormat f) = false) (colorFormats i)).
Proof.
  unfold formatsTranslate.
  assert (Hcol : Forall (fun f => isOk (glxColorFormat f) = true) (colorFormats i)
                 \/ Exists (fun f => isOk (glxColorFormat f) = false) (colorFormats i)).
  { induction (colorFormats i) as [|f l IH]; [left; constructor|].
    destruct (isOk (glxColorFormat f)) eqn:Hf.
    - destruct IH as [IH | IH]; [left; constructor; assumption|].
      right. apply Exists_cons_tl. exact IH.
    - right. apply Exists_cons_hd. exact Hf. }
  destruct (decide (depthFormat i = DepthNONE)) as [Hnone | Hsome].
  - destruct Hcol as [Hcol | Hcol]; [left; auto | right; right; auto].
  - destruct (isOk (glxDepthFormat (depthFormat i))) eqn:Hd.
    + destruct Hcol as [Hcol | Hcol]; [left; auto | right; right; auto].
    + right. left. auto.
Qed.

Lemma allocate_fatal (nm : string) (i : Info) (sz : Vec2) (d : Data)
    (t : list GLCall) :
  ~ formatsTranslate i -> exists msg, allocate nm i sz (d, t) = Fatal msg.
Proof.
  intros Hno.
  destruct (formatsTranslate_dec i) as [Hyes | [[Hsome Hbad] | [Hdepth Hbad]]];
    [contradiction | |]; unfold allocate; run_monad.
  - destruct (bool_decide_reflect (depthFormat i = DepthNONE)); [contradiction|].
    cbn.
    match goal with
    | |- context [allocateDepth nm i sz (?d1, ?t1)] =>
        destruct (allocateDepth_fatal nm i sz d1 t1 Hbad) as (msg & Hmsg)
    end.
    rewrite Hmsg. exists msg. reflexivity.
  - destruct (bool_decide_reflect (depthFormat i = DepthNONE)) as [Hnone|Hsome]; cbn.
    + match goal with
      | |- context [allocateColors nm i sz 0 ?fm ?b (?d1, ?t1)] =>
          destruct (allocateColors_fatal nm i sz fm Hbad 0%nat b d1 t1)
            as (msg & Hmsg)
      end.
      rewrite Hmsg. exists msg. reflexivity.
    + destruct Hdepth as [Hnone | Hok]; [contradiction|].
      match goal with
      | |- context [allocateDepth nm i sz (?d1, ?t1)] =>
          destruct (allocateDepth_run nm i sz d1 t1 Hok) as (dext & Hdrun & _)
      end.
      rewrite Hdrun. cbn.
      match goal with
      | |- context [allocateColors nm i sz 0 ?fm ?b (?d1, ?t1)] =>
          destruct (allocateColors_fatal nm i sz fm Hbad 0%nat b d1 t1)
            as (msg & Hmsg)
      end.
      rewrite Hmsg. exists msg. reflexivity.
Qed.

(** *** The size a dynamic surface reports *)

Lemma onResize_changed (f : Framebuffer) (siz sz : Vec2) :
  isDynamic (info f) = true -> computeSize (info f) siz = Ok sz ->
  sz <> size (info f) ->
  onResize f siz
  = rbind (reallocate (name f) (setSize (info f) sz) sz (data f, []))
      (fun r => Ok ({| name := name f; info := setSize (info f) sz;
                       data := fst (snd r) |}, snd (snd r))).
Proof.
  intros Hdyn Hsz Hne.
  assert (Hneq : vec2_eqb (size (info f)) sz = false).
  { apply vec2_eqb_neq. congruence. }
  unfold onResize. rewrite Hsz. simpl. rewrite Hneq, Hdyn. reflexivity.
Qed.

Lemma reallocate_run (nm : string) (i : Info) (sz : Vec2) (d : Data) :
  reallocate nm i sz (d, [])
  = if fst sz =? 0
    then Ok (tt, (setIndex 0 (setDepth 0 d), releaseCalls (keepDepth i) d))
    else allocate nm i sz (d, releaseCalls (keepDepth i) d).
Proof.
  unfold reallocate, bind. rewrite release_run. cbn [app].
  destruct (fst sz =? 0); reflexivity.
Qed.

(** With formats that translate and a driver that reports completeness, the
    resize of a dynamic surface returns, and the surface has the computed
    size. *)
Lemma onResize_returns (f : Framebuffer) (siz sz : Vec2) :
  isDynamic (info f) = true -> computeSize (info f) siz = Ok sz ->
  formatsTranslate (info f) ->
  (forall t, checkStatus t = GLv GL_FRAMEBUFFER_COMPLETE) ->
  exists f' calls, onResize f siz = Ok (f', calls) /\ size (info f') = sz.
Proof.
  intros Hdyn Hsz Htr Hcomplete.
  destruct (decide (sz = size (info f))) as [Heq | Hne].
  - exists f, []. split; [|congruence].
    apply (onResize_unchanged f siz sz Hsz). right. exact Heq.
  - rewrite (onResize_changed f siz sz Hdyn Hsz Hne), reallocate_run.
    destruct (fst sz =? 0).
    + eexists _, _. split; reflexivity.
    + destruct (allocate_run (name f) (setSize (info f) sz) sz (data f)
                  (releaseCalls (keepDepth (setSize (info f) sz)) (data f)) Htr)
        as (d' & allocs & Hrun & _).
      rewrite Hrun, Hcomplete, Z.eqb_refl.
      eexists _, _. split; reflexivity.
Qed.

(** C6, as the code has it.  For a dynamic surface: when [onResize] returns,
    each component of the surface's size is the double-precision product of
    the backbuffer extent and [viewportScale], truncated toward zero, which
    is the floor of the product whenever [viewportScale] is not negative;
    and [onResize] does return, with these components, when both truncated
    products are values of [u32], the formats translate and the driver
    reports the framebuffer complete. *)
Theorem onResize_dynamic_size (f : Framebuffer) (siz : Vec2) :
  isDynamic (info f) = true ->
  let scale := viewportScale (info f) in
  let w := PrimFloat.mul (u32_to_f64 (fst siz)) scale in
  let h := PrimFloat.mul (u32_to_f64 (snd siz)) scale in
  (forall f' calls, onResize f siz = Ok (f', calls) ->
     truncate w = Some (fst (size (info f'))) /\
     truncate h = Some (snd (size (info f'))) /\
     (negative scale = false ->
      floor w = Some (fst (size (info f'))) /\
      floor h = Some (snd (size (info f'))))) /\
  (forall a b, truncate w = Some a -> truncate h = Some b ->
     0 <= a < u32_max -> 0 <= b < u32_max ->
     formatsTranslate (info f) ->
     (forall t, checkStatus t = GLv GL_FRAMEBUFFER_COMPLETE) ->
     exists f' calls,
       onResize f siz = Ok (f', calls) /\ size (info f') = (a, b)).
Proof.
  intros Hdyn scale w h. split.
  - intros f' calls Hres.
    pose proof (onResize_dynamic_computed f f' siz calls Hdyn Hres) as Hsz.
    apply computeSize_components in Hsz. destruct Hsz as [Hw Hh].
    split; [exact (proj1 (proj1 (scaled_truncate _ _ _) Hw))|].
    split; [exact (proj1 (proj1 (scaled_truncate _ _ _) Hh))|].
    intros Hneg. split.
    + exact (proj1 (scaled_floor _ _ _ Hneg Hw)).
    + exact (proj1 (scaled_floor _ _ _ Hneg Hh)).
  - intros a b Ha Hb Hra Hrb Htr Hcomplete.
    apply (onResize_returns f siz (a, b) Hdyn); [|exact Htr | exact Hcomplete].
    apply computeSize_components. simpl.
    split; apply scaled_truncate; auto.
Qed.

(** C8, as the code has it.  When [onResize] of a dynamic surface computes
    a size that differs from the current one, the calls it makes start with
    the deletion of every handle the surface holds, each as the kind of
    object it is.  If the new width is zero (as it is for the size (0, 0))
    nothing else is called, and the surface is left with no framebuffer and
    no depth handle.  If neither component of the new size is zero and the
    formats translate, a framebuffer, a depth attachment when a depth format
    is declared (a texture if the depth is kept, a renderbuffer otherwise)
    and one texture per colour format are generated and attached to the
    framebuffer, the completeness check is the last call, and the resize
    ends fatally when the status is not complete; a format without a native
    counterpart is fatal too. *)
Theorem onResize_reallocates (f : Framebuffer) (siz sz : Vec2) :
  isDynamic (info f) = true ->
  computeSize (info f) siz = Ok sz ->
  sz <> size (info f) ->
  let keep := keepDepth (info f) in
  let rel := releaseCalls keep (data f) in
  let check := GlCheckFramebufferStatus (GLv GL_FRAMEBUFFER) in
  (Forall (fun c => isDelete c = true) rel /\
   (index (data f) <> 0 -> GlDeleteFramebuffers (index (data f)) ∈ rel) /\
   (depth (data f) <> 0 ->
    (if keep then GlDeleteTextures (depth (data f))
     else GlDeleteRenderbuffers (depth (data f))) ∈ rel) /\
   (forall x, x ∈ renderTextures (data f) -> x <> 0 ->
              GlDeleteTextures x ∈ rel)) /\
  (fst sz = 0 -> onResize f siz = Ok (suspended f sz, rel)) /\
  (fst sz <> 0 -> snd sz <> 0 ->
   (formatsTranslate (info f) ->
    exists d' allocs,
      onResize f siz
      = (if checkStatus (rel ++ allocs) =? GLv GL_FRAMEBUFFER_COMPLETE
         then Ok ({| name := name f; info := setSize (info f) sz;
                     data := d' |},
                  rel ++ allocs ++ [check])
         else Fatal "Couldn't create framebuffer") /\
      GlGenFramebuffers (index d') ∈ allocs /\
      (depthFormat (info f) <> DepthNONE ->
       depthAttached (info f) allocs (depth d')) /\
      length (renderTextures d') = length (colorFormats (info f)) /\
      (forall j x, renderTextures d' !! j = Some x ->
                   colorAttached allocs j x)) /\
   (~ formatsTranslate (info f) -> exists msg, onResize f siz = Fatal msg)).
Proof.
  intros Hdyn Hsz Hne keep rel check.
  pose proof (onResize_changed f siz sz Hdyn Hsz Hne) as Hstep.
  rewrite reallocate_run in Hstep.
  change (keepDepth (setSize (info f) sz)) with keep in Hstep.
  fold rel in Hstep.
  split; [|split].
  - split; [apply releaseCalls_deletes | apply releaseCalls_complete].
  - intros Hzero. rewrite Hstep, Hzero. reflexivity.
  - intros Hw _. apply Z.eqb_neq in Hw. rewrite Hw in Hstep. split.
    + intros Htr.
      destruct (allocate_run (name f) (setSize (info f) sz) sz (data f) rel Htr)
        as (d' & allocs & Hrun & Hfb & Hdp & Hlen & Hall).
      exists d', allocs. split; [|auto].
      rewrite Hstep, Hrun.
      destruct (checkStatus (rel ++ allocs) =? GLv GL_FRAMEBUFFER_COMPLETE);
        reflexivity.
    + intros Hno.
      destruct (allocate_fatal (name f) (setSize (info f) sz) sz (data f) rel Hno)
        as (msg & Hmsg).
      exists msg. rewrite Hstep, Hmsg. reflexivity.
Qed.

(** *** Repeated resizes, the destructor and the draw buffers *)

(** [x] is a number: a zero or a finite value. *)
Definition finite (x : float) : bool :=
  match Prim2SF x with
  | S754_zero _ | S754_finite _ _ _ => true
  | S754_infinity _ | S754_nan => false
  end.

(** [Framebuffer::~Framebuffer]: [onResize(Vec2u())], then the data block is
    destroyed; what remains to be seen are the calls. *)
Definition destructor (f : Framebuffer) : Result (list GLCall) :=
  rbind (onResize f (0, 0)) (fun r => Ok (snd r)).

(** The attachment point of the colour attachment [j]. *)
Definition colorAttachment (j : nat) : GLenum :=
  (GLv GL_COLOR_ATTACHMENT0 + Z.of_nat j) mod u32_max.

Lemma scaled_zero (scale : float) :
  finite scale = true -> scaled 0 scale = Ok 0.
Proof.
  unfold finite, scaled, f64_to_u32, truncate. rewrite mul_spec.
  replace (Prim2SF (u32_to_f64 0)) with (S754_zero false)
    by (vm_compute; reflexivity).
  destruct (Prim2SF scale) as [s|s| |s m e]; try discriminate; reflexivity.
Qed.

Lemma computeSize_zero (i : Info) :
  finite (viewportScale i) = true -> computeSize i (0, 0) = Ok (0, 0).
Proof.
  intros Hfin. unfold computeSize. simpl. rewrite (scaled_zero _ Hfin).
  reflexivity.
Qed.

(** What a returning [onResize] leaves of the description. *)
Lemma onResize_inv (f f' : Framebuffer) (siz : Vec2) (calls : list GLCall) :
  onResize f siz = Ok (f', calls) ->
  exists sz,
    computeSize (info f) siz = Ok sz /\
    viewportScale (info f') = viewportScale (info f) /\
    isDynamic (info f') = isDynamic (info f) /\
    keepDepth (info f') = keepDepth (info f) /\
    colorFormats (info f') = colorFormats (info f) /\
    (isDynamic (info f) = true -> size (info f') = sz).
Proof.
  unfold onResize.
  destruct (computeSize (info f) siz) as [sz| |] eqn:Hsz; simpl; try discriminate.
  destruct (vec2_eqb (size (info f)) sz) eqn:Heq; simpl.
  - intros [= <- _]. exists sz. apply vec2_eqb_eq in Heq. auto 10.
  - destruct (isDynamic (info f)) eqn:Hdyn; simpl.
    + unfold rbind.
      destruct (reallocate _ _ _ _) as [[u [d t]]| |]; try discriminate.
      intros [= <- _]. exists sz. simpl. auto 10.
    + intros [= <- _]. exists sz. repeat split; auto. discriminate.
Qed.

(** The trace of an allocation that returns extends the trace it started
    with. *)
Lemma allocate_extends (nm : string) (i : Info) (sz : Vec2) (d d' : Data)
    (t t' : list GLCall) :
  allocate nm i sz (d, t) = Ok (tt, (d', t')) -> exists ext, t' = t ++ ext.
Proof.
  intros Hrun.
  destruct (formatsTranslate_dec i) as [Htr | Hno].
  - destruct (allocate_run nm i sz d t Htr) as (d1 & allocs & Heq & _).
    rewrite Heq in Hrun.
    destruct (checkStatus (t ++ allocs) =? GLv GL_FRAMEBUFFER_COMPLETE);
      [|discriminate].
    injection Hrun as _ <-. eexists. reflexivity.
  - assert (Hnot : ~ formatsTranslate i).
    { intros [Hd Hc]. destruct Hno as [[Hsome Hbad] | [_ Hbad]].
      - destruct Hd as [Hnone | Hok]; congruence.
      - apply Exists_exists in Hbad. destruct Hbad as (x & Hin & Hx).
        rewrite Forall_forall in Hc. rewrite (Hc x Hin) in Hx. discriminate. }
    destruct (allocate_fatal nm i sz d t Hnot) as (msg & Hmsg).
    rewrite Hmsg in Hrun. discriminate.
Qed.

(** A resize that changes the size of a dynamic surface starts with the
    release calls; a suspension makes no other call and keeps the recorded
    colour handles. *)
Lemma onResize_changed_inv (f f' : Framebuffer) (siz : Vec2)
    (calls : list GLCall) :
  isDynamic (info f) = true -> onResize f siz = Ok (f', calls) ->
  size (info f') <> size (info f) ->
  exists rest,
    calls = releaseCalls (keepDepth (info f)) (data f) ++ rest /\
    (fst (size (info f')) = 0 ->
     rest = [] /\ index (data f') = 0 /\ depth (data f') = 0 /\
     renderTextures (data f') = renderTextures (data f)).
Proof.
  intros Hdyn Hrun Hne.
  pose proof (onResize_dynamic_computed f f' siz calls Hdyn Hrun) as Hsz.
  rewrite (onResize_changed f siz _ Hdyn Hsz Hne), reallocate_run in Hrun.
  change (keepDepth (setSize (info f) (size (info f')))) with (keepDepth (info f))
    in Hrun.
  destruct (fst (size (info f')) =? 0) eqn:Hz.
  - simpl in Hrun. injection Hrun as Hf Hc. exists []. rewrite app_nil_r.
    split; [congruence|]. intros _. rewrite <- Hf. simpl. auto.
  - unfold rbind in Hrun.
    destruct (allocate _ _ _ _) as [[[] [d t]]| |] eqn:Hal; try discriminate.
    apply allocate_extends in Hal. destruct Hal as (ext & ->).
    injection Hrun as _ Hc. exists ext. split; [congruence|].
    intros H0. apply Z.eqb_neq in Hz. contradiction.
Qed.

(** X1. A resize notification that repeats the backbuffer size of the last
    one is a no-op: after a returning [onResize] the same call returns the
    surface as it is and makes no call. *)
Theorem onResize_idempotent (f f' : Framebuffer) (siz : Vec2)
    (calls : list GLCall) :
  onResize f siz = Ok (f', calls) -> onResize f' siz = Ok (f', []).
Proof.
  intros Hrun.
  destruct (onResize_inv f f' siz calls Hrun)
    as (sz & Hsz & Hscale & Hdyn & _ & _ & Hsize).
  assert (Hsz' : computeSize (info f') siz = Ok sz).
  { unfold computeSize in *. rewrite Hscale. exact Hsz. }
  apply (onResize_unchanged f' siz sz Hsz').
  destruct (isDynamic (info f)) eqn:Hd.
  - right. symmetry. apply Hsize. reflexivity.
  - left. congruence.
Qed.

(** X2. The destructor of a dynamic surface whose scale is a number and whose
    size is not (0, 0) deletes every handle the surface holds and makes no
    other call.  The destructor of a static surface, and of a surface of
    size (0, 0), makes no call at all. *)
Theorem destructor_releases (f : Framebuffer) :
  finite (viewportScale (info f)) = true ->
  (isDynamic (info f) = true -> size (info f) <> (0, 0) ->
   destructor f = Ok (releaseCalls (keepDepth (info f)) (data f))) /\
  (isDynamic (info f) = false \/ size (info f) = (0, 0) ->
   destructor f = Ok []).
Proof.
  intros Hfin. pose proof (computeSize_zero (info f) Hfin) as Hsz.
  unfold destructor. split.
  - intros Hdyn Hne.
    rewrite (onResize_changed f (0, 0) (0, 0) Hdyn Hsz) by congruence.
    rewrite reallocate_run. reflexivity.
  - intros Hcase.
    rewrite (onResize_unchanged f (0, 0) (0, 0) Hsz); [reflexivity|].
    destruct Hcase as [Hst | Heq]; [left; exact Hst | right; congruence].
Qed.

(** X3. A suspension resets the framebuffer and depth handles but keeps the
    colour handles it has deleted: the next resize that changes the size
    starts by deleting each of them a second time. *)
Theorem onResize_deletes_stale_textures (f f1 f2 : Framebuffer)
    (siz1 siz2 : Vec2) (c1 c2 : list GLCall) :
  isDynamic (info f) = true ->
  onResize f siz1 = Ok (f1, c1) -> size (info f1) <> size (info f) ->
  fst (size (info f1)) = 0 ->
  onResize f1 siz2 = Ok (f2, c2) -> size (info f2) <> size (info f1) ->
  c1 = releaseCalls (keepDepth (info f)) (data f) /\
  (exists rest,
      c2 = flat_map (fun t => if t =? 0 then [] else [GlDeleteTextures t])
                    (renderTextures (data f)) ++ rest) /\
  (forall x, x ∈ renderTextures (data f) -> x <> 0 ->
             GlDeleteTextures x ∈ c1 /\ GlDeleteTextures x ∈ c2).
Proof.
  intros Hdyn Hrun1 Hne1 Hzero Hrun2 Hne2.
  destruct (onResize_inv f f1 siz1 c1 Hrun1) as (sz & _ & _ & Hdyn1 & _).
  rewrite Hdyn in Hdyn1.
  destruct (onResize_changed_inv f f1 siz1 c1 Hdyn Hrun1 Hne1)
    as (rest1 & Hc1 & Hsusp).
  destruct (Hsusp Hzero) as (-> & Hidx & Hdep & Hrt).
  rewrite app_nil_r in Hc1.
  destruct (onResize_changed_inv f1 f2 siz2 c2 Hdyn1 Hrun2 Hne2)
    as (rest2 & Hc2 & _).
  assert (Hrel : releaseCalls (keepDepth (info f1)) (data f1)
                 = flat_map (fun t => if t =? 0 then [] else [GlDeleteTextures t])
                            (renderTextures (data f))).
  { unfold releaseCalls. rewrite Hidx, Hdep, Hrt. reflexivity. }
  rewrite Hrel in Hc2.
  split; [exact Hc1|]. split; [exists rest2; exact Hc2|].
  intros x Hin Hx. split.
  - rewrite Hc1.
    exact (proj2 (proj2 (releaseCalls_complete _ (data f))) x Hin Hx).
  - rewrite Hc2. apply elem_of_app. left.
    apply list_elem_of_In, in_flat_map. exists x.
    split; [apply list_elem_of_In; exact Hin|].
    apply Z.eqb_neq in Hx. rewrite Hx. left. reflexivity.
Qed.

(** The draw buffers the colour loop fills in: the entries from [k] on, one
    per format, are the attachment points in order. *)
Lemma allocateColors_bufs (nm : string) (i : Info) (sz : Vec2)
    (fmts : list GPUFormat) :
  forall (k : nat) (bufs bufs' : list GLenum) (s s' : St),
  (k + length fmts <= length bufs)%nat ->
  allocateColors nm i sz k fmts bufs s = Ok (bufs', s') ->
  bufs' = take k bufs ++ map colorAttachment (seq k (length fmts))
          ++ drop (k + length fmts) bufs.
Proof.
  induction fmts as [|f rest IH]; intros k bufs bufs' s s' Hlen.
  - simpl. unfold ret. intros [= <- _]. rewrite Nat.add_0_r.
    symmetry. apply take_drop.
  - cbn [allocateColors]. run_monad.
    destruct (glxColorFormat f) as [fmt| |]; cbn; try discriminate.
    intros Hrun. apply IH in Hrun;
      [|rewrite length_insert; simpl in Hlen; lia].
    rewrite Hrun. simpl in Hlen. simpl length. simpl seq. simpl map.
    assert (Hlt : (k < length bufs)%nat) by lia.
    rewrite (take_S_r _ _ _ (list_lookup_insert_eq bufs k _ Hlt)).
    rewrite take_insert_ge by lia.
    rewrite drop_insert_lt by lia.
    rewrite <- app_assoc. simpl. unfold colorAttachment at 2.
    do 3 f_equal. rewrite Nat.add_succ_r. reflexivity.
Qed.

Lemma allocate_tail (nm : string) (i : Info) (sz : Vec2) (d d' : Data)
    (t t' : list GLCall) :
  allocate nm i sz (d, t) = Ok (tt, (d', t')) ->
  let n := length (colorFormats i) in
  exists pre,
    t' = pre ++ [GlDrawBuffers (to_GLsizei (Z.of_nat n))
                               (map colorAttachment (seq 0 n));
                 GlCheckFramebufferStatus (GLv GL_FRAMEBUFFER)].
Proof.
  intros Hrun n. unfold allocate in Hrun. revert Hrun. run_monad.
  fold n.
  assert (Hcolors : forall s bufs' s',
             allocateColors nm i sz 0 (colorFormats i) (replicate n 0) s
             = Ok (bufs', s') ->
             bufs' = map colorAttachment (seq 0 n)).
  { intros s bufs' s' Hcol.
    apply allocateColors_bufs in Hcol; [|rewrite length_replicate; lia].
    rewrite Hcol. fold n. simpl.
    rewrite drop_ge by (rewrite length_replicate; lia).
    apply app_nil_r. }
  assert (Hlen : length (map colorAttachment (seq 0 n)) = n)
    by (rewrite length_map, length_seq; reflexivity).
  destruct (bool_decide (depthFormat i = DepthNONE)); cbn.
  - destruct (allocateColors _ _ _ _ _ _ _) as [[bufs' [d2 t2]]| |] eqn:Hcol;
      cbn; try discriminate.
    apply Hcolors in Hcol. subst bufs'. rewrite Hlen.
    destruct (checkStatus _ =? _); cbn; [|discriminate].
    intros [= _ <-]. exists t2. rewrite <- app_assoc. reflexivity.
  - destruct (allocateDepth _ _ _ _) as [[u [d1 t1]]| |]; cbn; try discriminate.
    destruct (allocateColors _ _ _ _ _ _ _) as [[bufs' [d2 t2]]| |] eqn:Hcol;
      cbn; try discriminate.
    apply Hcolors in Hcol. subst bufs'. rewrite Hlen.
    destruct (checkStatus _ =? _); cbn; [|discriminate].
    intros [= _ <-]. exists t2. rewrite <- app_assoc. reflexivity.
Qed.

(** X4. A resize that allocates ends with [glDrawBuffers] and the
    completeness check: the draw buffers are the attachment points
    [GL_COLOR_ATTACHMENT0 + j], one per colour format of the surface, in
    order. *)
Theorem onResize_draw_buffers (f f' : Framebuffer) (siz : Vec2)
    (calls : list GLCall) :
  isDynamic (info f) = true -> onResize f siz = Ok (f', calls) ->
  size (info f') <> size (info f) -> fst (size (info f')) <> 0 ->
  let n := length (colorFormats (info f)) in
  exists pre,
    calls = pre ++ [GlDrawBuffers (to_GLsizei (Z.of_nat n))
                                  (map colorAttachment (seq 0 n));
                    GlCheckFramebufferStatus (GLv GL_FRAMEBUFFER)].
Proof.
  intros Hdyn Hrun Hne Hw n.
  pose proof (onResize_dynamic_computed f f' siz calls Hdyn Hrun) as Hsz.
  rewrite (onResize_changed f siz _ Hdyn Hsz Hne), reallocate_run in Hrun.
  apply Z.eqb_neq in Hw. rewrite Hw in Hrun. unfold rbind in Hrun.
  destruct (allocate _ _ _ _) as [[[] [d t]]| |] eqn:Hal; try discriminate.
  apply allocate_tail in Hal. destruct Hal as (pre & Ht).
  injection Hrun as _ <-. exists pre. exact Ht.
Qed.

End OnResize.

(** *** Resizes of concrete surfaces

    The driver of the examples hands out the names 100, 101, ... and
    reports the status it is given; names pass through [NAME] unchanged. *)

Definition nextName (t : list GLCall) : GLuint := 100 + Z.of_nat (length t).

Definition resizeWith (status : GLconst) : Framebuffer -> Vec2 ->
    Result (Framebuffer * list GLCall) :=
  onResize headerValue (fun s => s) (fun _ => false) nextName
           (fun _ => headerValue status).

(** A surface of one RGBA8 colour attachment and a D32 depth renderbuffer,
    allocated at 400 x 300. *)
Definition surface (dynamic : bool) (scale : float) : Framebuffer :=
  {| name := "scene";
     info := {| size := (400, 300); colorFormats := [RGBA8];
                depthFormat := D32; keepDepth := false; samples := 1;
                isDynamic := dynamic; viewportScale := scale |};
     data := {| index := 7; depth := 9; renderTextures := [8] |} |}.

Definition halfScale : Framebuffer := surface true 0.5%float.

Definition sizeAfter (r : Result (Framebuffer * list GLCall)) : option Vec2 :=
  match r with
  | Ok (f, _) => Some (size (info f))
  | _ => None
  end.

Definition callsOf (r : Result (Framebuffer * list GLCall)) : list GLCall :=
  match r with
  | Ok (_, calls) => calls
  | _ => []
  end.

(** C6 fails as stated: under the scale -0.25 a backbuffer of 1 x 1 gives
    the product -0.25 in each component, whose floor is -1, and the surface
    reports the size (0, 0). *)
Lemma onResize_negative_scale_truncates :
  let f := surface true (-0.25)%float in
  sizeAfter (resizeWith GL_FRAMEBUFFER_COMPLETE f (1, 1)) = Some (0, 0) /\
  floor (PrimFloat.mul (u32_to_f64 1) (viewportScale (info f))) = Some (-1).
Proof. split; vm_compute; reflexivity. Qed.

(** The surface of scale 0.5 before its first resize: of size (0, 0) and
    without attachments. *)
Definition unallocated : Framebuffer :=
  {| name := "scene";
     info := setSize (info halfScale) (0, 0);
     data := {| index := 0; depth := 0; renderTextures := [] |} |}.

Lemma onResize_dynamic_size_witness :
  exists f' calls,
    resizeWith GL_FRAMEBUFFER_COMPLETE unallocated (800, 600) = Ok (f', calls) /\
    size (info f') = (400, 300) /\
    floor (PrimFloat.mul (u32_to_f64 800) 0.5%float) = Some (fst (size (info f'))) /\
    floor (PrimFloat.mul (u32_to_f64 600) 0.5%float) = Some (snd (size (info f'))).
Proof.
  destruct (onResize_dynamic_size headerValue (fun s => s) (fun _ => false)
              nextName (fun _ => headerValue GL_FRAMEBUFFER_COMPLETE)
              unallocated (800, 600) eq_refl) as [Hsize Hreturns].
  destruct (Hreturns 400 300 ltac:(vm_compute; reflexivity)
              ltac:(vm_compute; reflexivity) ltac:(unfold u32_max; lia)
              ltac:(unfold u32_max; lia)
              ltac:(split; [right; reflexivity | repeat constructor])
              (fun _ => eq_refl))
    as (f' & calls & Hrun & Hsz).
  exists f', calls. split; [exact Hrun|]. split; [exact Hsz|].
  exact (proj2 (proj2 (Hsize f' calls Hrun)) eq_refl).
Defined.

(** A static surface under any resize, and a dynamic surface whose computed
    size is its current size. *)
Lemma onResize_noop_witness :
  let s := surface false 1%float in
  resizeWith GL_FRAMEBUFFER_COMPLETE s (800, 600) = Ok (s, []) /\
  resizeWith GL_FRAMEBUFFER_COMPLETE halfScale (800, 600) = Ok (halfScale, []).
Proof.
  split.
  - apply (proj1 (onResize_noop headerValue (fun s => s) (fun _ => false)
                    nextName (fun _ => headerValue GL_FRAMEBUFFER_COMPLETE)
                    (surface false 1%float) (800, 600)) (800, 600));
      [vm_compute; reflexivity | left; reflexivity].
  - apply (proj1 (onResize_noop headerValue (fun s => s) (fun _ => false)
                    nextName (fun _ => headerValue GL_FRAMEBUFFER_COMPLETE)
                    halfScale (800, 600)) (400, 300));
      [vm_compute; reflexivity | right; reflexivity].
Defined.

(** C8 fails as stated, whichever way "the new size is zero" is read.  The
    size (0, 2) is not the zero size, and the surface is left without
    attachments: the three handles are deleted and nothing is allocated.
    The size (2, 0) has no area, and attachments are allocated for it and
    their completeness is checked. *)
Lemma onResize_zero_test_reads_width_only :
  let narrow := resizeWith GL_FRAMEBUFFER_COMPLETE halfScale (1, 4) in
  let flat := resizeWith GL_FRAMEBUFFER_COMPLETE halfScale (4, 1) in
  (sizeAfter narrow = Some (0, 2) /\
   callsOf narrow = [GlDeleteFramebuffers 7; GlDeleteRenderbuffers 9;
                     GlDeleteTextures 8]) /\
  (sizeAfter flat = Some (2, 0) /\
   GlGenFramebuffers 103 ∈ callsOf flat /\
   GlGenRenderbuffers 106 ∈ callsOf flat /\
   GlGenTextures 111 ∈ callsOf flat /\
   last (callsOf flat)
   = Some (GlCheckFramebufferStatus (headerValue GL_FRAMEBUFFER)) /\
   resizeWith GL_FRAMEBUFFER halfScale (4, 1)
   = Fatal "Couldn't create framebuffer").
Proof.
  cbv zeta. split; [split; vm_compute; reflexivity|].
  split; [vm_compute; reflexivity|].
  assert (Hcalls : callsOf (resizeWith GL_FRAMEBUFFER_COMPLETE halfScale (4, 1))
                   = [GlDeleteFramebuffers 7; GlDeleteRenderbuffers 9;
                      GlDeleteTextures 8; GlGenFramebuffers 103;
                      GlBindFramebuffer 36160 103;
                      GlObjectLabel 36160 103 5 "scene";
                      GlGenRenderbuffers 106; GlBindRenderBuffer 36161 106;
                      GlObjectLabel 36161 106 18 "scene depth buffer";
                      GlRenderbufferStorageMultisample 36161 1 33191 2 0;
                      GlFramebufferRenderbuffer 36160 36096 36161 106;
                      GlGenTextures 111; GlBindTexture 37120 111;
                      GlTexImage2DMultisample 37120 1 32856 2 0 0;
                      GlObjectLabel 5890 111 14 "scene buffer 0";
                      GlFramebufferTexture 36160 36064 111 0;
                      GlDrawBuffers 1 [36064];
                      GlCheckFramebufferStatus 36160])
    by (vm_compute; reflexivity).
  rewrite Hcalls.
  repeat split; try (vm_compute; reflexivity);
    repeat (first [apply list_elem_of_here | apply list_elem_of_further]).
Qed.

(** The surface of scale 0.5 resized to 512 x 384 and to the zero size. *)
Lemma onResize_reallocates_witness :
  (exists d' allocs,
      resizeWith GL_FRAMEBUFFER_COMPLETE halfScale (1024, 768)
      = Ok ({| name := "scene"; info := setSize (info halfScale) (512, 384);
               data := d' |},
            [GlDeleteFramebuffers 7; GlDeleteRenderbuffers 9;
             GlDeleteTextures 8] ++ allocs ++
            [GlCheckFramebufferStatus (headerValue GL_FRAMEBUFFER)]) /\
      GlGenFramebuffers (index d') ∈ allocs /\
      GlGenRenderbuffers (depth d') ∈ allocs /\
      length (renderTextures d') = 1%nat /\
      (forall x, renderTextures d' !! 0%nat = Some x ->
                 GlFramebufferTexture 0x8D40 0x8CE0 x 0 ∈ allocs)) /\
  resizeWith GL_FRAMEBUFFER_COMPLETE halfScale (0, 0)
  = Ok (suspended halfScale (0, 0),
        [GlDeleteFramebuffers 7; GlDeleteRenderbuffers 9; GlDeleteTextures 8]).
Proof.
  pose proof (onResize_reallocates headerValue (fun s => s) (fun _ => false)
                nextName (fun _ => headerValue GL_FRAMEBUFFER_COMPLETE)
                halfScale (1024, 768) (512, 384) eq_refl
                ltac:(vm_compute; reflexivity) ltac:(discriminate))
    as (_ & _ & Halloc).
  pose proof (onResize_reallocates headerValue (fun s => s) (fun _ => false)
                nextName (fun _ => headerValue GL_FRAMEBUFFER_COMPLETE)
                halfScale (0, 0) (0, 0) eq_refl
                ltac:(vm_compute; reflexivity) ltac:(discriminate))
    as (_ & Hzero & _).
  split; [|exact (Hzero eq_refl)].
  destruct (Halloc ltac:(discriminate) ltac:(discriminate)) as [Hrun _].
  destruct Hrun as (d' & allocs & Hres & Hfb & Hdp & Hlen & Hcol).
  { split; [right; reflexivity | repeat constructor]. }
  exists d', allocs. rewrite Z.eqb_refl in Hres.
  split; [exact Hres|]. split; [exact Hfb|].
  split; [exact (proj1 (Hdp ltac:(discriminate)))|].
  split; [exact Hlen|].
  intros x Hx. exact (proj2 (Hcol 0%nat x Hx)).
Defined.

(** *** Repeated resizes and the destructor on the surface of scale 0.5 *)

(** [onResize] under the driver of the examples, reporting completeness. *)
Abbreviation resized :=
  (onResize headerValue (fun s => s) (fun _ => false) nextName
            (fun _ => headerValue GL_FRAMEBUFFER_COMPLETE)).

Lemma onResize_idempotent_witness :
  exists f' calls,
    resized halfScale (1024, 768) = Ok (f', calls) /\
    size (info f') = (512, 384) /\ calls <> [] /\
    resized f' (1024, 768) = Ok (f', []).
Proof.
  assert (Hrun : exists f' calls,
             resized halfScale (1024, 768)
             = Ok (f', calls) /\
             size (info f') = (512, 384) /\ calls <> []).
  { eexists _, _. split; [vm_compute; reflexivity|].
    split; [reflexivity | discriminate]. }
  destruct Hrun as (f' & calls & Hrun & Hsize & Hcalls).
  exists f', calls. split; [exact Hrun|]. split; [exact Hsize|].
  split; [exact Hcalls|].
  exact (onResize_idempotent headerValue (fun s => s) (fun _ => false) nextName
           (fun _ => headerValue GL_FRAMEBUFFER_COMPLETE)
           halfScale f' (1024, 768) calls Hrun).
Defined.

Lemma destructor_releases_witness :
  destructor headerValue (fun s => s) (fun _ => false) nextName
             (fun _ => headerValue GL_FRAMEBUFFER_COMPLETE) halfScale
  = Ok [GlDeleteFramebuffers 7; GlDeleteRenderbuffers 9; GlDeleteTextures 8] /\
  destructor headerValue (fun s => s) (fun _ => false) nextName
             (fun _ => headerValue GL_FRAMEBUFFER_COMPLETE)
             (surface false 1%float)
  = Ok [].
Proof.
  split.
  - apply (proj1 (destructor_releases headerValue (fun s => s) (fun _ => false)
                    nextName (fun _ => headerValue GL_FRAMEBUFFER_COMPLETE)
                    halfScale eq_refl));
      [reflexivity | discriminate].
  - apply (proj2 (destructor_releases headerValue (fun s => s) (fun _ => false)
                    nextName (fun _ => headerValue GL_FRAMEBUFFER_COMPLETE)
                    (surface false 1%float) eq_refl)).
    left. reflexivity.
Defined.

(** The surface of scale 0.5 under a 1 x 4 backbuffer (suspended at (0, 2))
    and then under a 1024 x 768 backbuffer: the texture 8 is deleted by
    both resizes. *)
Lemma onResize_deletes_stale_textures_witness :
  exists f1 c1 f2 c2,
    resized halfScale (1, 4) = Ok (f1, c1) /\
    resized f1 (1024, 768) = Ok (f2, c2) /\
    GlDeleteTextures 8 ∈ c1 /\ GlDeleteTextures 8 ∈ c2.
Proof.
  assert (Hrun : exists f1 c1 f2 c2,
             resized halfScale (1, 4) = Ok (f1, c1) /\
             resized f1 (1024, 768) = Ok (f2, c2) /\
             size (info f1) = (0, 2) /\ size (info f2) = (512, 384)).
  { eexists _, _, _, _. split; [vm_compute; reflexivity|].
    split; [vm_compute; reflexivity|]. split; reflexivity. }
  destruct Hrun as (f1 & c1 & f2 & c2 & Hrun1 & Hrun2 & Hs1 & Hs2).
  exists f1, c1, f2, c2. split; [exact Hrun1|]. split; [exact Hrun2|].
  refine (proj2 (proj2 (onResize_deletes_stale_textures headerValue
                          (fun s => s) (fun _ => false) nextName
                          (fun _ => headerValue GL_FRAMEBUFFER_COMPLETE)
                          halfScale f1 f2 (1, 4) (1024, 768) c1 c2
                          eq_refl Hrun1 _ _ Hrun2 _)) 8 _ _).
  - rewrite Hs1. discriminate.
  - rewrite Hs1. reflexivity.
  - rewrite Hs1, Hs2. discriminate.
  - apply list_elem_of_here.
  - discriminate.
Defined.

Lemma onResize_draw_buffers_witness :
  exists f' pre,
    resized halfScale (1024, 768)
    = Ok (f', pre ++ [GlDrawBuffers 1 [0x8CE0];
                      GlCheckFramebufferStatus 0x8D40]).
Proof.
  assert (Hrun : exists f' calls,
             resized halfScale (1024, 768)
             = Ok (f', calls) /\ size (info f') = (512, 384)).
  { eexists _, _. split; [vm_compute; reflexivity | reflexivity]. }
  destruct Hrun as (f' & calls & Hrun & Hsize).
  destruct (onResize_draw_buffers headerValue (fun s => s) (fun _ => false)
              nextName (fun _ => headerValue GL_FRAMEBUFFER_COMPLETE)
              halfScale f' (1024, 768) calls eq_refl Hrun)
    as (pre & Hcalls).
  - rewrite Hsize. discriminate.
  - rewrite Hsize. discriminate.
  - exists f', pre. rewrite Hrun, Hcalls. reflexivity.
Defined.

End Framebuffer.

(** ** The execution context and the glx helpers of the OpenGL backend *)

Module Glx.

Import GL.

(** [BoundRange] (gl_graphics.hpp) *)
Record BoundRange : Type := mkBoundRange {
  handle : GLuint;
  offset : Z;
  size : Z
}.

(** A value-initialised [BoundRange], as [operator[]] inserts it. *)
Definition noRange : BoundRange := {| handle := 0; offset := 0; size := 0 |}.

Definition sameRange (b : BoundRange) (h : GLuint) (off sz : Z) : bool :=
  (handle b =? h) && (offset b =? off) && (size b =? sz).

(** The fields of [GLContext] that the code below reads or writes.
    [currentFramebuffer] points into the store of framebuffers. *)
Record GLContext : Type := mkGLContext {
  bound : gmap Z GLuint;
  boundByBase : gmap Z BoundRange;
  enableScissor : bool;
  scissorOff : Vec2;
  scissorSize : Vec2;
  viewportOff : Vec2;
  viewportSize : Vec2;
  currentFramebuffer : option Z;
  vaos : gmap Z GLuint;
  deletedVaos : list Z;
  frameId : Z
}.

(** [TextureRange]: the sub-range a view is made of. *)
Record TextureRange : Type := mkTextureRange {
  minLevel : Z;
  levelCount : Z;
  minLayer : Z;
  layerCount : Z;
  subType : TextureType
}.

#[global] Instance TextureType_eq_dec : EqDecision TextureType.
Proof. solve_decision. Defined.

#[global] Instance TextureRange_eq_dec : EqDecision TextureRange.
Proof. solve_decision. Defined.

(** A [Texture] object: what the binding code reads of it, and the views
    ([getData()->textureViews]) it appends to. *)
Record Texture : Type := mkTexture {
  texName : string;
  texHandle : GLuint;
  texFormat : GPUFormat;
  textureViews : list (TextureRange * GLuint)
}.

(** What [subres.resource] points to, by its dynamic type: a [GPUBuffer]
    or a [Sampler] (with the native handle of its data block), a [Texture]
    (its address in the store of textures), or neither (the null pointer
    included). *)
Inductive GPUResource : Type :=
| BufferResource (h : GLuint)
| SamplerResource (h : GLuint)
| TextureResource (tex : Z)
| NoResource.

Record Subresource : Type := mkSubresource {
  resource : GPUResource;
  bufferRange : Z * Z;
  textureRange : TextureRange;
  samplerTexture : option Z
}.

Inductive ResourceType : Type :=
| CBUFFER
| OtherResourceType (code : N).

(** [RegisterLayout]: a slot of the pipeline layout. *)
Record RegisterLayout : Type := mkRegisterLayout {
  globalId : Z;
  localId : Z;
  type : ResourceType;
  isWritable : bool
}.

(** [Descriptors::Info]: the slots in iteration order, each under its name,
    and the resources by global id. *)
Record Descriptors : Type := mkDescriptors {
  pipelineLayout : list (string * RegisterLayout);
  resources : gmap Z Subresource
}.

(** The context of the executing thread, the objects it points to (of a
    [Swapchain], its size), and the calls made so far. *)
Record World : Type := mkWorld {
  ctx : GLContext;
  framebuffers : gmap Z Framebuffer.Framebuffer;
  textures : gmap Z Texture;
  swapchains : gmap Z Vec2;
  calls : list GLCall
}.

Definition setCtx (f : GLContext -> GLContext) (w : World) : World :=
  {| ctx := f (ctx w); framebuffers := framebuffers w;
     textures := textures w; swapchains := swapchains w; calls := calls w |}.

Definition setBoundByBase (m : gmap Z BoundRange) (c : GLContext) : GLContext :=
  {| bound := bound c; boundByBase := m; enableScissor := enableScissor c;
     scissorOff := scissorOff c; scissorSize := scissorSize c;
     viewportOff := viewportOff c; viewportSize := viewportSize c;
     currentFramebuffer := currentFramebuffer c; vaos := vaos c;
     deletedVaos := deletedVaos c; frameId := frameId c |}.

Definition setBound (m : gmap Z GLuint) (c : GLContext) : GLContext :=
  {| bound := m; boundByBase := boundByBase c;
     enableScissor := enableScissor c;
     scissorOff := scissorOff c; scissorSize := scissorSize c;
     viewportOff := viewportOff c; viewportSize := viewportSize c;
     currentFramebuffer := currentFramebuffer c; vaos := vaos c;
     deletedVaos := deletedVaos c; frameId := frameId c |}.

Definition setEnableScissor (b : bool) (c : GLContext) : GLContext :=
  {| bound := bound c; boundByBase := boundByBase c; enableScissor := b;
     scissorOff := scissorOff c; scissorSize := scissorSize c;
     viewportOff := viewportOff c; viewportSize := viewportSize c;
     currentFramebuffer := currentFramebuffer c; vaos := vaos c;
     deletedVaos := deletedVaos c; frameId := frameId c |}.

Definition setScissor (off sz : Vec2) (c : GLContext) : GLContext :=
  {| bound := bound c; boundByBase := boundByBase c;
     enableScissor := enableScissor c;
     scissorOff := off; scissorSize := sz;
     viewportOff := viewportOff c; viewportSize := viewportSize c;
     currentFramebuffer := currentFramebuffer c; vaos := vaos c;
     deletedVaos := deletedVaos c; frameId := frameId c |}.

Definition setViewport (off sz : Vec2) (c : GLContext) : GLContext :=
  {| bound := bound c; boundByBase := boundByBase c;
     enableScissor := enableScissor c;
     scissorOff := scissorOff c; scissorSize := scissorSize c;
     viewportOff := off; viewportSize := sz;
     currentFramebuffer := currentFramebuffer c; vaos := vaos c;
     deletedVaos := deletedVaos c; frameId := frameId c |}.

Definition setVaos (m : gmap Z GLuint) (dl : list Z) (c : GLContext) : GLContext :=
  {| bound := bound c; boundByBase := boundByBase c;
     enableScissor := enableScissor c;
     scissorOff := scissorOff c; scissorSize := scissorSize c;
     viewportOff := viewportOff c; viewportSize := viewportSize c;
     currentFramebuffer := currentFramebuffer c; vaos := m;
     deletedVaos := dl; frameId := frameId c |}.

Definition setFrameId (n : Z) (c : GLContext) : GLContext :=
  {| bound := bound c; boundByBase := boundByBase c;
     enableScissor := enableScissor c;
     scissorOff := scissorOff c; scissorSize := scissorSize c;
     viewportOff := viewportOff c; viewportSize := viewportSize c;
     currentFramebuffer := currentFramebuffer c; vaos := vaos c;
     deletedVaos := deletedVaos c; frameId := n |}.

Definition setTextures (m : gmap Z Texture) (w : World) : World :=
  {| ctx := ctx w; framebuffers := framebuffers w; textures := m;
     swapchains := swapchains w; calls := calls w |}.

Definition call (c : GLCall) : M World unit :=
  modify (fun w => {| ctx := ctx w; framebuffers := framebuffers w;
                      textures := textures w; swapchains := swapchains w;
                      calls := calls w ++ [c] |}).

Definition getCtx : M World GLContext := fun w => Ok (ctx w, w).

Definition derefFramebuffer (p : Z) : M World Framebuffer.Framebuffer :=
  fun w => match framebuffers w !! p with
           | Some f => Ok (f, w)
           | None => Undefined
           end.

Definition derefTexture (p : Z) : M World Texture :=
  fun w => match textures w !! p with
           | Some t => Ok (t, w)
           | None => Undefined
           end.

(** [ctx.boundByBase[key]]: a key that is not there is inserted with a
    value-initialised range. *)
Definition boundAt (key : Z) : M World BoundRange :=
  fun w => match boundByBase (ctx w) !! key with
           | Some b => Ok (b, w)
           | None =>
               Ok (noRange,
                   setCtx (setBoundByBase (<[key := noRange]> (boundByBase (ctx w)))) w)
           end.

Definition updateBoundAt (key : Z) (b : BoundRange) : M World unit :=
  modify (fun w => setCtx (setBoundByBase (<[key := b]> (boundByBase (ctx w)))) w).

(** The range the cache holds at [key]. *)
Definition cached (w : World) (key : Z) : BoundRange :=
  default noRange (boundByBase (ctx w) !! key).

(** The argument of an assertion as the call site writes it, and the
    argument the assertion macro tests. *)
Inductive AssertArg : Type :=
| Literal (text : string)
| Expression (holds : bool).

Inductive AssertReading : Type :=
| TestsFirst
| TestsSecond
| CompiledOut.

Section Helpers.

(** The header's table of constants, and the name a [glGenTextures] call
    returns after the calls made so far. *)
Variable GLv : GLconst -> GLenum.
Variable genName : list GLCall -> GLuint.

(** [(u64(localId) << 32) | bindPoint] *)
Definition baseKey (local : Z) (bindPoint : GLconst) : Z :=
  Z.lor (Z.shiftl local 32) (GLv bindPoint).

(** [oicAssert] is a macro of system/log.hpp, which is not among the
    sources, and the sources call it both ways round: [glxSetViewport] and
    [glxSetScissor] write the condition first and the message second,
    [Graphics::present] the message first and the condition second.  Which
    argument the macro tests is therefore a parameter, [reading]: the first,
    the second, or none when assertions are compiled out. *)
Variable reading : AssertReading.

(** A pointer converted to [bool]. *)
Definition notNull {A : Type} (p : option A) : bool :=
  match p with
  | Some _ => true
  | None => false
  end.

(** An argument converted to [bool]: a string literal is a pointer that is
    not null. *)
Definition truth (a : AssertArg) : bool :=
  match a with
  | Literal _ => true
  | Expression b => b
  end.

(** Modelled from the spec: the specification has no assertion of its own;
    a failed one is read as a fatal condition, raised with the literal given
    for the message.  What a failed assertion would log of an expression
    given for the message is not known; no call site of the sources can
    fail that way, since the argument then tested is a literal. *)
Definition failed (message : AssertArg) : M World unit :=
  match message with
  | Literal text => fatal text
  | Expression _ => undefined
  end.

(** Modelled from the spec: [oicAssert(first, second)] under the reading
    [reading]; an assertion that passes, or is compiled out, does
    nothing. *)
Definition oicAssert (first second : AssertArg) : M World unit :=
  match reading with
  | TestsFirst => if truth first then ret tt else failed second
  | TestsSecond => if truth second then ret tt else failed first
  | CompiledOut => ret tt
  end.

(** The size a null [size] stands for: that of the bound framebuffer.
    [ctx.currentFramebuffer->getInfo()] dereferences the pointer, null or
    not, when the assertion has let it through. *)
Definition resolveSize (size : Vec2) (msg : string) : M World Vec2 :=
  if (fst size =? 0) || (snd size =? 0) then
    (c <- getCtx ;;
     oicAssert (Expression (notNull (currentFramebuffer c))) (Literal msg) ;;;
     match currentFramebuffer c with
     | None => undefined
     | Some p => (f <- derefFramebuffer p ;;
                  ret (Framebuffer.size (Framebuffer.info f)))
     end)%m
  else ret size.

(** [glxSetViewport] *)
Definition glxSetViewport (size offset : Vec2) : M World unit :=
  (size <- resolveSize size
      "SetViewport can't be called with null size if the framebuffer isn't bound" ;;
   c <- getCtx ;;
   when (negb (vec2_eqb (viewportOff c) offset) ||
         negb (vec2_eqb (viewportSize c) size))
        (modify (setCtx (setViewport offset size)) ;;;
         call (GlViewport (fst offset) (snd offset)
                 (to_GLsizei (fst size)) (to_GLsizei (snd size)))))%m.

(** [glxSetScissor] *)
Definition glxSetScissor (size offset : Vec2) : M World unit :=
  (size <- resolveSize size
      "SetScissor can't be called with null size if the framebuffer isn't bound" ;;
   c <- getCtx ;;
   when (negb (enableScissor c))
        (call (GlEnable (GLv GL_SCISSOR_TEST)) ;;;
         modify (setCtx (setEnableScissor true))) ;;;
   c <- getCtx ;;
   when (negb (vec2_eqb (scissorOff c) offset) ||
         negb (vec2_eqb (scissorSize c) size))
        (modify (setCtx (setScissor offset size)) ;;;
         call (GlScissor (fst offset) (snd offset)
                 (to_GLsizei (fst size)) (to_GLsizei (snd size)))))%m.

(** [glxSetViewportAndScissor] *)
Definition glxSetViewportAndScissor (size offset : Vec2) : M World unit :=
  (c <- getCtx ;;
   when (enableScissor c)
        (call (GlDisable (GLv GL_SCISSOR_TEST)) ;;;
         modify (setCtx (setEnableScissor false))) ;;;
   glxSetViewport size offset)%m.

(** The first view of [views] made of [range], or 0. *)
Fixpoint findView (views : list (TextureRange * GLuint)) (range : TextureRange)
  : GLuint :=
  match views with
  | [] => 0
  | (r, v) :: rest => if decide (r = range) then v else findView rest range
  end.

(** The body of [if (tex)] in [glxBindDescriptors]. *)
Definition bindTexture (r : RegisterLayout) (subres : Subresource) (p : Z)
  : M World unit :=
  (tex <- derefTexture p ;;
   let range := textureRange subres in
   let found := findView (textureViews tex) range in
   view <- (if found =? 0 then
              (w <- get ;;
               let v := genName (calls w) in
               call (GlGenTextures v) ;;;
               target <- lift (glxTextureType (subType range)) ;;
               fmt <- lift (glxColorFormat (texFormat tex)) ;;
               call (GlTextureView v (GLv target) (texHandle tex) (GLv fmt)
                       (minLevel range) (levelCount range)
                       (minLayer range) (layerCount range)) ;;;
               let nm := (texName tex ++ " " ++
                          to_string (N.of_nat (length (textureViews tex))))%string in
               call (GlObjectLabel (GLv GL_TEXTURE) v
                       (to_GLsizei (Z.of_nat (String.length nm))) nm) ;;;
               modify (fun w =>
                 setTextures
                   (<[p := {| texName := texName tex;
                              texHandle := texHandle tex;
                              texFormat := texFormat tex;
                              textureViews := textureViews tex ++ [(range, v)] |}]>
                      (textures w)) w) ;;;
               ret v)
            else ret found) ;;
   if negb (isWritable r) then
     (let key := baseKey (localId r) GL_TEXTURE in
      b <- boundAt key ;;
      when (negb (handle b =? view))
           (updateBoundAt key {| handle := view; offset := offset b;
                                 size := size b |} ;;;
            call (GlBindTextureUnit (localId r) view)))
   else
     (let key := baseKey (localId r) GL_IMAGE_2D in
      b <- boundAt key ;;
      when (negb (handle b =? view))
           (updateBoundAt key {| handle := view; offset := offset b;
                                 size := size b |} ;;;
            fmt <- lift (glxColorFormat (texFormat tex)) ;;
            call (GlBindImageTexture (localId r) view 0 (GLv GL_TRUE) 0
                    (GLv GL_WRITE_ONLY) (GLv fmt)))))%m.

(** The bind point of a buffer slot. *)
Definition bufferBindPoint (r : RegisterLayout) : GLconst :=
  match type r with
  | CBUFFER => GL_UNIFORM_BUFFER
  | _ => GL_SHADER_STORAGE_BUFFER
  end.

(** One iteration of [for (auto &mapIt : ...pipelineLayout)]. *)
Definition bindSlot (res : gmap Z Subresource) (r : RegisterLayout)
  : M World unit :=
  match res !! globalId r with
  | None => ret tt
  | Some subres =>
      match resource subres with
      | BufferResource h =>
          (let off := fst (bufferRange subres) in
           let sz := snd (bufferRange subres) in
           let key := baseKey (localId r) (bufferBindPoint r) in
           b <- boundAt key ;;
           if sameRange b h off sz then ret tt
           else
             (call (GlBindBufferRange (GLv (bufferBindPoint r)) (localId r)
                      h (to_GLintptr off) (to_GLintptr sz)) ;;;
              updateBoundAt key {| handle := h; offset := off; size := sz |}))%m
      | SamplerResource h =>
          (let key := baseKey (localId r) GL_SAMPLER in
           b <- boundAt key ;;
           when (negb (handle b =? h))
                (updateBoundAt key {| handle := h; offset := offset b;
                                      size := size b |} ;;;
                 call (GlBindSampler (localId r) h)) ;;;
           match samplerTexture subres with
           | Some p => bindTexture r subres p
           | None => ret tt
           end)%m
      | TextureResource p => bindTexture r subres p
      | NoResource => ret tt
      end
  end.

(** [glxBindDescriptors] *)
Definition glxBindDescriptors (d : Descriptors) : M World unit :=
  forEach (pipelineLayout d) (fun slot => bindSlot (resources d) (snd slot)).

(** *** Viewport and scissor *)

(** The size a viewport or scissor command resolves to, when it does. *)
Definition resolved (w : World) (size : Vec2) : option Vec2 :=
  if (fst size =? 0) || (snd size =? 0) then
    match currentFramebuffer (ctx w) with
    | None => None
    | Some p => (fun f => Framebuffer.size (Framebuffer.info f))
                  <$> framebuffers w !! p
    end
  else Some size.

Ltac run_glx :=
  unfold bind, call, modify, getCtx, ret, get, when, fatal, lift,
         boundAt, updateBoundAt;
  cbn.

(** An assertion none of whose arguments is false passes, whichever
    argument the macro tests. *)
Lemma oicAssert_passes (first second : AssertArg) (w : World) :
  truth first = true -> truth second = true ->
  oicAssert first second w = Ok (tt, w).
Proof.
  intros H1 H2. unfold oicAssert. destruct reading; rewrite ?H1, ?H2; reflexivity.
Qed.

(** An assertion changes nothing when it passes. *)
Lemma oicAssert_inv (first second : AssertArg) (w w' : World) (u : unit) :
  oicAssert first second w = Ok (u, w') -> w' = w.
Proof.
  unfold oicAssert, failed.
  destruct reading, (truth first), (truth second), first, second;
    cbn; intros [=]; congruence.
Qed.

Lemma resolveSize_resolved (w : World) (size sz : Vec2) (msg : string) :
  resolved w size = Some sz -> resolveSize size msg w = Ok (sz, w).
Proof.
  unfold resolved, resolveSize.
  destruct ((fst size =? 0) || (snd size =? 0)); [|intros [= ->]; reflexivity].
  unfold bind at 1, getCtx.
  destruct (currentFramebuffer (ctx w)) as [p|]; [|discriminate].
  unfold bind at 1. rewrite oicAssert_passes by reflexivity.
  unfold bind, derefFramebuffer, ret.
  destruct (framebuffers w !! p) as [f|]; [|discriminate].
  intros [= <-]. reflexivity.
Qed.

(** C10. [glxSetViewportAndScissor] switches the scissor test off, with one
    [glDisable] when it was on, and then sets the viewport: the cached
    scissor rectangle and every other field of the context are as before,
    and no scissor call is made.  [glxSetScissor] switches the scissor test
    on and stores the rectangle it is given. *)
Theorem glxSetViewportAndScissor_keeps_scissor_rectangle
    (size offset sz : Vec2) (w : World) :
  resolved w size = Some sz ->
  (exists w',
      glxSetViewportAndScissor size offset w = Ok (tt, w') /\
      enableScissor (ctx w') = false /\
      scissorOff (ctx w') = scissorOff (ctx w) /\
      scissorSize (ctx w') = scissorSize (ctx w) /\
      viewportOff (ctx w') = offset /\ viewportSize (ctx w') = sz /\
      bound (ctx w') = bound (ctx w) /\
      boundByBase (ctx w') = boundByBase (ctx w) /\
      currentFramebuffer (ctx w') = currentFramebuffer (ctx w) /\
      vaos (ctx w') = vaos (ctx w) /\
      deletedVaos (ctx w') = deletedVaos (ctx w) /\
      frameId (ctx w') = frameId (ctx w) /\
      framebuffers w' = framebuffers w /\ textures w' = textures w /\
      swapchains w' = swapchains w /\
      calls w'
      = calls w ++
        (if enableScissor (ctx w) then [GlDisable (GLv GL_SCISSOR_TEST)] else []) ++
        (if vec2_eqb (viewportOff (ctx w)) offset &&
            vec2_eqb (viewportSize (ctx w)) sz
         then []
         else [GlViewport (fst offset) (snd offset)
                 (to_GLsizei (fst sz)) (to_GLsizei (snd sz))])) /\
  (exists w',
      glxSetScissor size offset w = Ok (tt, w') /\
      enableScissor (ctx w') = true /\
      scissorOff (ctx w') = offset /\ scissorSize (ctx w') = sz /\
      calls w'
      = calls w ++
        (if enableScissor (ctx w) then [] else [GlEnable (GLv GL_SCISSOR_TEST)]) ++
        (if vec2_eqb (scissorOff (ctx w)) offset &&
            vec2_eqb (scissorSize (ctx w)) sz
         then []
         else [GlScissor (fst offset) (snd offset)
                 (to_GLsizei (fst sz)) (to_GLsizei (snd sz))])).
Proof.
  intros Hres. split.
  - unfold glxSetViewportAndScissor, glxSetViewport. unfold bind at 1. run_glx.
    destruct (enableScissor (ctx w)) eqn:Hen; cbn;
      (rewrite resolveSize_resolved with (sz := sz);
       [|unfold resolved in *; cbn; exact Hres]); cbn;
      destruct (vec2_eqb (viewportOff (ctx w)) offset) eqn:Ho;
      destruct (vec2_eqb (viewportSize (ctx w)) sz) eqn:Hs; cbn;
      eexists; (split; [reflexivity|]); cbn;
      rewrite ?app_nil_r, <- ?app_assoc;
      try apply vec2_eqb_eq in Ho; try apply vec2_eqb_eq in Hs;
      repeat split; auto.
  - unfold glxSetScissor. unfold bind at 1.
    rewrite resolveSize_resolved with (sz := sz) by exact Hres. run_glx.
    destruct (enableScissor (ctx w)) eqn:Hen; cbn;
      destruct (vec2_eqb (scissorOff (ctx w)) offset) eqn:Ho;
      destruct (vec2_eqb (scissorSize (ctx w)) sz) eqn:Hs; cbn;
      eexists; (split; [reflexivity|]); cbn;
      rewrite ?app_nil_r, <- ?app_assoc;
      try apply vec2_eqb_eq in Ho; try apply vec2_eqb_eq in Hs;
      repeat split; auto.
Qed.

(** *** Descriptor resolution *)

Lemma sameRange_eq (b : BoundRange) (h : GLuint) (off sz : Z) :
  sameRange b h off sz = true <-> b = {| handle := h; offset := off; size := sz |}.
Proof.
  unfold sameRange. rewrite !andb_true_iff, !Z.eqb_eq. destruct b as [bh bo bs].
  simpl. split; [intros [[-> ->] ->]; reflexivity | intros [= -> -> ->]; auto].
Qed.

(** The key of a slot tells its binding point and its bind point apart from
    those of any other slot. *)
Lemma baseKey_inj (l1 l2 : Z) (c1 c2 : GLconst) :
  0 <= GLv c1 < 2 ^ 32 -> 0 <= GLv c2 < 2 ^ 32 ->
  baseKey l1 c1 = baseKey l2 c2 -> l1 = l2 /\ GLv c1 = GLv c2.
Proof.
  intros H1 H2. unfold baseKey.
  assert (Hsplit : forall l v, 0 <= v < 2 ^ 32 ->
                     Z.lor (Z.shiftl l 32) v = l * 2 ^ 32 + v).
  { intros l v Hv.
    assert (Hland : Z.land (Z.shiftl l 32) v = 0).
    { apply Z.bits_inj'. intros n Hn. rewrite Z.land_spec, Z.bits_0.
      destruct (Z.lt_ge_cases n 32) as [Hlt | Hge].
      - rewrite Z.shiftl_spec_low by lia. reflexivity.
      - rewrite andb_comm.
        destruct (Z.eq_dec v 0) as [-> | Hv0]; [rewrite Z.bits_0; reflexivity|].
        rewrite Z.bits_above_log2; [reflexivity | lia |].
        apply Z.log2_lt_pow2; [lia|].
        apply Z.lt_le_trans with (2 ^ 32); [lia | apply Z.pow_le_mono_r; lia]. }
    rewrite <- Z.lxor_lor by exact Hland.
    rewrite <- Z.add_nocarry_lxor by exact Hland.
    rewrite Z.shiftl_mul_pow2 by lia. reflexivity. }
  rewrite !Hsplit by assumption. intros Heq.
  assert (l1 = l2) by nia. subst l2. split; [reflexivity | lia].
Qed.

(** C4. A slot whose global id has no entry in the bound resources is
    skipped: the iteration ends normally, makes no call, and leaves the
    context (its cache of bound ranges included) and the objects as they
    were; the resolution of a whole descriptor set is that of its slots
    that have an entry. *)
Theorem glxBindDescriptors_skips_unbound_slots :
  (forall (res : gmap Z Subresource) (r : RegisterLayout) (w : World),
      res !! globalId r = None -> bindSlot res r w = Ok (tt, w)) /\
  (forall (d : Descriptors) (w : World),
      glxBindDescriptors d w
      = glxBindDescriptors
          {| pipelineLayout :=
               List.filter (fun slot =>
                              bool_decide (is_Some (resources d !! globalId (snd slot))))
                           (pipelineLayout d);
             resources := resources d |} w).
Proof.
  assert (Hskip : forall (res : gmap Z Subresource) (r : RegisterLayout) (w : World),
             res !! globalId r = None -> bindSlot res r w = Ok (tt, w)).
  { intros res r w Hnone. unfold bindSlot. rewrite Hnone. reflexivity. }
  split; [exact Hskip|].
  intros d. unfold glxBindDescriptors. simpl.
  induction (pipelineLayout d) as [|slot rest IH]; intros w; [reflexivity|].
  simpl. destruct (resources d !! globalId (snd slot)) as [sub|] eqn:Hres.
  - rewrite bool_decide_eq_true_2 by (exists sub; reflexivity). simpl.
    unfold bind.
    destruct (bindSlot (resources d) (snd slot) w) as [[u w1]| |];
      [apply IH | reflexivity | reflexivity].
  - rewrite bool_decide_eq_false_2 by (intros [x Hx]; discriminate).
    unfold bind. rewrite (Hskip _ _ _ Hres). apply IH.
Qed.

Lemma bindSlot_buffer_run (res : gmap Z Subresource) (r : RegisterLayout)
    (subres : Subresource) (h : GLuint) (w : World) :
  res !! globalId r = Some subres -> resource subres = BufferResource h ->
  let off := fst (bufferRange subres) in
  let sz := snd (bufferRange subres) in
  let key := baseKey (localId r) (bufferBindPoint r) in
  exists w1,
    bindSlot res r w = Ok (tt, w1) /\
    calls w1
    = calls w ++
      (if sameRange (cached w key) h off sz then []
       else [GlBindBufferRange (GLv (bufferBindPoint r)) (localId r) h
               (to_GLintptr off) (to_GLintptr sz)]) /\
    boundByBase (ctx w1) !! key
    = Some {| handle := h; offset := off; size := sz |} /\
    (forall k, k <> key -> cached w1 k = cached w k) /\
    framebuffers w1 = framebuffers w /\ textures w1 = textures w.
Proof.
  intros Hres Hbuf off sz key. unfold bindSlot. rewrite Hres, Hbuf.
  fold off sz key. unfold cached. run_glx.
  destruct (boundByBase (ctx w) !! key) as [b|] eqn:Hkey; cbn.
  - destruct (sameRange b h off sz) eqn:Hsame; cbn.
    + apply sameRange_eq in Hsame. subst b. exists w.
      rewrite app_nil_r. repeat split; auto.
    + eexists. split; [reflexivity|]. cbn.
      split; [reflexivity|]. split; [apply lookup_insert_eq|].
      split; [|auto]. intros k Hk. rewrite lookup_insert_ne by congruence.
      reflexivity.
  - destruct (sameRange noRange h off sz) eqn:Hsame; cbn.
    + apply sameRange_eq in Hsame. eexists. split; [reflexivity|]. cbn.
      rewrite app_nil_r. split; [reflexivity|].
      split; [rewrite lookup_insert_eq, Hsame; reflexivity|].
      split; [|auto]. intros k Hk. rewrite lookup_insert_ne by congruence.
      reflexivity.
    + eexists. split; [reflexivity|]. cbn.
      split; [reflexivity|]. split; [apply lookup_insert_eq|].
      split; [|auto]. intros k Hk. rewrite !lookup_insert_ne by congruence.
      reflexivity.
Qed.

Lemma bindSlot_buffer_bound (res : gmap Z Subresource) (r : RegisterLayout)
    (subres : Subresource) (h : GLuint) (w : World) :
  res !! globalId r = Some subres -> resource subres = BufferResource h ->
  boundByBase (ctx w) !! baseKey (localId r) (bufferBindPoint r)
  = Some {| handle := h; offset := fst (bufferRange subres);
            size := snd (bufferRange subres) |} ->
  bindSlot res r w = Ok (tt, w).
Proof.
  intros Hres Hbuf Hkey. unfold bindSlot. rewrite Hres, Hbuf. run_glx.
  rewrite Hkey. cbn. unfold sameRange. cbn. rewrite !Z.eqb_refl. reflexivity.
Qed.

(** Resolving a buffer slot leaves the entries of the other keys as they
    are. *)
Lemma bindSlot_buffer_lookup_kept (res : gmap Z Subresource)
    (r : RegisterLayout) (subres : Subresource) (h : GLuint) (w w1 : World)
    (k : Z) :
  res !! globalId r = Some subres -> resource subres = BufferResource h ->
  bindSlot res r w = Ok (tt, w1) ->
  k <> baseKey (localId r) (bufferBindPoint r) ->
  boundByBase (ctx w1) !! k = boundByBase (ctx w) !! k.
Proof.
  intros Hres Hbuf Hrun Hk. unfold bindSlot in Hrun. rewrite Hres, Hbuf in Hrun.
  revert Hrun. run_glx.
  destruct (boundByBase (ctx w) !! baseKey (localId r) (bufferBindPoint r))
    as [b|] eqn:Hkey; cbn;
    destruct (sameRange _ h _ _); cbn; intros [= <-]; cbn;
    rewrite ?lookup_insert_ne by congruence; reflexivity.
Qed.

Lemma glxBindDescriptors_app (res : gmap Z Subresource)
    (l1 l2 : list (string * RegisterLayout)) (w : World) :
  glxBindDescriptors {| pipelineLayout := l1 ++ l2; resources := res |} w
  = (glxBindDescriptors {| pipelineLayout := l1; resources := res |} ;;;
     glxBindDescriptors {| pipelineLayout := l2; resources := res |})%m w.
Proof.
  unfold glxBindDescriptors. cbn [pipelineLayout resources].
  revert w. induction l1 as [|slot rest IH]; intros w; [reflexivity|].
  cbn [app forEach]. unfold bind.
  destruct (bindSlot res (snd slot) w) as [[u w1]| |]; [|reflexivity..].
  rewrite IH. unfold bind. reflexivity.
Qed.

Lemma glxBindDescriptors_single (res : gmap Z Subresource) (name : string)
    (r : RegisterLayout) (w : World) :
  glxBindDescriptors {| pipelineLayout := [(name, r)]; resources := res |} w
  = bindSlot res r w.
Proof.
  unfold glxBindDescriptors. cbn [pipelineLayout resources forEach snd].
  unfold bind, ret. destruct (bindSlot res r w) as [[[] w1]| |]; reflexivity.
Qed.

(** C2. When the resolution of a descriptor set reaches a slot that a
    buffer is bound to, it calls [glBindBufferRange] exactly when the
    (handle, offset, size) triple differs from the one the context caches
    under the key [(localId << 32) | bindPoint] of the slot (a
    value-initialised triple when the key has none), and leaves the triple
    cached under that key and every other key as it was.  Resolving the
    slot again right away issues no call and changes nothing; resolving it
    afterwards with a different triple issues one further call.  A buffer
    slot with another local binding point or another bind point has a key
    of its own: resolving it does not touch the triple cached for the
    first slot. *)
Theorem glxBindDescriptors_buffer_deduplicated
    (res : gmap Z Subresource) (before : list (string * RegisterLayout))
    (name : string) (r : RegisterLayout) (subres : Subresource) (h : GLuint)
    (w w0 : World) :
  res !! globalId r = Some subres -> resource subres = BufferResource h ->
  glxBindDescriptors {| pipelineLayout := before; resources := res |} w
  = Ok (tt, w0) ->
  let bindPointOf := fun s : RegisterLayout =>
    match type s with
    | CBUFFER => GLv GL_UNIFORM_BUFFER
    | _ => GLv GL_SHADER_STORAGE_BUFFER
    end in
  let off := fst (bufferRange subres) in
  let sz := snd (bufferRange subres) in
  let key := Z.lor (Z.shiftl (localId r) 32) (bindPointOf r) in
  let triple := {| handle := h; offset := off; size := sz |} in
  exists w1,
    glxBindDescriptors
      {| pipelineLayout := before ++ [(name, r)]; resources := res |} w
    = Ok (tt, w1) /\
    (cached w0 key = triple -> calls w1 = calls w0) /\
    (cached w0 key <> triple ->
     calls w1 = calls w0 ++
                [GlBindBufferRange (bindPointOf r) (localId r) h
                   (to_GLintptr off) (to_GLintptr sz)]) /\
    cached w1 key = triple /\
    (forall k, k <> key -> cached w1 k = cached w0 k) /\
    glxBindDescriptors {| pipelineLayout := [(name, r)]; resources := res |} w1
    = Ok (tt, w1) /\
    (forall (res2 : gmap Z Subresource) (subres2 : Subresource) (h2 : GLuint),
        res2 !! globalId r = Some subres2 ->
        resource subres2 = BufferResource h2 ->
        {| handle := h2; offset := fst (bufferRange subres2);
           size := snd (bufferRange subres2) |} <> triple ->
        exists w2,
          glxBindDescriptors
            {| pipelineLayout := [(name, r)]; resources := res2 |} w1
          = Ok (tt, w2) /\
          calls w2 = calls w1 ++
                     [GlBindBufferRange (bindPointOf r) (localId r) h2
                        (to_GLintptr (fst (bufferRange subres2)))
                        (to_GLintptr (snd (bufferRange subres2)))]) /\
    (forall (res' : gmap Z Subresource) (name' : string) (r' : RegisterLayout)
            (subres' : Subresource) (h' : GLuint),
        0 <= GLv GL_UNIFORM_BUFFER < 2 ^ 32 ->
        0 <= GLv GL_SHADER_STORAGE_BUFFER < 2 ^ 32 ->
        res' !! globalId r' = Some subres' ->
        resource subres' = BufferResource h' ->
        localId r' <> localId r \/ bindPointOf r' <> bindPointOf r ->
        exists w2,
          glxBindDescriptors
            {| pipelineLayout := [(name', r')]; resources := res' |} w1
          = Ok (tt, w2) /\
          cached w2 key = triple /\
          glxBindDescriptors
            {| pipelineLayout := [(name, r)]; resources := res |} w2
          = Ok (tt, w2)).
Proof.
  intros Hres Hbuf Hbefore bindPointOf off sz key triple.
  assert (Hpoint : forall s, bindPointOf s = GLv (bufferBindPoint s)).
  { intros s. unfold bindPointOf, bufferBindPoint. destruct (type s); reflexivity. }
  assert (Hkey' : forall s,
             Z.lor (Z.shiftl (localId s) 32) (bindPointOf s)
             = baseKey (localId s) (bufferBindPoint s)).
  { intros s. rewrite Hpoint. reflexivity. }
  destruct (bindSlot_buffer_run res r subres h w0 Hres Hbuf)
    as (w1 & Hrun & Hcalls & Hkey & Hother & _).
  rewrite <- ?Hkey', <- ?Hpoint in Hcalls, Hkey, Hother.
  fold off sz key in Hcalls, Hkey, Hother. fold triple in Hkey.
  exists w1. split.
  { rewrite glxBindDescriptors_app. unfold bind at 1. rewrite Hbefore.
    rewrite glxBindDescriptors_single. exact Hrun. }
  split; [|split; [|split; [|split; [exact Hother | split; [|split]]]]].
  - intros Heq. rewrite Hcalls.
    rewrite (proj2 (sameRange_eq _ _ _ _) Heq). apply app_nil_r.
  - intros Hne. rewrite Hcalls, Hpoint.
    destruct (sameRange (cached w0 key) h off sz) eqn:Hsame; [|reflexivity].
    apply sameRange_eq in Hsame. contradiction.
  - unfold cached. rewrite Hkey. reflexivity.
  - rewrite glxBindDescriptors_single.
    apply (bindSlot_buffer_bound res r subres h w1 Hres Hbuf).
    rewrite <- Hkey'. exact Hkey.
  - intros res2 subres2 h2 Hres2 Hbuf2 Hdiff.
    destruct (bindSlot_buffer_run res2 r subres2 h2 w1 Hres2 Hbuf2)
      as (w2 & Hrun2 & Hcalls2 & _).
    exists w2. split; [rewrite glxBindDescriptors_single; exact Hrun2|].
    rewrite Hcalls2, Hpoint. rewrite <- Hkey'.
    fold key. unfold cached at 1. rewrite Hkey. cbn.
    destruct (sameRange triple h2 _ _) eqn:Hsame; [|reflexivity].
    apply sameRange_eq in Hsame. congruence.
  - intros res' name' r' subres' h' Hu Hs Hres' Hbuf' Hdiff.
    destruct (bindSlot_buffer_run res' r' subres' h' w1 Hres' Hbuf')
      as (w2 & Hrun2 & _ & _ & Hother2 & _).
    assert (Hrange : forall s, 0 <= GLv (bufferBindPoint s) < 2 ^ 32).
    { intros s. unfold bufferBindPoint. destruct (type s); assumption. }
    assert (Hne : key <> baseKey (localId r') (bufferBindPoint r')).
    { unfold key. rewrite Hkey'. intros Heq.
      apply baseKey_inj in Heq; [|apply Hrange..].
      destruct Heq as [Hl Hp]. rewrite <- !Hpoint in Hp.
      destruct Hdiff as [Hd | Hd]; [apply Hd; symmetry; exact Hl
                                   | apply Hd; symmetry; exact Hp]. }
    assert (Hkept : boundByBase (ctx w2) !! key = Some triple).
    { rewrite (bindSlot_buffer_lookup_kept res' r' subres' h' w1 w2 key
                 Hres' Hbuf' Hrun2 Hne).
      exact Hkey. }
    exists w2. split; [rewrite glxBindDescriptors_single; exact Hrun2|].
    split; [unfold cached; rewrite Hkept; reflexivity|].
    rewrite glxBindDescriptors_single.
    apply (bindSlot_buffer_bound res r subres h w2 Hres Hbuf).
    rewrite <- Hkey'. exact Hkept.
Qed.

(** *** The viewport and scissor caches *)

(** [w] after [glViewport] has been called for a new viewport. *)
Definition viewportSet (offset sz : Vec2) (w : World) : World :=
  {| ctx := setViewport offset sz (ctx w); framebuffers := framebuffers w;
     textures := textures w; swapchains := swapchains w;
     calls := calls w ++ [GlViewport (fst offset) (snd offset)
                            (to_GLsizei (fst sz)) (to_GLsizei (snd sz))] |}.

(** [w] after [glScissor] has been called for a new rectangle. *)
Definition scissorSet (offset sz : Vec2) (w : World) : World :=
  {| ctx := setScissor offset sz (ctx w); framebuffers := framebuffers w;
     textures := textures w; swapchains := swapchains w;
     calls := calls w ++ [GlScissor (fst offset) (snd offset)
                            (to_GLsizei (fst sz)) (to_GLsizei (snd sz))] |}.

(** [w] after the scissor test has been switched on. *)
Definition scissorEnabled (w : World) : World :=
  {| ctx := setEnableScissor true (ctx w); framebuffers := framebuffers w;
     textures := textures w; swapchains := swapchains w;
     calls := calls w ++ [GlEnable (GLv GL_SCISSOR_TEST)] |}.

Lemma resolveSize_inv (w w' : World) (size sz : Vec2) (msg : string) :
  resolveSize size msg w = Ok (sz, w') -> w' = w /\ resolved w size = Some sz.
Proof.
  unfold resolveSize, resolved.
  destruct ((fst size =? 0) || (snd size =? 0));
    [|intros [= -> ->]; split; reflexivity].
  unfold bind at 1, getCtx. unfold bind at 1.
  destruct (oicAssert _ _ w) as [[u w0]| |] eqn:Ha; try discriminate.
  apply oicAssert_inv in Ha. subst w0.
  destruct (currentFramebuffer (ctx w)) as [p|]; [|discriminate].
  unfold bind, derefFramebuffer, ret.
  destruct (framebuffers w !! p) as [f|]; [|discriminate].
  intros [= <- <-]. split; reflexivity.
Qed.

Lemma glxSetViewport_run (size offset sz : Vec2) (w : World) :
  resolved w size = Some sz ->
  glxSetViewport size offset w
  = Ok (tt, if vec2_eqb (viewportOff (ctx w)) offset &&
               vec2_eqb (viewportSize (ctx w)) sz
            then w else viewportSet offset sz w).
Proof.
  intros Hres. unfold glxSetViewport. unfold bind at 1.
  rewrite (resolveSize_resolved w size sz _ Hres). run_glx.
  destruct (vec2_eqb (viewportOff (ctx w)) offset),
           (vec2_eqb (viewportSize (ctx w)) sz); reflexivity.
Qed.

Lemma glxSetViewport_inv (size offset : Vec2) (w w1 : World) :
  glxSetViewport size offset w = Ok (tt, w1) ->
  exists sz, resolved w size = Some sz.
Proof.
  unfold glxSetViewport. unfold bind at 1.
  destruct (resolveSize size _ w) as [[sz w']| |] eqn:Hr; try discriminate.
  intros _. apply resolveSize_inv in Hr. exists sz. apply Hr.
Qed.

Lemma glxSetScissor_run (size offset sz : Vec2) (w : World) :
  resolved w size = Some sz ->
  glxSetScissor size offset w
  = Ok (tt, let w1 := if enableScissor (ctx w) then w else scissorEnabled w in
            if vec2_eqb (scissorOff (ctx w)) offset &&
               vec2_eqb (scissorSize (ctx w)) sz
            then w1 else scissorSet offset sz w1).
Proof.
  intros Hres. unfold glxSetScissor. unfold bind at 1.
  rewrite (resolveSize_resolved w size sz _ Hres). run_glx.
  destruct (enableScissor (ctx w)); cbn;
    destruct (vec2_eqb (scissorOff (ctx w)) offset),
             (vec2_eqb (scissorSize (ctx w)) sz); reflexivity.
Qed.

Lemma glxSetScissor_inv (size offset : Vec2) (w w1 : World) :
  glxSetScissor size offset w = Ok (tt, w1) ->
  exists sz, resolved w size = Some sz.
Proof.
  unfold glxSetScissor. unfold bind at 1.
  destruct (resolveSize size _ w) as [[sz w']| |] eqn:Hr; try discriminate.
  intros _. apply resolveSize_inv in Hr. exists sz. apply Hr.
Qed.

(** [w] after the scissor test has been switched off. *)
Definition scissorDisabled (w : World) : World :=
  {| ctx := setEnableScissor false (ctx w); framebuffers := framebuffers w;
     textures := textures w; swapchains := swapchains w;
     calls := calls w ++ [GlDisable (GLv GL_SCISSOR_TEST)] |}.

Lemma glxSetViewportAndScissor_run (size offset sz : Vec2) (w : World) :
  resolved w size = Some sz ->
  glxSetViewportAndScissor size offset w
  = Ok (tt, let w1 := if enableScissor (ctx w) then scissorDisabled w else w in
            if vec2_eqb (viewportOff (ctx w)) offset &&
               vec2_eqb (viewportSize (ctx w)) sz
            then w1 else viewportSet offset sz w1).
Proof.
  intros Hres. unfold glxSetViewportAndScissor. run_glx.
  destruct (enableScissor (ctx w)); cbn;
    (rewrite (glxSetViewport_run size offset sz); [reflexivity | exact Hres]).
Qed.

Lemma glxSetViewportAndScissor_inv (size offset : Vec2) (w w1 : World) :
  glxSetViewportAndScissor size offset w = Ok (tt, w1) ->
  exists sz, resolved w size = Some sz.
Proof.
  unfold glxSetViewportAndScissor. run_glx.
  destruct (enableScissor (ctx w)); cbn; intros Hrun;
    apply glxSetViewport_inv in Hrun; exact Hrun.
Qed.

(** X5. [glxSetViewport] caches the viewport: a call makes at most one GL
    call, and the same call made again right after it makes none and
    changes nothing. *)
Theorem glxSetViewport_idempotent (size offset : Vec2) (w w1 : World) :
  glxSetViewport size offset w = Ok (tt, w1) ->
  glxSetViewport size offset w1 = Ok (tt, w1) /\
  exists cs, calls w1 = calls w ++ cs /\ (length cs <= 1)%nat.
Proof.
  intros Hrun. destruct (glxSetViewport_inv _ _ _ _ Hrun) as (sz & Hres).
  rewrite (glxSetViewport_run size offset sz w Hres) in Hrun.
  injection Hrun as <-.
  destruct (vec2_eqb (viewportOff (ctx w)) offset &&
            vec2_eqb (viewportSize (ctx w)) sz) eqn:Hsame.
  - split; [|exists []; rewrite app_nil_r; split; [reflexivity | simpl; lia]].
    rewrite (glxSetViewport_run size offset sz w Hres), Hsame. reflexivity.
  - split; [|eexists; split; [reflexivity | simpl; lia]].
    rewrite (glxSetViewport_run size offset sz); [|exact Hres].
    cbn. rewrite !vec2_eqb_refl. reflexivity.
Qed.

(** X6. [glxSetScissor] caches the scissor state: a call makes at most two
    GL calls (the enabling of the test and the rectangle), and the same
    call made again right after it makes none and changes nothing. *)
Theorem glxSetScissor_idempotent (size offset : Vec2) (w w1 : World) :
  glxSetScissor size offset w = Ok (tt, w1) ->
  glxSetScissor size offset w1 = Ok (tt, w1) /\
  enableScissor (ctx w1) = true /\
  exists cs, calls w1 = calls w ++ cs /\ (length cs <= 2)%nat.
Proof.
  intros Hrun. destruct (glxSetScissor_inv _ _ _ _ Hrun) as (sz & Hres).
  rewrite (glxSetScissor_run size offset sz w Hres) in Hrun.
  injection Hrun as <-.
  assert (Hres' : forall w', currentFramebuffer (ctx w') = currentFramebuffer (ctx w) ->
                             framebuffers w' = framebuffers w ->
                             resolved w' size = Some sz).
  { intros w' Hc Hf. unfold resolved in *. rewrite Hc, Hf. exact Hres. }
  destruct (enableScissor (ctx w)) eqn:Hen;
    destruct (vec2_eqb (scissorOff (ctx w)) offset &&
              vec2_eqb (scissorSize (ctx w)) sz) eqn:Hsame; cbn.
  - split; [|split; [exact Hen|]].
    + rewrite (glxSetScissor_run size offset sz w Hres), Hen, Hsame. reflexivity.
    + exists []. rewrite app_nil_r. split; [reflexivity | simpl; lia].
  - split; [|split; [exact Hen|]].
    + rewrite (glxSetScissor_run size offset sz) by (apply Hres'; reflexivity).
      cbn. rewrite Hen, !vec2_eqb_refl. reflexivity.
    + eexists. split; [reflexivity | simpl; lia].
  - split; [|split; [reflexivity|]].
    + rewrite (glxSetScissor_run size offset sz) by (apply Hres'; reflexivity).
      cbn. rewrite Hsame. reflexivity.
    + eexists. split; [reflexivity | simpl; lia].
  - split; [|split; [reflexivity|]].
    + rewrite (glxSetScissor_run size offset sz) by (apply Hres'; reflexivity).
      cbn. rewrite !vec2_eqb_refl. reflexivity.
    + eexists. rewrite <- app_assoc. split; [reflexivity | simpl; lia].
Qed.

(** X7. [glxSetViewportAndScissor] switches the scissor test off but keeps
    the cached rectangle: setting the scissor it interrupted again makes the
    one [glEnable] call and no [glScissor] call. *)
Theorem glxSetScissor_after_viewport (size offset size' offset' : Vec2)
    (w w1 w2 : World) :
  glxSetScissor size offset w = Ok (tt, w1) ->
  glxSetViewportAndScissor size' offset' w1 = Ok (tt, w2) ->
  glxSetScissor size offset w2 = Ok (tt, scissorEnabled w2) /\
  scissorOff (ctx w2) = offset /\
  resolved w size = Some (scissorSize (ctx w2)).
Proof.
  intros Hrun1 Hrun2.
  destruct (glxSetScissor_inv _ _ _ _ Hrun1) as (sz & Hres).
  rewrite (glxSetScissor_run size offset sz w Hres) in Hrun1.
  injection Hrun1 as <-.
  destruct (glxSetViewportAndScissor_inv _ _ _ _ Hrun2) as (sz' & Hres').
  rewrite (glxSetViewportAndScissor_run size' offset' sz' _ Hres') in Hrun2.
  injection Hrun2 as <-.
  assert (Hkeep : forall w', currentFramebuffer (ctx w') = currentFramebuffer (ctx w) ->
                             framebuffers w' = framebuffers w ->
                             resolved w' size = Some sz).
  { intros w' Hc Hf. unfold resolved in *. rewrite Hc, Hf. exact Hres. }
  destruct (enableScissor (ctx w)) eqn:Hen;
    destruct (vec2_eqb (scissorOff (ctx w)) offset) eqn:Ho;
    destruct (vec2_eqb (scissorSize (ctx w)) sz) eqn:Hs; cbn in *;
    rewrite ?Hen in *; cbn in *;
    try apply vec2_eqb_eq in Ho; try apply vec2_eqb_eq in Hs;
    match goal with
    | |- context [if ?b then _ else viewportSet _ _ _] => destruct b
    end; cbn;
    (split; [|split; [auto | rewrite Hres; f_equal; auto]]);
    (rewrite (glxSetScissor_run size offset sz) by (apply Hkeep; reflexivity));
    cbn; rewrite ?Ho, ?Hs, ?vec2_eqb_refl; reflexivity.
Qed.

(** *** Resolving a descriptor set twice *)

(** The key of the cache entry of a buffer slot. *)
Definition slotKey (r : RegisterLayout) : Z :=
  baseKey (localId r) (bufferBindPoint r).

(** The triple a buffer slot binds. *)
Definition slotRange (subres : Subresource) (h : GLuint) : BoundRange :=
  {| handle := h; offset := fst (bufferRange subres);
     size := snd (bufferRange subres) |}.

(** The slots of a layout that have a resource. *)
Definition boundSlots (res : gmap Z Subresource)
    (layout : list (string * RegisterLayout)) : list RegisterLayout :=
  List.filter (fun r => bool_decide (is_Some (res !! globalId r)))
              (map snd layout).

(** Every resource of the slots of [layout] is a buffer. *)
Definition buffersOnly (res : gmap Z Subresource)
    (layout : list (string * RegisterLayout)) : Prop :=
  forall r subres, r ∈ map snd layout -> res !! globalId r = Some subres ->
                   exists h, resource subres = BufferResource h.

Lemma bindSlot_buffer_lookup (res : gmap Z Subresource) (r : RegisterLayout)
    (subres : Subresource) (h : GLuint) (w : World) :
  res !! globalId r = Some subres -> resource subres = BufferResource h ->
  exists w1,
    bindSlot res r w = Ok (tt, w1) /\
    boundByBase (ctx w1) !! slotKey r = Some (slotRange subres h) /\
    (forall k, k <> slotKey r ->
               boundByBase (ctx w1) !! k = boundByBase (ctx w) !! k) /\
    (length (calls w1) <= length (calls w) + 1)%nat.
Proof.
  intros Hres Hbuf. unfold bindSlot, slotKey, slotRange. rewrite Hres, Hbuf.
  run_glx.
  destruct (boundByBase (ctx w) !! _) as [b|] eqn:Hkey; cbn.
  - destruct (sameRange b h _ _) eqn:Hsame; cbn.
    + apply sameRange_eq in Hsame. subst b. exists w.
      repeat split; auto. lia.
    + eexists. split; [reflexivity|]. cbn.
      split; [apply lookup_insert_eq|]. split.
      * intros k Hk. apply lookup_insert_ne. congruence.
      * rewrite length_app. simpl. lia.
  - destruct (sameRange noRange h _ _) eqn:Hsame; cbn.
    + apply sameRange_eq in Hsame. eexists. split; [reflexivity|]. cbn.
      split; [rewrite lookup_insert_eq, Hsame; reflexivity|]. split.
      * intros k Hk. apply lookup_insert_ne. congruence.
      * lia.
    + eexists. split; [reflexivity|]. cbn.
      split; [apply lookup_insert_eq|]. split.
      * intros k Hk. rewrite !lookup_insert_ne by congruence. reflexivity.
      * rewrite length_app. simpl. lia.
Qed.

Lemma boundSlots_cons_bound (res : gmap Z Subresource)
    (slot : string * RegisterLayout)
    (rest : list (string * RegisterLayout)) (subres : Subresource) :
  res !! globalId (snd slot) = Some subres ->
  boundSlots res (slot :: rest) = snd slot :: boundSlots res rest.
Proof.
  intros Hres. unfold boundSlots. simpl.
  rewrite bool_decide_eq_true_2 by (exists subres; exact Hres). reflexivity.
Qed.

Lemma boundSlots_cons_unbound (res : gmap Z Subresource)
    (slot : string * RegisterLayout)
    (rest : list (string * RegisterLayout)) :
  res !! globalId (snd slot) = None ->
  boundSlots res (slot :: rest) = boundSlots res rest.
Proof.
  intros Hres. unfold boundSlots. simpl.
  rewrite bool_decide_eq_false_2; [reflexivity|].
  intros [x Hx]. congruence.
Qed.

(** The first resolution leaves the triple of every bound slot in the
    cache. *)
Lemma bindSlots_buffers_run (res : gmap Z Subresource)
    (layout : list (string * RegisterLayout)) :
  buffersOnly res layout ->
  NoDup (map slotKey (boundSlots res layout)) ->
  forall w,
  exists w1,
    forEach layout (fun slot => bindSlot res (snd slot)) w = Ok (tt, w1) /\
    (forall r subres h,
        r ∈ map snd layout -> res !! globalId r = Some subres ->
        resource subres = BufferResource h ->
        boundByBase (ctx w1) !! slotKey r = Some (slotRange subres h)) /\
    (forall k, k ∉ map slotKey (boundSlots res layout) ->
               boundByBase (ctx w1) !! k = boundByBase (ctx w) !! k) /\
    (length (calls w1) <= length (calls w) + length (boundSlots res layout))%nat.
Proof.
  induction layout as [|slot rest IH]; intros Hbuf Hnodup w.
  - exists w. simpl. repeat split; auto.
    + intros r subres h Hin. inversion Hin.
    + lia.
  - assert (Hbuf' : buffersOnly res rest).
    { intros r subres Hin. apply Hbuf. simpl. apply list_elem_of_further.
      exact Hin. }
    simpl forEach. unfold bind at 1.
    destruct (res !! globalId (snd slot)) as [subres|] eqn:Hres.
    + destruct (Hbuf (snd slot) subres) as (h & Hh);
        [simpl; apply list_elem_of_here | exact Hres |].
      rewrite (boundSlots_cons_bound res slot rest subres Hres) in *.
      simpl in Hnodup. apply NoDup_cons in Hnodup.
      destruct Hnodup as [Hfresh Hnodup].
      destruct (bindSlot_buffer_lookup res (snd slot) subres h w Hres Hh)
        as (w0 & Hrun0 & Hkey0 & Hframe0 & Hlen0).
      rewrite Hrun0.
      destruct (IH Hbuf' Hnodup w0) as (w1 & Hrun & Hkeys & Hframe & Hlen).
      exists w1. split; [exact Hrun|]. split; [|split].
      * intros r subres' h' Hin Hres' Hh'. simpl in Hin.
        apply elem_of_cons in Hin. destruct Hin as [-> | Hin].
        -- rewrite Hres in Hres'. injection Hres' as <-.
           rewrite Hh in Hh'. injection Hh' as <-.
           rewrite Hframe by exact Hfresh. exact Hkey0.
        -- apply (Hkeys r subres' h' Hin Hres' Hh').
      * intros k Hk. simpl in Hk. apply not_elem_of_cons in Hk.
        destruct Hk as [Hk1 Hk2].
        rewrite Hframe by exact Hk2. apply Hframe0. exact Hk1.
      * simpl. lia.
    + rewrite (boundSlots_cons_unbound res slot rest Hres) in *.
      assert (Hskip : bindSlot res (snd slot) w = Ok (tt, w)).
      { unfold bindSlot. rewrite Hres. reflexivity. }
      rewrite Hskip.
      destruct (IH Hbuf' Hnodup w) as (w1 & Hrun & Hkeys & Hframe & Hlen).
      exists w1. split; [exact Hrun|]. split; [|split; [exact Hframe | exact Hlen]].
      intros r subres' h' Hin Hres' Hh'. simpl in Hin.
      apply elem_of_cons in Hin. destruct Hin as [-> | Hin];
        [congruence|].
      apply (Hkeys r subres' h' Hin Hres' Hh').
Qed.

(** With the triple of every bound slot in the cache, a resolution does
    nothing. *)
Lemma bindSlots_buffers_cached (res : gmap Z Subresource)
    (layout : list (string * RegisterLayout)) (w : World) :
  buffersOnly res layout ->
  (forall r subres h,
      r ∈ map snd layout -> res !! globalId r = Some subres ->
      resource subres = BufferResource h ->
      boundByBase (ctx w) !! slotKey r = Some (slotRange subres h)) ->
  forEach layout (fun slot => bindSlot res (snd slot)) w = Ok (tt, w).
Proof.
  induction layout as [|slot rest IH]; intros Hbuf Hkeys; [reflexivity|].
  simpl forEach. unfold bind at 1.
  assert (Hslot : bindSlot res (snd slot) w = Ok (tt, w)).
  { destruct (res !! globalId (snd slot)) as [subres|] eqn:Hres.
    - destruct (Hbuf (snd slot) subres) as (h & Hh);
        [simpl; apply list_elem_of_here | exact Hres |].
      apply (bindSlot_buffer_bound res (snd slot) subres h w Hres Hh).
      apply (Hkeys (snd slot) subres h); [simpl; apply list_elem_of_here | | ];
        assumption.
    - unfold bindSlot. rewrite Hres. reflexivity. }
  rewrite Hslot. apply IH.
  - intros r subres Hin. apply Hbuf. simpl. apply list_elem_of_further. exact Hin.
  - intros r subres h Hin. apply Hkeys. simpl. apply list_elem_of_further.
    exact Hin.
Qed.

(** X9. A descriptor set that binds buffers only, to slots whose cache keys
    (binding point and bind-point category) differ from one another, is
    resolved with at most one [glBindBufferRange] per bound slot, and
    resolving it again right away makes no call and changes nothing. *)
Theorem glxBindDescriptors_buffers_idempotent (d : Descriptors) (w : World) :
  buffersOnly (resources d) (pipelineLayout d) ->
  NoDup (map slotKey (boundSlots (resources d) (pipelineLayout d))) ->
  exists w1,
    glxBindDescriptors d w = Ok (tt, w1) /\
    glxBindDescriptors d w1 = Ok (tt, w1) /\
    (length (calls w1)
     <= length (calls w) + length (boundSlots (resources d) (pipelineLayout d)))%nat.
Proof.
  intros Hbuf Hnodup. unfold glxBindDescriptors.
  destruct (bindSlots_buffers_run (resources d) (pipelineLayout d) Hbuf Hnodup w)
    as (w1 & Hrun & Hkeys & _ & Hlen).
  exists w1. split; [exact Hrun|]. split; [|exact Hlen].
  apply bindSlots_buffers_cached; assumption.
Qed.

(** *** Texture views *)

(** The view of [range] that [bindTexture] uses: the one the texture has,
    or a new one that is appended to its views. *)
Definition acquireView (p : Z) (tex : Texture) (range : TextureRange)
  : M World GLuint :=
  let found := findView (textureViews tex) range in
  if found =? 0 then
    (w <- get ;;
     let v := genName (calls w) in
     call (GlGenTextures v) ;;;
     target <- lift (glxTextureType (subType range)) ;;
     fmt <- lift (glxColorFormat (texFormat tex)) ;;
     call (GlTextureView v (GLv target) (texHandle tex) (GLv fmt)
             (minLevel range) (levelCount range)
             (minLayer range) (layerCount range)) ;;;
     let nm := (texName tex ++ " " ++
                to_string (N.of_nat (length (textureViews tex))))%string in
     call (GlObjectLabel (GLv GL_TEXTURE) v
             (to_GLsizei (Z.of_nat (String.length nm))) nm) ;;;
     modify (fun w =>
       setTextures
         (<[p := {| texName := texName tex;
                    texHandle := texHandle tex;
                    texFormat := texFormat tex;
                    textureViews := textureViews tex ++ [(range, v)] |}]>
            (textures w)) w) ;;;
     ret v)%m
  else ret found.

(** The binding of [view] to the texture unit or image unit of the slot. *)
Definition bindView (r : RegisterLayout) (format : GPUFormat) (view : GLuint)
  : M World unit :=
  if negb (isWritable r) then
    (let key := baseKey (localId r) GL_TEXTURE in
     b <- boundAt key ;;
     when (negb (handle b =? view))
          (updateBoundAt key {| handle := view; offset := offset b;
                                size := size b |} ;;;
           call (GlBindTextureUnit (localId r) view)))%m
  else
    (let key := baseKey (localId r) GL_IMAGE_2D in
     b <- boundAt key ;;
     when (negb (handle b =? view))
          (updateBoundAt key {| handle := view; offset := offset b;
                                size := size b |} ;;;
           fmt <- lift (glxColorFormat format) ;;
           call (GlBindImageTexture (localId r) view 0 (GLv GL_TRUE) 0
                   (GLv GL_WRITE_ONLY) (GLv fmt))))%m.

(** The cache key of the unit the slot binds its view to. *)
Definition viewKey (r : RegisterLayout) : Z :=
  baseKey (localId r) (if isWritable r then GL_IMAGE_2D else GL_TEXTURE).

Lemma bindTexture_steps (r : RegisterLayout) (subres : Subresource) (p : Z) :
  bindTexture r subres p
  = (tex <- derefTexture p ;;
     view <- acquireView p tex (textureRange subres) ;;
     bindView r (texFormat tex) view)%m.
Proof. reflexivity. Qed.

Lemma findView_new (views : list (TextureRange * GLuint))
    (range : TextureRange) (v : GLuint) :
  Forall (fun e => snd e <> 0) views -> findView views range = 0 ->
  findView (views ++ [(range, v)]) range = v.
Proof.
  induction 1 as [|[r x] rest Hx Hrest IH]; simpl.
  - intros _. destruct (decide (range = range)); congruence.
  - destruct (decide (r = range)); [simpl in Hx; congruence | exact IH].
Qed.

Lemma acquireView_inv (p : Z) (tex : Texture) (range : TextureRange)
    (w w' : World) (view : GLuint) :
  (forall t, genName t <> 0) ->
  textures w !! p = Some tex ->
  Forall (fun e => snd e <> 0) (textureViews tex) ->
  acquireView p tex range w = Ok (view, w') ->
  view <> 0 /\ ctx w' = ctx w /\ framebuffers w' = framebuffers w /\
  exists tex',
    textures w' !! p = Some tex' /\ texFormat tex' = texFormat tex /\
    findView (textureViews tex') range = view /\
    (length (textureViews tex') <= length (textureViews tex) + 1)%nat /\
    (findView (textureViews tex) range <> 0 -> w' = w).
Proof.
  intros Hgen Htex Hviews. unfold acquireView.
  destruct (findView (textureViews tex) range =? 0) eqn:Hfound.
  - apply Z.eqb_eq in Hfound. run_glx.
    destruct (glxTextureType (subType range)) as [target| |]; cbn;
      try discriminate.
    destruct (glxColorFormat (texFormat tex)) as [fmt| |]; cbn;
      try discriminate.
    intros [= <- <-]. cbn. split; [apply Hgen|]. split; [reflexivity|].
    split; [reflexivity|]. eexists. split; [apply lookup_insert_eq|]. cbn.
    split; [reflexivity|]. split; [apply findView_new; assumption|].
    split; [rewrite length_app; simpl; lia | congruence].
  - apply Z.eqb_neq in Hfound. unfold ret. intros [= <- <-].
    split; [exact Hfound|]. split; [reflexivity|]. split; [reflexivity|].
    exists tex. repeat split; auto. lia.
Qed.

Lemma bindView_inv (r : RegisterLayout) (format : GPUFormat) (view : GLuint)
    (w w1 : World) :
  bindView r format view w = Ok (tt, w1) ->
  textures w1 = textures w /\
  exists b, boundByBase (ctx w1) !! viewKey r = Some b /\ handle b = view.
Proof.
  unfold bindView, viewKey.
  destruct (isWritable r); cbn -[Z.eqb];
    unfold bind, call, modify, ret, when, fatal, lift, boundAt, updateBoundAt;
    cbn -[Z.eqb];
    (destruct (boundByBase (ctx w) !! _) as [b|] eqn:Hkey; cbn -[Z.eqb];
     match goal with
     | |- context [?h =? view] => destruct (h =? view) eqn:Hsame
     end; cbn -[Z.eqb];
     try (destruct (glxColorFormat format) as [fmt| |]; cbn -[Z.eqb];
          try discriminate);
     intros [= <-]; cbn -[Z.eqb]; (split; [reflexivity|]);
     try apply Z.eqb_eq in Hsame;
     eexists; (split; [first [exact Hkey | apply lookup_insert_eq]|]);
     first [exact Hsame | reflexivity]).
Qed.

Lemma bindView_cached (r : RegisterLayout) (format : GPUFormat)
    (view : GLuint) (w : World) (b : BoundRange) :
  boundByBase (ctx w) !! viewKey r = Some b -> handle b = view ->
  bindView r format view w = Ok (tt, w).
Proof.
  unfold bindView, viewKey. intros Hkey Hview.
  destruct (isWritable r); cbn; run_glx; rewrite Hkey; cbn;
    rewrite Hview, Z.eqb_refl; reflexivity.
Qed.

(** X10. A texture range gets its view once: when the driver hands out
    non-zero names, resolving a slot that a texture is bound to leaves the
    texture with a view of the range (at most one view more than before),
    and resolving the slot again right away creates no view, makes no call
    and changes nothing. *)
Theorem bindSlot_texture_idempotent (res : gmap Z Subresource)
    (r : RegisterLayout) (subres : Subresource) (p : Z) (tex : Texture)
    (w w1 : World) :
  res !! globalId r = Some subres -> resource subres = TextureResource p ->
  (forall t, genName t <> 0) ->
  textures w !! p = Some tex ->
  Forall (fun e => snd e <> 0) (textureViews tex) ->
  bindSlot res r w = Ok (tt, w1) ->
  bindSlot res r w1 = Ok (tt, w1) /\
  exists tex1,
    textures w1 !! p = Some tex1 /\
    findView (textureViews tex1) (textureRange subres) <> 0 /\
    (length (textureViews tex1) <= length (textureViews tex) + 1)%nat.
Proof.
  intros Hres Hbuf Hgen Htex Hviews. unfold bindSlot. rewrite Hres, Hbuf.
  rewrite !bindTexture_steps. unfold bind at 1. unfold derefTexture at 1.
  rewrite Htex. unfold bind at 1.
  destruct (acquireView p tex (textureRange subres) w) as [[view w']| |] eqn:Hacq;
    try discriminate.
  intros Hbind.
  destruct (acquireView_inv p tex _ w w' view Hgen Htex Hviews Hacq)
    as (Hview & _ & _ & tex' & Htex' & Hfmt & Hfound & Hlen & _).
  destruct (bindView_inv r _ view w' w1 Hbind) as (Htexs & b & Hkey & Hb).
  rewrite <- Htexs in Htex'.
  split.
  - unfold bind at 1. unfold derefTexture. rewrite Htex'. unfold bind at 1.
    unfold acquireView. rewrite Hfound.
    apply Z.eqb_neq in Hview. rewrite Hview. unfold ret.
    apply (bindView_cached r _ view w1 b Hkey Hb).
  - exists tex'. split; [exact Htex'|]. split; [congruence | exact Hlen].
Qed.

End Helpers.

(** *** The helpers on a concrete context *)

Definition emptyContext : GLContext :=
  {| bound := ∅; boundByBase := ∅; enableScissor := false;
     scissorOff := (0, 0); scissorSize := (0, 0);
     viewportOff := (0, 0); viewportSize := (0, 0);
     currentFramebuffer := None; vaos := ∅; deletedVaos := [];
     frameId := 0 |}.

Definition emptyWorld : World :=
  {| ctx := emptyContext; framebuffers := ∅; textures := ∅;
     swapchains := ∅; calls := [] |}.

(** A context whose scissor test is on, with the rectangle (1, 2) 30 x 40. *)
Definition scissored : World :=
  setCtx (fun c => setEnableScissor true (setScissor (1, 2) (30, 40) c))
         emptyWorld.

Definition nextName (t : list GLCall) : GLuint := 100 + Z.of_nat (length t).

Lemma glxSetViewportAndScissor_keeps_scissor_rectangle_witness :
  (exists w',
      glxSetViewportAndScissor headerValue TestsFirst (800, 600) (0, 0)
        scissored
      = Ok (tt, w') /\
      enableScissor (ctx w') = false /\
      scissorOff (ctx w') = (1, 2) /\ scissorSize (ctx w') = (30, 40) /\
      viewportSize (ctx w') = (800, 600) /\
      calls w' = [GlDisable 0x0C11; GlViewport 0 0 800 600]) /\
  (exists w',
      glxSetScissor headerValue TestsFirst (800, 600) (0, 0) scissored
      = Ok (tt, w') /\
      enableScissor (ctx w') = true /\
      scissorOff (ctx w') = (0, 0) /\ scissorSize (ctx w') = (800, 600) /\
      calls w' = [GlScissor 0 0 800 600]).
Proof.
  destruct (glxSetViewportAndScissor_keeps_scissor_rectangle headerValue
              TestsFirst (800, 600) (0, 0) (800, 600) scissored eq_refl)
    as [(w1 & Hrun1 & Hen1 & Hoff1 & Hsz1 & _ & Hvs1 & _ & _ & _ & _ & _ & _
             & _ & _ & _ & Hcalls1)
        (w2 & Hrun2 & Hen2 & Hoff2 & Hsz2 & Hcalls2)].
  split.
  - exists w1. repeat split; assumption.
  - exists w2. repeat split; assumption.
Defined.

(** A constant-buffer slot at binding point 2, and a buffer of handle 42. *)
Definition uniformSlot : RegisterLayout :=
  {| globalId := 5; localId := 2; type := CBUFFER; isWritable := false |}.

Definition noTextureRange : TextureRange :=
  {| minLevel := 0; levelCount := 1; minLayer := 0; layerCount := 1;
     subType := TEXTURE_2D |}.

Definition bufferAt (first size : Z) : Subresource :=
  {| resource := BufferResource 42; bufferRange := (first, size);
     textureRange := noTextureRange; samplerTexture := None |}.

(** The descriptor set of the one slot [uniformSlot], and a storage-buffer
    slot at the same binding point. *)
Definition cameraSet (res : gmap Z Subresource) : Descriptors :=
  {| pipelineLayout := [("camera"%string, uniformSlot)]; resources := res |}.

Definition storageSlot : RegisterLayout :=
  {| globalId := 6; localId := 2; type := OtherResourceType 1;
     isWritable := false |}.

Lemma glxBindDescriptors_buffer_deduplicated_witness :
  exists w1 w2 w3,
    glxBindDescriptors headerValue nextName (cameraSet {[ 5 := bufferAt 0 256 ]})
      emptyWorld
    = Ok (tt, w1) /\
    calls w1 = [GlBindBufferRange 0x8A11 2 42 0 256] /\
    glxBindDescriptors headerValue nextName (cameraSet {[ 5 := bufferAt 0 256 ]})
      w1
    = Ok (tt, w1) /\
    glxBindDescriptors headerValue nextName
      (cameraSet {[ 5 := bufferAt 256 256 ]}) w1
    = Ok (tt, w2) /\
    calls w2 = [GlBindBufferRange 0x8A11 2 42 0 256;
                GlBindBufferRange 0x8A11 2 42 256 256] /\
    glxBindDescriptors headerValue nextName
      {| pipelineLayout := [("particles"%string, storageSlot)];
         resources := {[ 6 := bufferAt 0 256 ]} |} w1
    = Ok (tt, w3) /\
    glxBindDescriptors headerValue nextName (cameraSet {[ 5 := bufferAt 0 256 ]})
      w3
    = Ok (tt, w3).
Proof.
  destruct (glxBindDescriptors_buffer_deduplicated headerValue nextName
              {[ 5 := bufferAt 0 256 ]} [] "camera" uniformSlot
              (bufferAt 0 256) 42 emptyWorld emptyWorld
              (lookup_singleton_eq _ _) eq_refl eq_refl)
    as (w1 & Hrun & _ & Hnew & _ & _ & Hagain & Hother & Hkeys).
  destruct (Hother {[ 5 := bufferAt 256 256 ]} (bufferAt 256 256) 42
              (lookup_singleton_eq _ _) eq_refl ltac:(discriminate))
    as (w2 & Hrun2 & Hcalls2).
  destruct (Hkeys {[ 6 := bufferAt 0 256 ]} "particles"%string storageSlot
              (bufferAt 0 256) 42 ltac:(simpl; lia) ltac:(simpl; lia)
              (lookup_singleton_eq _ _) eq_refl
              ltac:(right; simpl; discriminate))
    as (w3 & Hrun3 & _ & Hagain3).
  pose proof (Hnew ltac:(discriminate)) as Hcalls1.
  exists w1, w2, w3. rewrite Hcalls2, Hcalls1.
  split; [exact Hrun|]. split; [reflexivity|]. split; [exact Hagain|].
  split; [exact Hrun2|]. split; [reflexivity|]. split; [exact Hrun3|].
  exact Hagain3.
Defined.

(** A layout of two slots of which only the first has a resource. *)
Definition partlyBound : Descriptors :=
  {| pipelineLayout :=
       [ ("camera"%string, uniformSlot);
         ("lights"%string,
          {| globalId := 6; localId := 3; type := CBUFFER;
             isWritable := false |}) ];
     resources := {[ 5 := bufferAt 0 256 ]} |}.

Lemma glxBindDescriptors_skips_unbound_slots_witness :
  bindSlot headerValue nextName (resources partlyBound)
    {| globalId := 6; localId := 3; type := CBUFFER; isWritable := false |}
    scissored
  = Ok (tt, scissored) /\
  glxBindDescriptors headerValue nextName partlyBound emptyWorld
  = glxBindDescriptors headerValue nextName
      {| pipelineLayout := [("camera"%string, uniformSlot)];
         resources := resources partlyBound |} emptyWorld.
Proof.
  destruct (glxBindDescriptors_skips_unbound_slots headerValue nextName)
    as [Hslot Hall].
  split; [apply Hslot; apply lookup_singleton_ne; discriminate
         | apply (Hall partlyBound emptyWorld)].
Defined.

(** A read-only texture slot resolved twice: the view is created and bound
    once. *)
Example bindTexture_creates_one_view :
  let slot := {| globalId := 7; localId := 4;
                 type := OtherResourceType 1; isWritable := false |} in
  let sub := {| resource := TextureResource 1; bufferRange := (0, 0);
                textureRange := noTextureRange; samplerTexture := None |} in
  let w := setTextures {[ 1 := {| texName := "albedo"; texHandle := 9;
                                  texFormat := RGBA8;
                                  textureViews := [] |} ]} emptyWorld in
  match (bindSlot headerValue nextName {[ 7 := sub ]} slot ;;;
         bindSlot headerValue nextName {[ 7 := sub ]} slot)%m w with
  | Ok (_, w') =>
      calls w' = [GlGenTextures 100;
                  GlTextureView 100 0x0DE1 9 0x8058 0 1 0 1;
                  GlObjectLabel 0x1702 100 8 "albedo 0";
                  GlBindTextureUnit 4 100] /\
      textureViews <$> textures w' !! 1 = Some [(noTextureRange, 100)]
  | _ => False
  end.
Proof. vm_compute. split; reflexivity. Qed.

(** *** The caches on a concrete context *)

Lemma glxSetViewport_idempotent_witness :
  exists w1,
    glxSetViewport TestsFirst (800, 600) (0, 0) emptyWorld = Ok (tt, w1) /\
    calls w1 = [GlViewport 0 0 800 600] /\
    glxSetViewport TestsFirst (800, 600) (0, 0) w1 = Ok (tt, w1).
Proof.
  assert (Hrun : glxSetViewport TestsFirst (800, 600) (0, 0) emptyWorld
                 = Ok (tt, viewportSet (0, 0) (800, 600) emptyWorld))
    by reflexivity.
  exists (viewportSet (0, 0) (800, 600) emptyWorld).
  split; [exact Hrun|]. split; [reflexivity|].
  exact (proj1 (glxSetViewport_idempotent TestsFirst (800, 600) (0, 0)
                  emptyWorld _ Hrun)).
Defined.

Lemma glxSetScissor_idempotent_witness :
  exists w1,
    glxSetScissor headerValue TestsFirst (30, 40) (1, 2) emptyWorld = Ok (tt, w1) /\
    calls w1 = [GlEnable 0x0C11; GlScissor 1 2 30 40] /\
    glxSetScissor headerValue TestsFirst (30, 40) (1, 2) w1 = Ok (tt, w1).
Proof.
  assert (Hrun : glxSetScissor headerValue TestsFirst (30, 40) (1, 2) emptyWorld
                 = Ok (tt, scissorSet (1, 2) (30, 40)
                             (scissorEnabled headerValue emptyWorld)))
    by reflexivity.
  eexists. split; [exact Hrun|]. split; [reflexivity|].
  exact (proj1 (glxSetScissor_idempotent headerValue TestsFirst (30, 40) (1, 2)
                  emptyWorld _ Hrun)).
Defined.

(** The scissor (1, 2) 30 x 40, a viewport-and-scissor command, and the
    scissor again: one [glEnable], no second [glScissor]. *)
Lemma glxSetScissor_after_viewport_witness :
  exists w2 w3,
    glxSetViewportAndScissor headerValue TestsFirst (800, 600) (0, 0)
      scissored
    = Ok (tt, w2) /\
    glxSetScissor headerValue TestsFirst (30, 40) (1, 2) w2 = Ok (tt, w3) /\
    calls w3 = [GlDisable 0x0C11; GlViewport 0 0 800 600; GlEnable 0x0C11].
Proof.
  assert (Hrun1 : glxSetScissor headerValue TestsFirst (30, 40) (1, 2) scissored
                  = Ok (tt, scissored)) by reflexivity.
  assert (Hrun2 : glxSetViewportAndScissor headerValue TestsFirst (800, 600) (0, 0)
      scissored
                  = Ok (tt, viewportSet (0, 0) (800, 600)
                              (scissorDisabled headerValue scissored)))
    by reflexivity.
  exists (viewportSet (0, 0) (800, 600) (scissorDisabled headerValue scissored)),
         (scissorEnabled headerValue
            (viewportSet (0, 0) (800, 600)
               (scissorDisabled headerValue scissored))).
  split; [exact Hrun2|]. split; [|reflexivity].
  exact (proj1 (glxSetScissor_after_viewport headerValue TestsFirst (30, 40) (1, 2)
                  (800, 600) (0, 0) scissored scissored _ Hrun1 Hrun2)).
Defined.

(** Two constant buffers bound at the binding points 2 and 3. *)
Definition twoBuffers : Descriptors :=
  {| pipelineLayout :=
       [ ("camera"%string, uniformSlot);
         ("lights"%string,
          {| globalId := 6; localId := 3; type := CBUFFER;
             isWritable := false |}) ];
     resources := {[ 5 := bufferAt 0 256; 6 := bufferAt 256 128 ]} |}.

Lemma glxBindDescriptors_buffers_idempotent_witness :
  exists w1,
    glxBindDescriptors headerValue nextName twoBuffers emptyWorld = Ok (tt, w1) /\
    glxBindDescriptors headerValue nextName twoBuffers w1 = Ok (tt, w1) /\
    (length (calls w1) <= 2)%nat.
Proof.
  destruct (glxBindDescriptors_buffers_idempotent headerValue nextName
              twoBuffers emptyWorld) as (w1 & Hrun & Hagain & Hlen).
  - intros r subres Hin Hres. simpl in Hin.
    apply elem_of_cons in Hin. destruct Hin as [-> | Hin].
    + vm_compute in Hres. injection Hres as <-. exists 42. reflexivity.
    + apply list_elem_of_singleton in Hin. subst r.
      vm_compute in Hres. injection Hres as <-. exists 42. reflexivity.
  - apply (bool_decide_unpack _). vm_compute. exact I.
  - exists w1. split; [exact Hrun|]. split; [exact Hagain | exact Hlen].
Defined.

(** A read-only texture slot on a texture without views. *)
Lemma bindSlot_texture_idempotent_witness :
  let slot := {| globalId := 7; localId := 4;
                 type := OtherResourceType 1; isWritable := false |} in
  let sub := {| resource := TextureResource 1; bufferRange := (0, 0);
                textureRange := noTextureRange; samplerTexture := None |} in
  let albedo := {| texName := "albedo"; texHandle := 9; texFormat := RGBA8;
                   textureViews := [] |} in
  let w := setTextures {[ 1 := albedo ]} emptyWorld in
  exists w1,
    bindSlot headerValue nextName {[ 7 := sub ]} slot w = Ok (tt, w1) /\
    calls w1 = [GlGenTextures 100;
                GlTextureView 100 0x0DE1 9 0x8058 0 1 0 1;
                GlObjectLabel 0x1702 100 8 "albedo 0";
                GlBindTextureUnit 4 100] /\
    bindSlot headerValue nextName {[ 7 := sub ]} slot w1 = Ok (tt, w1).
Proof.
  intros slot sub albedo w.
  assert (Hrun : exists w1,
             bindSlot headerValue nextName {[ 7 := sub ]} slot w = Ok (tt, w1) /\
             calls w1 = [GlGenTextures 100;
                         GlTextureView 100 0x0DE1 9 0x8058 0 1 0 1;
                         GlObjectLabel 0x1702 100 8 "albedo 0";
                         GlBindTextureUnit 4 100]).
  { eexists. split; [vm_compute; reflexivity | reflexivity]. }
  destruct Hrun as (w1 & Hrun & Hcalls).
  exists w1. split; [exact Hrun|]. split; [exact Hcalls|].
  refine (proj1 (bindSlot_texture_idempotent headerValue nextName
                   {[ 7 := sub ]} slot sub 1 albedo w w1
                   (lookup_singleton_eq _ _) eq_refl _
                   (lookup_singleton_eq _ _) (Forall_nil_2 _) Hrun)).
  intros t. unfold nextName. lia.
Defined.

End Glx.

(** ** Graphics::execute and Graphics::present (gl_graphics.cpp) *)

Module Graphics.

Import GL Glx.

Section Submission.

(** The header's table of constants; the argument the assertion macro
    tests; the command lists, whose interpreter [CommandList::execute] is
    outside the sources; and the width in bits of [GLContext::frameId],
    whose declaration is outside them too. *)
Variable GLv : GLconst -> GLenum.
Variable reading : AssertReading.
Variable CommandList : Type.
Variable executeList : CommandList -> M World unit.
Variable frameIdBits : Z.

(** [Graphics::Data::updateContext]: the vertex arrays queued for deletion
    are deleted; [context.vaos[del]] inserts a null name for a key that is
    not there, and the key is erased. *)
Fixpoint deleteVaos (dels : list Z) (m : gmap Z GLuint)
  : list GLCall * gmap Z GLuint :=
  match dels with
  | [] => ([], m)
  | del :: rest =>
      let vao := default 0 (m !! del) in
      let r := deleteVaos rest (delete del m) in
      (GlDeleteVertexArrays vao :: fst r, snd r)
  end.

Definition updateContext : M World unit :=
  fun w =>
    let r := deleteVaos (deletedVaos (ctx w)) (vaos (ctx w)) in
    Ok (tt, {| ctx := setVaos (snd r) [] (ctx w);
               framebuffers := framebuffers w; textures := textures w;
               swapchains := swapchains w;
               calls := calls w ++ fst r |}).

(** [Graphics::execute] *)
Definition execute (commands : list CommandList) : M World unit :=
  (updateContext ;;; forEach commands executeList)%m.

Definition swapchainSize (p : Z) : M World Vec2 :=
  fun w => match swapchains w !! p with
           | Some s => Ok (s, w)
           | None => Undefined
           end.

(** [ctx.bound[where] = what] *)
Definition assignBound (where_ : GLconst) (what : GLuint) : M World unit :=
  modify (fun w => setCtx (setBound (<[GLv where_ := what]> (bound (ctx w)))) w).

(** [++ctx.frameId] *)
Definition nextFrame : M World unit :=
  modify (fun w => setCtx (setFrameId ((frameId (ctx w) + 1) mod 2 ^ frameIdBits)) w).

(** The body of [if (intermediate)]: the copy to the backbuffer.  The
    assertion is written with the message first and the condition second. *)
Definition copyToBackbuffer (intermediate swapchain : Z) : M World unit :=
  (f <- derefFramebuffer intermediate ;;
   let size := Framebuffer.size (Framebuffer.info f) in
   let rt := Framebuffer.renderTextures (Framebuffer.data f) in
   oicAssert reading
             (Literal "Framebuffer should have 1 render texture to copy")
             (Expression (negb (length rt =? 0)%nat)) ;;;
   s <- swapchainSize swapchain ;;
   glxSetViewportAndScissor GLv reading s (0, 0) ;;;
   f <- derefFramebuffer intermediate ;;
   let fb := Framebuffer.index (Framebuffer.data f) in
   assignBound GL_READ_FRAMEBUFFER fb ;;;
   assignBound GL_DRAW_FRAMEBUFFER 0 ;;;
   call (GlBlitNamedFramebuffer fb 0
           0 0 (to_GLsizei (fst size)) (to_GLsizei (snd size))
           0 (to_GLsizei (snd size)) (to_GLsizei (fst size)) 0
           (GLv GL_COLOR_BUFFER_BIT) (GLv GL_LINEAR)))%m.

Definition warning : string :=
  "Presenting without an intermediate is valid but won't provide any results to the swapchain".

(** [Graphics::present(intermediate, swapchain, commands)] *)
Definition present (intermediate swapchain : option Z)
    (commands : list CommandList) : M World unit :=
  match swapchain with
  | None => fatal "Couldn't present; invalid intermediate or swapchain"
  | Some sc =>
      (match intermediate with
       | None => call (LogWarn warning)
       | Some i =>
           (f <- derefFramebuffer i ;;
            s <- swapchainSize sc ;;
            if negb (vec2_eqb (Framebuffer.size (Framebuffer.info f)) s)
            then fatal "Couldn't present; swapchain and intermediate aren't same size"
            else ret tt)
       end ;;;
       call (SwapchainBind sc) ;;;
       execute commands ;;;
       match intermediate with
       | None => ret tt
       | Some i => copyToBackbuffer i sc
       end ;;;
       call (SwapchainPresent sc) ;;;
       nextFrame)%m
  end.

(** *** Presenting *)

(** [w] after the further calls [cs]. *)
Definition afterCalls (w : World) (cs : list GLCall) : World :=
  {| ctx := ctx w; framebuffers := framebuffers w; textures := textures w;
     swapchains := swapchains w; calls := calls w ++ cs |}.

(** A computation that, when it returns, leaves the frame counter alone. *)
Definition keepsFrame {A : Type} (m : M World A) : Prop :=
  forall w a w', m w = Ok (a, w') -> frameId (ctx w') = frameId (ctx w).

Lemma bind_inv {A B : Type} (m : M World A) (k : A -> M World B)
    (w w' : World) (b : B) :
  bind m k w = Ok (b, w') ->
  exists a w1, m w = Ok (a, w1) /\ k a w1 = Ok (b, w').
Proof.
  unfold bind. destruct (m w) as [[a w1]| |]; try discriminate.
  intros H. exists a, w1. auto.
Qed.

Lemma keepsFrame_bind {A B : Type} (m : M World A) (k : A -> M World B) :
  keepsFrame m -> (forall a, keepsFrame (k a)) -> keepsFrame (bind m k).
Proof.
  intros Hm Hk w b w' Hrun. apply bind_inv in Hrun.
  destruct Hrun as (a & w1 & H1 & H2).
  rewrite (Hk a w1 b w' H2). exact (Hm w a w1 H1).
Qed.

Lemma keepsFrame_ret {A : Type} (a : A) : keepsFrame (ret a).
Proof. intros w a' w' [= _ <-]. reflexivity. Qed.

Lemma keepsFrame_fatal {A : Type} (msg : string) :
  keepsFrame (fatal (A := A) msg).
Proof. intros w a w' [=]. Qed.

Lemma keepsFrame_call (c : GLCall) : keepsFrame (call c).
Proof. intros w a w' [= _ <-]. reflexivity. Qed.

Lemma keepsFrame_derefFramebuffer (p : Z) : keepsFrame (derefFramebuffer p).
Proof.
  intros w a w'. unfold derefFramebuffer.
  destruct (framebuffers w !! p); [intros [= _ <-]; reflexivity | discriminate].
Qed.

Lemma keepsFrame_swapchainSize (p : Z) : keepsFrame (swapchainSize p).
Proof.
  intros w a w'. unfold swapchainSize.
  destruct (swapchains w !! p); [intros [= _ <-]; reflexivity | discriminate].
Qed.

Lemma keepsFrame_assignBound (c : GLconst) (v : GLuint) :
  keepsFrame (assignBound c v).
Proof. intros w a w' [= _ <-]. reflexivity. Qed.

Lemma keepsFrame_updateContext : keepsFrame updateContext.
Proof. intros w a w' [= _ <-]. reflexivity. Qed.

Lemma keepsFrame_forEach {A : Type} (body : A -> M World unit) (xs : list A) :
  (forall x, keepsFrame (body x)) -> keepsFrame (forEach xs body).
Proof.
  intros Hbody. induction xs as [|x rest IH]; simpl.
  - apply keepsFrame_ret.
  - apply keepsFrame_bind; [apply Hbody | intros _; exact IH].
Qed.

Lemma keepsFrame_oicAssert (first second : AssertArg) :
  keepsFrame (oicAssert reading first second).
Proof.
  intros w a w' Hrun. apply oicAssert_inv in Hrun. subst w'. reflexivity.
Qed.

Lemma keepsFrame_glxSetViewportAndScissor (size offset : Vec2) :
  keepsFrame (glxSetViewportAndScissor GLv reading size offset).
Proof.
  unfold glxSetViewportAndScissor, glxSetViewport, resolveSize.
  apply keepsFrame_bind; [intros w a w' [= _ <-]; reflexivity | intros c].
  apply keepsFrame_bind.
  { unfold when. destruct (enableScissor c); [|apply keepsFrame_ret].
    apply keepsFrame_bind; [apply keepsFrame_call | intros _].
    intros w a w' [= _ <-]. reflexivity. }
  intros _. apply keepsFrame_bind.
  { destruct (_ || _); [|apply keepsFrame_ret].
    apply keepsFrame_bind; [intros w a w' [= _ <-]; reflexivity | intros c'].
    apply keepsFrame_bind; [apply keepsFrame_oicAssert | intros _].
    destruct (currentFramebuffer c'); [|intros w a w' [=]].
    apply keepsFrame_bind; [apply keepsFrame_derefFramebuffer | intros f].
    apply keepsFrame_ret. }
  intros sz. apply keepsFrame_bind;
    [intros w a w' [= _ <-]; reflexivity | intros c'].
  unfold when. destruct (_ || _); [|apply keepsFrame_ret].
  apply keepsFrame_bind; [|intros _; apply keepsFrame_call].
  intros w a w' [= _ <-]. reflexivity.
Qed.

Lemma keepsFrame_copyToBackbuffer (i sc : Z) :
  keepsFrame (copyToBackbuffer i sc).
Proof.
  unfold copyToBackbuffer.
  apply keepsFrame_bind; [apply keepsFrame_derefFramebuffer | intros f].
  apply keepsFrame_bind; [apply keepsFrame_oicAssert | intros _].
  apply keepsFrame_bind; [apply keepsFrame_swapchainSize | intros s].
  apply keepsFrame_bind; [apply keepsFrame_glxSetViewportAndScissor | intros _].
  apply keepsFrame_bind; [apply keepsFrame_derefFramebuffer | intros f'].
  apply keepsFrame_bind; [apply keepsFrame_assignBound | intros _].
  apply keepsFrame_bind; [apply keepsFrame_assignBound | intros _].
  apply keepsFrame_call.
Qed.

(** C5. [present] ends fatally when an intermediate surface is given whose
    size differs from the swapchain's.  Without an intermediate surface it
    logs a warning and goes on: the swapchain is bound, the command lists
    are executed, the swapchain is presented and the frame counter is
    incremented.  Whenever [present] returns, the frame counter of the
    context has advanced by one (in the arithmetic of the counter's type),
    command lists leaving the counter alone. *)
Theorem present_checks_and_advances :
  (forall (i sc : Z) (commands : list CommandList) (w : World)
          (f : Framebuffer.Framebuffer) (s : Vec2),
      framebuffers w !! i = Some f -> swapchains w !! sc = Some s ->
      Framebuffer.size (Framebuffer.info f) <> s ->
      present (Some i) (Some sc) commands w
      = Fatal "Couldn't present; swapchain and intermediate aren't same size") /\
  (forall (sc : Z) (commands : list CommandList) (w w1 : World),
      let w0 := afterCalls w [LogWarn warning; SwapchainBind sc] in
      present None (Some sc) commands w
      = (execute commands ;;; call (SwapchainPresent sc) ;;; nextFrame)%m w0 /\
      (execute commands w0 = Ok (tt, w1) ->
       present None (Some sc) commands w
       = Ok (tt, setCtx (setFrameId ((frameId (ctx w1) + 1) mod 2 ^ frameIdBits))
                        (afterCalls w1 [SwapchainPresent sc])))) /\
  ((forall cl, keepsFrame (executeList cl)) ->
   forall (i sc : option Z) (commands : list CommandList) (w w' : World),
     present i sc commands w = Ok (tt, w') ->
     frameId (ctx w') = (frameId (ctx w) + 1) mod 2 ^ frameIdBits).
Proof.
  split; [|split].
  - intros i sc commands w f s Hf Hs Hne. unfold present.
    unfold bind at 1. unfold bind at 1. unfold derefFramebuffer. rewrite Hf.
    unfold bind at 1. unfold swapchainSize. rewrite Hs.
    rewrite (proj2 (vec2_eqb_neq _ _) Hne). reflexivity.
  - intros sc commands w w1 w0.
    assert (Heq : present None (Some sc) commands w
                  = (execute commands ;;; call (SwapchainPresent sc) ;;; nextFrame)%m w0).
    { unfold present, w0, afterCalls. unfold bind at 1. unfold call at 1, modify.
      unfold bind at 1. unfold call at 1, modify. cbn. rewrite <- app_assoc.
      cbn [app]. unfold bind at 1.
      unfold bind at 3.
      destruct (execute commands _) as [[u w2]| |]; reflexivity. }
    split; [exact Heq|]. intros Hexec. rewrite Heq.
    unfold bind at 1. rewrite Hexec. reflexivity.
  - intros Hlists i sc commands w w' Hrun. unfold present in Hrun.
    destruct sc as [sc|]; [|discriminate].
    apply bind_inv in Hrun. destruct Hrun as (u1 & w1 & H1 & Hrun).
    apply bind_inv in Hrun. destruct Hrun as (u2 & w2 & H2 & Hrun).
    apply bind_inv in Hrun. destruct Hrun as (u3 & w3 & H3 & Hrun).
    apply bind_inv in Hrun. destruct Hrun as (u4 & w4 & H4 & Hrun).
    apply bind_inv in Hrun. destruct Hrun as (u5 & w5 & H5 & Hrun).
    unfold nextFrame, modify in Hrun. injection Hrun as <-. cbn.
    assert (F1 : frameId (ctx w1) = frameId (ctx w)).
    { revert H1. destruct i as [i|]; [|apply keepsFrame_call].
      apply keepsFrame_bind; [apply keepsFrame_derefFramebuffer | intros f].
      apply keepsFrame_bind; [apply keepsFrame_swapchainSize | intros s].
      destruct (negb _); [apply keepsFrame_fatal | apply keepsFrame_ret]. }
    assert (F2 : frameId (ctx w2) = frameId (ctx w1))
      by exact (keepsFrame_call _ _ _ _ H2).
    assert (F3 : frameId (ctx w3) = frameId (ctx w2)).
    { revert H3. unfold execute.
      apply keepsFrame_bind; [apply keepsFrame_updateContext | intros _].
      apply keepsFrame_forEach. exact Hlists. }
    assert (F4 : frameId (ctx w4) = frameId (ctx w3)).
    { revert H4. destruct i as [i|];
        [apply keepsFrame_copyToBackbuffer | apply keepsFrame_ret]. }
    assert (F5 : frameId (ctx w5) = frameId (ctx w4))
      by exact (keepsFrame_call _ _ _ _ H5).
    congruence.
Qed.

(** *** The queue of deleted vertex arrays and the copy to the backbuffer *)

Lemma deleteVaos_spec (dels : list Z) :
  forall m : gmap Z GLuint,
  let r := deleteVaos dels m in
  length (fst r) = length dels /\
  (forall k, k ∈ dels -> snd r !! k = None) /\
  (forall k, k ∉ dels -> snd r !! k = m !! k) /\
  (forall k v, k ∈ dels -> m !! k = Some v -> GlDeleteVertexArrays v ∈ fst r).
Proof.
  induction dels as [|del rest IH]; intros m; cbn [deleteVaos fst snd].
  - split; [reflexivity|]. split; [intros k Hk; inversion Hk|].
    split; [reflexivity | intros k v Hk; inversion Hk].
  - destruct (IH (delete del m)) as (Hlen & Hgone & Hkept & Hcalls).
    split; [simpl; rewrite Hlen; reflexivity|]. split; [|split].
    + intros k Hk. destruct (decide (k ∈ rest)) as [Hin | Hout].
      * apply Hgone. exact Hin.
      * rewrite Hkept by exact Hout. apply elem_of_cons in Hk.
        destruct Hk as [-> | Hk]; [apply lookup_delete_eq | contradiction].
    + intros k Hk. apply not_elem_of_cons in Hk. destruct Hk as [Hne Hout].
      rewrite Hkept by exact Hout. apply lookup_delete_ne. congruence.
    + intros k v Hk Hv. destruct (decide (k = del)) as [-> | Hne].
      * unfold GLuint in *. rewrite Hv. apply list_elem_of_here.
      * apply list_elem_of_further. apply (Hcalls k v).
        -- apply elem_of_cons in Hk. destruct Hk; [contradiction | assumption].
        -- rewrite lookup_delete_ne by congruence. exact Hv.
Qed.

(** X11. [updateContext] empties the queue of deleted vertex arrays: it
    makes one [glDeleteVertexArrays] call per queued entry, among them one
    for the name of each queued buffer that has a vertex array, erases the
    queued keys from the table and leaves the other keys alone; run again
    right away it makes no call and changes nothing. *)
Theorem updateContext_flushes (w : World) :
  exists w1 cs,
    updateContext w = Ok (tt, w1) /\
    deletedVaos (ctx w1) = [] /\
    (forall k, k ∈ deletedVaos (ctx w) -> vaos (ctx w1) !! k = None) /\
    (forall k, k ∉ deletedVaos (ctx w) ->
               vaos (ctx w1) !! k = vaos (ctx w) !! k) /\
    calls w1 = calls w ++ cs /\
    length cs = length (deletedVaos (ctx w)) /\
    (forall k v, k ∈ deletedVaos (ctx w) -> vaos (ctx w) !! k = Some v ->
                 GlDeleteVertexArrays v ∈ cs) /\
    updateContext w1 = Ok (tt, w1).
Proof.
  destruct (deleteVaos_spec (deletedVaos (ctx w)) (vaos (ctx w)))
    as (Hlen & Hgone & Hkept & Hcalls).
  eexists _, _. split; [reflexivity|]. cbn.
  split; [reflexivity|]. split; [exact Hgone|]. split; [exact Hkept|].
  split; [reflexivity|]. split; [exact Hlen|]. split; [exact Hcalls|].
  unfold updateContext. cbn. rewrite app_nil_r. reflexivity.
Qed.

Lemma bind_ok {A B : Type} (m : M World A) (k : A -> M World B)
    (w : World) (a : A) (w' : World) :
  m w = Ok (a, w') -> bind m k w = k a w'.
Proof. unfold bind. intros ->. reflexivity. Qed.

(** X12. The copy of the intermediate surface to the backbuffer never
    reads the colour textures of the surface: the one test on them is an
    assertion written message first.  When the assertion passes, as it does
    whenever the surface has a colour texture and, for a surface without
    one, under every reading of the macro but the one that tests the second
    argument, the copy switches the scissor test off, sets the viewport to
    the swapchain's size, records the surface's framebuffer as the read
    framebuffer and 0 as the draw framebuffer, and ends with one blit of
    the colour buffer whose destination rectangle is the source rectangle
    flipped vertically.  Under the reading that tests the second argument a
    surface without colour texture ends the run with the message. *)
Theorem copyToBackbuffer_blits (i sc : Z) (w : World)
    (f : Framebuffer.Framebuffer) (s : Vec2) :
  framebuffers w !! i = Some f -> swapchains w !! sc = Some s ->
  fst s <> 0 -> snd s <> 0 ->
  let fb := Framebuffer.index (Framebuffer.data f) in
  let width := to_GLsizei (fst (Framebuffer.size (Framebuffer.info f))) in
  let height := to_GLsizei (snd (Framebuffer.size (Framebuffer.info f))) in
  (reading = TestsSecond ->
   Framebuffer.renderTextures (Framebuffer.data f) = [] ->
   copyToBackbuffer i sc w
   = Fatal "Framebuffer should have 1 render texture to copy") /\
  (reading <> TestsSecond \/
   Framebuffer.renderTextures (Framebuffer.data f) <> [] ->
   exists w1,
     copyToBackbuffer i sc w = Ok (tt, w1) /\
     enableScissor (ctx w1) = false /\
     viewportOff (ctx w1) = (0, 0) /\ viewportSize (ctx w1) = s /\
     bound (ctx w1) !! GLv GL_DRAW_FRAMEBUFFER = Some 0 /\
     (GLv GL_READ_FRAMEBUFFER <> GLv GL_DRAW_FRAMEBUFFER ->
      bound (ctx w1) !! GLv GL_READ_FRAMEBUFFER = Some fb) /\
     last (calls w1)
     = Some (GlBlitNamedFramebuffer fb 0 0 0 width height 0 height width 0
               (GLv GL_COLOR_BUFFER_BIT) (GLv GL_LINEAR))).
Proof.
  intros Hf Hs Hw Hh fb width height.
  assert (Hres : forall w', resolved w' s = Some s).
  { intros w'. unfold resolved. apply Z.eqb_neq in Hw, Hh.
    rewrite Hw, Hh. reflexivity. }
  unfold copyToBackbuffer.
  rewrite (bind_ok _ _ w f w) by (unfold derefFramebuffer; rewrite Hf; reflexivity).
  split.
  - intros Hreading Hnil. unfold bind, oicAssert. rewrite Hreading, Hnil.
    reflexivity.
  - intros Hpass.
    rewrite (bind_ok _ _ w tt w).
    2: { unfold oicAssert.
         destruct reading; cbn [truth]; try reflexivity.
         destruct (Framebuffer.renderTextures (Framebuffer.data f));
           [destruct Hpass; contradiction | reflexivity]. }
    rewrite (bind_ok _ _ w s w) by (unfold swapchainSize; rewrite Hs; reflexivity).
    set (w0 := if enableScissor (ctx w) then scissorDisabled GLv w else w).
    set (w' := if vec2_eqb (viewportOff (ctx w)) (0, 0) &&
                  vec2_eqb (viewportSize (ctx w)) s
               then w0 else viewportSet (0, 0) s w0).
    rewrite (bind_ok _ _ w tt w')
      by (rewrite (glxSetViewportAndScissor_run GLv reading s (0, 0) s w (Hres w));
          reflexivity).
    assert (Hf0 : framebuffers w' = framebuffers w /\
                  enableScissor (ctx w') = false /\
                  viewportOff (ctx w') = (0, 0) /\ viewportSize (ctx w') = s).
    { unfold w', w0.
      destruct (enableScissor (ctx w)) eqn:Hen; cbn;
        destruct (vec2_eqb (viewportOff (ctx w)) (0, 0)) eqn:Ho;
        destruct (vec2_eqb (viewportSize (ctx w)) s) eqn:Hsz; cbn;
        try apply vec2_eqb_eq in Ho; try apply vec2_eqb_eq in Hsz;
        repeat split; auto. }
    destruct Hf0 as (Hfb & Hen' & Hoff' & Hsize').
    rewrite (bind_ok _ _ w' f w')
      by (unfold derefFramebuffer; rewrite Hfb, Hf; reflexivity).
    fold fb width height. unfold bind, assignBound, call, modify. cbn.
    eexists. split; [reflexivity|]. cbn.
    split; [exact Hen'|]. split; [exact Hoff'|]. split; [exact Hsize'|].
    split; [apply lookup_insert_eq|]. split.
    + intros Hdiff. rewrite lookup_insert_ne by congruence.
      apply lookup_insert_eq.
    + apply last_snoc.
Qed.

End Submission.

(** *** Presenting on a concrete context

    A command list of the examples replays the calls it holds; the frame
    counter is 64 bits wide and the assertion macro tests its second
    argument.  Swapchain 1 is 800 x 600 and framebuffer 2 has one colour
    attachment. *)

Definition replay (cl : list GLCall) : M World unit := forEach cl call.

Definition stage (intermediateSize : Vec2) : World :=
  {| ctx := emptyContext;
     framebuffers :=
       {[ 2 := {| Framebuffer.name := "scene";
                  Framebuffer.info :=
                    Framebuffer.setSize (Framebuffer.info Framebuffer.halfScale)
                                        intermediateSize;
                  Framebuffer.data :=
                    {| Framebuffer.index := 7; Framebuffer.depth := 9;
                       Framebuffer.renderTextures := [8] |} |} ]};
     textures := ∅;
     swapchains := {[ 1 := (800, 600) ]};
     calls := [] |}.

Definition presentOn : option Z -> option Z -> list (list GLCall) -> M World unit :=
  present headerValue TestsSecond (list GLCall) replay 64.

Lemma replay_keepsFrame (cl : list GLCall) : keepsFrame (replay cl).
Proof.
  unfold replay. induction cl as [|c rest IH]; simpl.
  - intros w a w' [= _ <-]. reflexivity.
  - intros w a w' Hrun. unfold bind in Hrun. cbn in Hrun.
    rewrite (IH _ _ _ Hrun). reflexivity.
Qed.

Lemma present_checks_and_advances_witness :
  presentOn (Some 2) (Some 1) [] (stage (400, 300))
  = Fatal "Couldn't present; swapchain and intermediate aren't same size" /\
  (exists w',
      presentOn None (Some 1) [[GlEnable 1]] (stage (800, 600)) = Ok (tt, w') /\
      calls w' = [LogWarn warning; SwapchainBind 1; GlEnable 1;
                  SwapchainPresent 1] /\
      frameId (ctx w') = 1) /\
  (exists w',
      presentOn (Some 2) (Some 1) [] (stage (800, 600)) = Ok (tt, w') /\
      frameId (ctx w') = 1 /\
      calls w' = [SwapchainBind 1; GlViewport 0 0 800 600;
                  GlBlitNamedFramebuffer 7 0 0 0 800 600 0 600 800 0
                    0x4000 0x2601;
                  SwapchainPresent 1]).
Proof.
  destruct (present_checks_and_advances headerValue TestsSecond (list GLCall)
              replay 64)
    as (Hfatal & Hwarn & Hframe).
  split; [|split].
  - eapply Hfatal;
      [apply lookup_singleton_eq | apply lookup_singleton_eq | discriminate].
  - eexists. split.
    + apply (fun w1 => proj2 (Hwarn 1 [[GlEnable 1]] (stage (800, 600)) w1)).
      vm_compute. reflexivity.
    + split; vm_compute; reflexivity.
  - eexists. split; [vm_compute; reflexivity|].
    split; [|vm_compute; reflexivity].
    refine (Hframe replay_keepsFrame (Some 2) (Some 1) []
                   (stage (800, 600)) _ _).
    vm_compute. reflexivity.
Defined.

(** The stage with a framebuffer 3 that has no colour attachment. *)
Definition bareStage : World :=
  {| ctx := emptyContext;
     framebuffers :=
       {[ 3 := {| Framebuffer.name := "bare";
                  Framebuffer.info :=
                    Framebuffer.setSize (Framebuffer.info Framebuffer.halfScale)
                                        (800, 600);
                  Framebuffer.data :=
                    {| Framebuffer.index := 7; Framebuffer.depth := 9;
                       Framebuffer.renderTextures := [] |} |} ]};
     textures := ∅;
     swapchains := {[ 1 := (800, 600) ]};
     calls := [] |}.

(** The copy of framebuffer 2 to the backbuffer of swapchain 1, and the copy
    of framebuffer 3 under two readings of the assertion macro. *)
Lemma copyToBackbuffer_blits_witness :
  (exists w1,
      copyToBackbuffer headerValue TestsSecond 2 1 (stage (800, 600))
      = Ok (tt, w1) /\
      bound (ctx w1) !! 0x8CA8 = Some 7 /\ bound (ctx w1) !! 0x8CA9 = Some 0 /\
      last (calls w1)
      = Some (GlBlitNamedFramebuffer 7 0 0 0 800 600 0 600 800 0 0x4000 0x2601)) /\
  (exists w1,
      copyToBackbuffer headerValue TestsFirst 3 1 bareStage = Ok (tt, w1) /\
      last (calls w1)
      = Some (GlBlitNamedFramebuffer 7 0 0 0 800 600 0 600 800 0 0x4000 0x2601)) /\
  copyToBackbuffer headerValue TestsSecond 3 1 bareStage
  = Fatal "Framebuffer should have 1 render texture to copy".
Proof.
  split; [|split].
  - destruct (proj2 (copyToBackbuffer_blits headerValue TestsSecond 2 1
                       (stage (800, 600)) _ (800, 600)
                       (lookup_singleton_eq _ _) (lookup_singleton_eq _ _)
                       ltac:(discriminate) ltac:(discriminate))
                    ltac:(right; discriminate))
      as (w1 & Hrun & _ & _ & _ & Hdraw & Hread & Hlast).
    exists w1. split; [exact Hrun|].
    split; [exact (Hread ltac:(discriminate))|].
    split; [exact Hdraw | exact Hlast].
  - destruct (proj2 (copyToBackbuffer_blits headerValue TestsFirst 3 1
                       bareStage _ (800, 600)
                       (lookup_singleton_eq _ _) (lookup_singleton_eq _ _)
                       ltac:(discriminate) ltac:(discriminate))
                    ltac:(left; discriminate))
      as (w1 & Hrun & _ & _ & _ & _ & _ & Hlast).
    exists w1. split; [exact Hrun | exact Hlast].
  - exact (proj1 (copyToBackbuffer_blits headerValue TestsSecond 3 1
                    bareStage _ (800, 600)
                    (lookup_singleton_eq _ _) (lookup_singleton_eq _ _)
                    ltac:(discriminate) ltac:(discriminate))
                 eq_refl eq_refl).
Defined.

End Graphics.

(** ** The command structures (the commands header) *)

Module Commands.

Section Draw.

(** [Command] and the operation codes are declared in command_list.hpp and
    command_ops.hpp, outside the sources at hand: a command records the code
    and the size its constructor passes on. *)
Variable CommandOp : Type.
Variable CMD_DRAW_INSTANCED : CommandOp.
Variable sizeofDrawInstanced : Z.

Record DrawInstanced : Type := mkDrawInstanced {
  opCode : CommandOp;
  commandSize : Z;
  start : Z;
  count : Z;
  instanceCount : Z;
  instanceStart : Z;
  vertexStart : Z;
  isIndexed : bool
}.

(** [DrawInstanced(count, instanceCount, start, instanceStart)] *)
Definition drawInstanced (count instanceCount start instanceStart : Z)
  : DrawInstanced :=
  {| opCode := CMD_DRAW_INSTANCED; commandSize := sizeofDrawInstanced;
     start := start; count := count; instanceCount := instanceCount;
     instanceStart := instanceStart; vertexStart := 0; isIndexed := false |}.

(** [DrawInstanced::indexed(count, instanceCount, start, instanceStart,
    vertexStart)] *)
Definition indexed (count' instanceCount' start' instanceStart' vertexStart' : Z)
  : DrawInstanced :=
  let di := drawInstanced count' instanceCount' start' instanceStart' in
  {| opCode := opCode di; commandSize := commandSize di;
     start := start di; count := count di;
     instanceCount := instanceCount di; instanceStart := instanceStart di;
     vertexStart := vertexStart'; isIndexed := isIndexed di |}.

(** X17. [DrawInstanced::indexed] sets the vertex start and nothing else:
    the command it builds has [isIndexed] false, and with a vertex start of 0
    it is the command the plain constructor builds, so that no
    [DrawInstanced] command built by either has [isIndexed] set. *)
Theorem indexed_leaves_isIndexed_unset
    (count' instanceCount' start' instanceStart' vertexStart' : Z) :
  let di := indexed count' instanceCount' start' instanceStart' vertexStart' in
  isIndexed di = false /\
  indexed count' instanceCount' start' instanceStart' 0
  = drawInstanced count' instanceCount' start' instanceStart' /\
  (di = drawInstanced count' instanceCount' start' instanceStart'
   <-> vertexStart' = 0).
Proof.
  cbv zeta. split; [reflexivity|]. split; [reflexivity|]. split.
  - intros [= H]. exact H.
  - intros ->. reflexivity.
Qed.

End Draw.

Section Debug.

(** [template<CommandOp opCode, usz maxStringLength = 64> struct DebugOp] *)
Variable maxStringLength : nat.

(** [c8 string[maxStringLength]] *)
Definition Chars : Type := list Byte.byte.

(** The constructor: the array is zeroed and the bytes of [str] are copied
    to its front. *)
Definition debugOp (str : list Byte.byte) : Result Chars :=
  if (maxStringLength <? length str)%nat then
    Fatal "Couldn't add debug operation; string is too big"
  else Ok (str ++ repeat Byte.x00 (maxStringLength - length str)).

(** [strlen] on the array: the number of bytes before the first zero byte;
    without one, the scan leaves the array. *)
Fixpoint strlen (chars : Chars) : Result nat :=
  match chars with
  | [] => Undefined
  | c :: rest =>
      if Byte.eqb c Byte.x00 then Ok O
      else rbind (strlen rest) (fun n => Ok (S n))
  end.

(** [DebugOp::size()] *)
Definition size (chars : Chars) : Result nat :=
  rbind (strlen chars) (fun n =>
    Ok (if (maxStringLength <=? n)%nat then maxStringLength else n)).

Lemma strlen_app (s rest : list Byte.byte) :
  Byte.x00 ∉ s -> strlen (s ++ rest) = rbind (strlen rest) (fun n => Ok (length s + n)%nat).
Proof.
  induction s as [|c s IH]; intros Hno; simpl.
  - destruct (strlen rest); reflexivity.
  - apply not_elem_of_cons in Hno. destruct Hno as [Hc Hs].
    destruct (Byte.eqb c Byte.x00) eqn:Heq;
      [apply Byte.byte_dec_bl in Heq; congruence|].
    rewrite (IH Hs). destruct (strlen rest); reflexivity.
Qed.

(** X18. A debug string of fewer than [maxStringLength] bytes without a zero
    byte is stored as it is, and [size()] gives its length back; a string
    with a zero byte is cut at the first one.  A string of more than
    [maxStringLength] bytes is refused.  A string of exactly
    [maxStringLength] bytes without a zero byte is accepted, fills the array
    and leaves it unterminated: [size()] then scans past the end of the
    array. *)
Theorem debugOp_size :
  (forall str, (length str < maxStringLength)%nat -> Byte.x00 ∉ str ->
     exists chars, debugOp str = Ok chars /\
                   length chars = maxStringLength /\
                   take (length str) chars = str /\
                   size chars = Ok (length str)) /\
  (forall s1 s2, (length (s1 ++ Byte.x00 :: s2) <= maxStringLength)%nat ->
     Byte.x00 ∉ s1 ->
     exists chars, debugOp (s1 ++ Byte.x00 :: s2) = Ok chars /\
                   size chars = Ok (length s1)) /\
  (forall str, (maxStringLength < length str)%nat ->
     debugOp str = Fatal "Couldn't add debug operation; string is too big") /\
  (forall str, length str = maxStringLength -> Byte.x00 ∉ str ->
     debugOp str = Ok str /\ size str = Undefined).
Proof.
  split; [|split; [|split]].
  - intros str Hlen Hno. unfold debugOp.
    assert (Hlt : (maxStringLength <? length str)%nat = false)
      by (apply Nat.ltb_ge; lia).
    rewrite Hlt. eexists. split; [reflexivity|].
    split; [rewrite length_app, repeat_length; lia|].
    split; [apply take_app_length|].
    unfold size. rewrite (strlen_app _ _ Hno).
    destruct (maxStringLength - length str)%nat as [|k] eqn:Hk; [lia|].
    simpl. rewrite Nat.add_0_r.
    assert (Hle : (maxStringLength <=? length str)%nat = false)
      by (apply Nat.leb_gt; lia).
    rewrite Hle. reflexivity.
  - intros s1 s2 Hlen Hno. unfold debugOp.
    assert (Hlt : (maxStringLength <? length (s1 ++ Byte.x00 :: s2))%nat = false)
      by (apply Nat.ltb_ge; lia).
    rewrite Hlt. eexists. split; [reflexivity|].
    unfold size. rewrite <- app_assoc. rewrite (strlen_app _ _ Hno). simpl.
    rewrite Nat.add_0_r. rewrite length_app in Hlen. simpl in Hlen.
    assert (Hle : (maxStringLength <=? length s1)%nat = false)
      by (apply Nat.leb_gt; lia).
    rewrite Hle. reflexivity.
  - intros str Hlen. unfold debugOp.
    assert (Hlt : (maxStringLength <? length str)%nat = true)
      by (apply Nat.ltb_lt; lia).
    rewrite Hlt. reflexivity.
  - intros str Hlen Hno. unfold debugOp.
    assert (Hlt : (maxStringLength <? length str)%nat = false)
      by (apply Nat.ltb_ge; lia).
    rewrite Hlt, Hlen, Nat.sub_diag. simpl. rewrite app_nil_r.
    split; [reflexivity|]. unfold size.
    rewrite <- (app_nil_r str) at 1. rewrite (strlen_app _ _ Hno). reflexivity.
Qed.

End Debug.

(** Strings of three and of four bytes in an array of four. *)
Lemma debugOp_size_witness :
  let a := Byte.x61 in
  (exists chars, debugOp 4 [a; a; a] = Ok chars /\ size 4 chars = Ok 3%nat) /\
  debugOp 4 [a; a; a; a] = Ok [a; a; a; a] /\
  size 4 [a; a; a; a] = Undefined /\
  debugOp 4 [a; a; a; a; a]
  = Fatal "Couldn't add debug operation; string is too big".
Proof.
  intros a. destruct (debugOp_size 4) as (Hshort & _ & Hlong & Hfull).
  assert (Hno : forall l, Forall (fun c => c = a) l -> Byte.x00 ∉ l).
  { intros l Hl Hin. rewrite Forall_forall in Hl.
    specialize (Hl _ Hin). discriminate. }
  split; [|split; [|split]].
  - destruct (Hshort [a; a; a]) as (chars & Hrun & _ & _ & Hsize);
      [simpl; lia | apply Hno; repeat constructor |].
    exists chars. split; assumption.
  - apply (Hfull [a; a; a; a]); [reflexivity | apply Hno; repeat constructor].
  - apply (Hfull [a; a; a; a]); [reflexivity | apply Hno; repeat constructor].
  - apply (Hlong [a; a; a; a; a]). simpl. lia.
Defined.

End Commands.

(** ** Graphics::Data (gl_graphics.hpp) *)

Module GraphicsData.

Import GL.

(** The fields of [Graphics::Data] that [bind] and [version] read or
    write. *)
Record Data : Type := mkData {
  bound : gmap Z GLuint;
  major : Z;
  minor : Z
}.

Definition setBound (m : gmap Z GLuint) (d : Data) : Data :=
  {| bound := m; major := major d; minor := minor d |}.

Section Bind.

(** The calls [bindFunc] stands for. *)
Context {Call : Type}.

(** [Data::bind(bindFunc, where, what)], on the data block and the calls
    made. *)
Definition bind (bindFunc : GLenum -> GLuint -> Call) (where_ : GLenum)
    (what : GLuint) : M (Data * list Call) unit :=
  fun s =>
    let d := fst s in
    if match bound d !! where_ with
       | None => true
       | Some v => negb (v =? what)
       end
    then Ok (tt, (setBound (<[where_ := what]> (bound d)) d,
                  snd s ++ [bindFunc where_ what]))
    else Ok (tt, s).

(** X19. [Data::bind] calls the bind function exactly when the target is not
    in the table or holds another object: binding object 0 to a target that
    was never bound does make the call.  Afterwards the table holds the
    object under the target and is unchanged elsewhere, and the same bind
    again makes no call and changes nothing. *)
Theorem bind_deduplicates (bindFunc : GLenum -> GLuint -> Call)
    (where_ : GLenum) (what : GLuint) (d : Data) (cs : list Call) :
  exists d1 cs1,
    bind bindFunc where_ what (d, cs) = Ok (tt, (d1, cs1)) /\
    bound d1 !! where_ = Some what /\
    (forall k, k <> where_ -> bound d1 !! k = bound d !! k) /\
    major d1 = major d /\ minor d1 = minor d /\
    (bound d !! where_ = Some what -> cs1 = cs /\ d1 = d) /\
    (bound d !! where_ <> Some what -> cs1 = cs ++ [bindFunc where_ what]) /\
    bind bindFunc where_ what (d1, cs1) = Ok (tt, (d1, cs1)).
Proof.
  unfold bind. cbn -[Z.eqb].
  destruct (bound d !! where_) as [v|] eqn:Hv.
  - destruct (v =? what) eqn:Heq; cbn -[Z.eqb].
    + apply Z.eqb_eq in Heq. subst v. exists d, cs.
      rewrite Hv, Z.eqb_refl. cbn -[Z.eqb].
      split; [reflexivity|]. split; [exact Hv|]. split; [reflexivity|].
      split; [reflexivity|]. split; [reflexivity|].
      split; [intros _; split; reflexivity|].
      split; [intros Hne; contradiction | reflexivity].
    + apply Z.eqb_neq in Heq. eexists _, _. split; [reflexivity|]. cbn -[Z.eqb].
      rewrite !lookup_insert_eq. cbn -[Z.eqb]. rewrite Z.eqb_refl. cbn -[Z.eqb].
      split; [reflexivity|].
      split; [intros k Hk; apply lookup_insert_ne; congruence|].
      split; [reflexivity|]. split; [reflexivity|].
      split; [intros [= Hv']; contradiction|].
      split; [intros _; reflexivity | reflexivity].
  - eexists _, _. split; [reflexivity|]. cbn -[Z.eqb].
    rewrite !lookup_insert_eq. cbn -[Z.eqb]. rewrite Z.eqb_refl. cbn -[Z.eqb].
    split; [reflexivity|].
    split; [intros k Hk; apply lookup_insert_ne; congruence|].
    split; [reflexivity|]. split; [reflexivity|].
    split; [intros [=]|].
    split; [intros _; reflexivity | reflexivity].
Qed.

End Bind.

(** [Data::getVersion(major, minor)] *)
Definition getVersion (major minor : Z) : Z :=
  Z.lor (Z.shiftl major 32) minor.

(** [Data::version(maj, min)] *)
Definition version (d : Data) (maj min : Z) : bool :=
  getVersion maj min <=? getVersion (major d) (minor d).

Lemma getVersion_sum (major minor : Z) :
  0 <= minor < 2 ^ 32 -> getVersion major minor = major * 2 ^ 32 + minor.
Proof.
  intros Hv. unfold getVersion.
  assert (Hland : Z.land (Z.shiftl major 32) minor = 0).
  { apply Z.bits_inj'. intros n Hn. rewrite Z.land_spec, Z.bits_0.
    destruct (Z.lt_ge_cases n 32) as [Hlt | Hge].
    - rewrite Z.shiftl_spec_low by lia. reflexivity.
    - rewrite andb_comm.
      destruct (Z.eq_dec minor 0) as [-> | Hv0]; [rewrite Z.bits_0; reflexivity|].
      rewrite Z.bits_above_log2; [reflexivity | lia |].
      apply Z.log2_lt_pow2; [lia|].
      apply Z.lt_le_trans with (2 ^ 32); [lia | apply Z.pow_le_mono_r; lia]. }
  rewrite <- Z.lxor_lor by exact Hland.
  rewrite <- Z.add_nocarry_lxor by exact Hland.
  rewrite Z.shiftl_mul_pow2 by lia. reflexivity.
Qed.

(** X20. [version(maj, min)] compares versions lexicographically: for
    32-bit minor numbers it holds exactly when the context's major number is
    above [maj], or equals it with a minor number of at least [min]. *)
Theorem version_lexicographic (d : Data) (maj min : Z) :
  0 <= minor d < 2 ^ 32 -> 0 <= min < 2 ^ 32 ->
  (version d maj min = true
   <-> maj < major d \/ (maj = major d /\ min <= minor d)).
Proof.
  intros Hminor Hmin. unfold version.
  rewrite !getVersion_sum by assumption. rewrite Z.leb_le. split.
  - intros Hle. destruct (Z.lt_trichotomy maj (major d)) as [Hlt | [Heq | Hgt]].
    + left. exact Hlt.
    + right. split; [exact Heq|]. subst maj. lia.
    + exfalso. nia.
  - intros [Hlt | [-> Hle]]; [nia | lia].
Qed.

Lemma version_lexicographic_witness :
  let d := {| bound := ∅; major := 4; minor := 5 |} in
  version d 4 3 = true /\ version d 3 9 = true /\ version d 4 6 = false.
Proof.
  intros d.
  pose proof (fun maj min Hm =>
                version_lexicographic d maj min ltac:(simpl; lia) Hm) as Hv.
  split; [|split].
  - apply (Hv 4 3); [lia|]. right. split; [reflexivity | simpl; lia].
  - apply (Hv 3 9); [lia|]. left. simpl. lia.
  - destruct (version d 4 6) eqn:Hb; [|reflexivity].
    apply (Hv 4 6) in Hb; [|lia]. simpl in Hb. lia.
Defined.

End GraphicsData.

(** ** The usage hint of a buffer (glxBufferHint) *)

Module BufferHint.

(** The names of the usage hints; their values come from the Khronos
    header. *)
Inductive Hint : Type :=
| GL_DYNAMIC_DRAW | GL_STATIC_DRAW | GL_DYNAMIC_COPY | GL_STATIC_COPY.

Section Hints.

(** [enum class GPUMemoryUsage : u8] is declared in graphics/enums.hpp,
    outside the sources at hand: its enumerators are variables. *)
Variable CPU_WRITE : N.
Variable GPU_WRITE : N.

(** [constexpr GLenum type[]] *)
Definition type : list Hint :=
  [GL_DYNAMIC_DRAW; GL_STATIC_DRAW; GL_DYNAMIC_COPY; GL_STATIC_COPY].

(** [glxBufferHint(usage)]: the name of the constant it returns. *)
Definition glxBufferHint (usage : N) : Hint :=
  let id := 0%N in
  let id := if (N.land usage CPU_WRITE =? 0)%N then
              let id := N.lor id 2 in
              if (N.land usage GPU_WRITE =? 0)%N then N.lor id 1 else id
            else id in
  nth (N.to_nat id) type GL_DYNAMIC_DRAW.

(** X21. [glxBufferHint] never answers [GL_STATIC_DRAW]: a usage the CPU
    writes is hinted [GL_DYNAMIC_DRAW], a usage that only the GPU writes
    [GL_DYNAMIC_COPY], and a usage nobody writes [GL_STATIC_COPY]. *)
Theorem glxBufferHint_never_static_draw (usage : N) :
  glxBufferHint usage <> GL_STATIC_DRAW /\
  (glxBufferHint usage = GL_DYNAMIC_DRAW <-> N.land usage CPU_WRITE <> 0%N) /\
  (glxBufferHint usage = GL_DYNAMIC_COPY
   <-> N.land usage CPU_WRITE = 0%N /\ N.land usage GPU_WRITE <> 0%N) /\
  (glxBufferHint usage = GL_STATIC_COPY
   <-> N.land usage CPU_WRITE = 0%N /\ N.land usage GPU_WRITE = 0%N).
Proof.
  unfold glxBufferHint.
  destruct (N.land usage CPU_WRITE =? 0)%N eqn:Hc;
    [destruct (N.land usage GPU_WRITE =? 0)%N eqn:Hg|];
    rewrite ?N.eqb_eq, ?N.eqb_neq in *; simpl;
    (split; [discriminate|]);
    repeat split; intros; try discriminate; try tauto; try congruence;
    try (destruct H; congruence).
Qed.

End Hints.

End BufferHint.

(** ** The vertex array of a primitive buffer (glxGenerateVao) *)

Module Vao.

Import GL.

(** The names of the component types; their values come from the Khronos
    header. *)
Inductive ComponentType : Type :=
| GL_HALF_FLOAT | GL_FLOAT
| GL_BYTE | GL_UNSIGNED_BYTE
| GL_SHORT | GL_UNSIGNED_SHORT
| GL_INT | GL_UNSIGNED_INT.

(** The calls [glxGenerateVao] makes; [glCreateVertexArrays] carries the
    name the driver returned. *)
Inductive VaoCall : Type :=
| GlCreateVertexArrays (vao : GLuint)
| GlObjectLabelVertexArray (vao : GLuint) (len : Z) (label : string)
| GlVertexArrayVertexBuffer (vao : GLuint) (bindingIndex : Z) (buf : GLuint)
    (offset stride : Z)
| GlEnableVertexArrayAttrib (vao : GLuint) (index : Z)
| GlVertexArrayAttribFormat (vao : GLuint) (index : Z) (size : Z)
    (type : ComponentType) (normalized : bool) (relativeOffset : Z)
| GlVertexArrayAttribBinding (vao : GLuint) (index : Z) (bindingIndex : Z)
| GlVertexArrayBindingDivisor (vao : GLuint) (index : Z) (divisor : Z)
| GlVertexArrayElementBuffer (vao : GLuint) (buf : GLuint).

(** An element of a [BufferAttributes]. *)
Record Attribute : Type := mkAttribute {
  index : Z;
  format : GPUFormat;
  offset : Z
}.

(** A vertex layout as [glxGenerateVao] reads it: the native handle of its
    buffer ([None] for a null buffer), its offset and stride, whether it is
    instanced, and its attributes in iteration order. *)
Record Layout : Type := mkLayout {
  bufferHandle : option GLuint;
  bufferOffset : Z;
  stride : Z;
  instanced : bool;
  formats : list Attribute
}.

(** What [glxGenerateVao] reads of a [PrimitiveBuffer]. *)
Record Primitive : Type := mkPrimitive {
  name : string;
  vertexLayout : list Layout;
  isIndexed : bool;
  indexHandle : option GLuint
}.

Section Generate.

(** [FormatHelper] (graphics/format.hpp) is outside the sources at hand:
    whether the type of a format is [GPUFormatType::FLOAT], its stride in
    bits, whether it is signed, its channel count and whether it is
    unnormalized are variables.  [created] is the name
    [glCreateVertexArrays] returns. *)
Variable isFloat : GPUFormat -> bool.
Variable getStrideBits : GPUFormat -> Z.
Variable isSigned : GPUFormat -> bool.
Variable getChannelCount : GPUFormat -> Z.
Variable isUnnormalized : GPUFormat -> bool.
Variable created : GLuint.

(** [glxGpuFormatType]: the name of the constant it returns. *)
Definition glxGpuFormatType (type : GPUFormat) : Result ComponentType :=
  let error := Fatal "Unsupported GPU format" in
  let stride := getStrideBits type in
  if isFloat type then
    if stride =? 16 then Ok GL_HALF_FLOAT
    else if stride =? 32 then Ok GL_FLOAT
    else error
  else
    if stride =? 8 then Ok (if isSigned type then GL_BYTE else GL_UNSIGNED_BYTE)
    else if stride =? 16 then
      Ok (if isSigned type then GL_SHORT else GL_UNSIGNED_SHORT)
    else if stride =? 32 then
      Ok (if isSigned type then GL_INT else GL_UNSIGNED_INT)
    else error.

Definition call (c : VaoCall) : M (list VaoCall) unit :=
  modify (fun t => t ++ [c]).

(** The body of [for (auto &elem : v.formats)]. *)
Definition attribute (handle : GLuint) (i : Z) (v : Layout) (elem : Attribute)
  : M (list VaoCall) unit :=
  (call (GlEnableVertexArrayAttrib handle (index elem)) ;;;
   type <- lift (glxGpuFormatType (format elem)) ;;
   call (GlVertexArrayAttribFormat handle (index elem)
           (to_GLsizei (getChannelCount (format elem))) type
           (negb (isUnnormalized (format elem))) (offset elem)) ;;;
   call (GlVertexArrayAttribBinding handle (index elem) i) ;;;
   when (instanced v) (call (GlVertexArrayBindingDivisor handle (index elem) 1)))%m.

(** The body of [for (auto &v : info.vertexLayout)]; [i] is the local
    [u32 i{}], which the loop does not change.  [glVertexArrayVertexBuffer]
    takes the offset as a [GLintptr] and the stride as a [GLsizei]: the
    [usz] offset and the unsigned 32-bit stride are converted. *)
Definition layout (handle : GLuint) (i : Z) (v : Layout)
  : M (list VaoCall) unit :=
  match bufferHandle v with
  | None => undefined
  | Some buf =>
      (call (GlVertexArrayVertexBuffer handle i buf
               (to_GLintptr (bufferOffset v)) (to_GLsizei (stride v))) ;;;
       forEach (formats v) (attribute handle i v))%m
  end.

(** [glxGenerateVao(prim)] *)
Definition glxGenerateVao (prim : Primitive) : M (list VaoCall) GLuint :=
  (let handle := created in
   call (GlCreateVertexArrays handle) ;;;
   call (GlObjectLabelVertexArray handle
           (to_GLsizei (Z.of_nat (String.length (name prim)))) (name prim)) ;;;
   let i := 0 in
   forEach (vertexLayout prim) (layout handle i) ;;;
   (if isIndexed prim then
      match indexHandle prim with
      | None => undefined
      | Some buf => call (GlVertexArrayElementBuffer handle buf)
      end
    else ret tt) ;;;
   ret handle)%m.

(** The binding index a call names, if it names one. *)
Definition bindingIndexOf (c : VaoCall) : option Z :=
  match c with
  | GlVertexArrayVertexBuffer _ i _ _ _ => Some i
  | GlVertexArrayAttribBinding _ _ i => Some i
  | _ => None
  end.

(** The buffers attached to the binding index [i], in the order of the
    calls. *)
Definition attachedAt (i : Z) (cs : list VaoCall) : list GLuint :=
  flat_map (fun c => match c with
                     | GlVertexArrayVertexBuffer _ j buf _ _ =>
                         if j =? i then [buf] else []
                     | _ => []
                     end) cs.

(** Every call of [cs] that names a binding index names [i]. *)
Definition bindsOnly (i : Z) (cs : list VaoCall) : Prop :=
  Forall (fun c => forall j, bindingIndexOf c = Some j -> j = i) cs.

(** The layouts and formats [glxGenerateVao] can go through. *)
Definition supported (prim : Primitive) : Prop :=
  Forall (fun v => is_Some (bufferHandle v) /\
                   Forall (fun elem => isOk (glxGpuFormatType (format elem)) = true)
                          (formats v))
         (vertexLayout prim) /\
  (isIndexed prim = true -> is_Some (indexHandle prim)).

Ltac run_vao :=
  unfold bind, call, modify, lift, ret, when; cbn.

Lemma attribute_run (handle i : Z) (v : Layout) (elem : Attribute)
    (t : list VaoCall) :
  isOk (glxGpuFormatType (format elem)) = true ->
  exists ext,
    attribute handle i v elem t = Ok (tt, t ++ ext) /\
    bindsOnly i ext /\ attachedAt i ext = [].
Proof.
  intros Hok. unfold attribute.
  destruct (glxGpuFormatType (format elem)) as [ty| |]; try discriminate.
  run_vao. destruct (instanced v); cbn; rewrite <- !app_assoc; cbn;
    (eexists; split; [reflexivity|]; split;
     [repeat constructor; intros j [=]; congruence | reflexivity]).
Qed.

Lemma attribute_inv (handle i : Z) (v : Layout) (elem : Attribute)
    (t t' : list VaoCall) :
  attribute handle i v elem t = Ok (tt, t') ->
  isOk (glxGpuFormatType (format elem)) = true.
Proof.
  unfold attribute. run_vao.
  destruct (glxGpuFormatType (format elem)) as [ty| |]; cbn;
    [reflexivity | discriminate | discriminate].
Qed.

Lemma attributes_run (handle i : Z) (v : Layout) (elems : list Attribute) :
  Forall (fun elem => isOk (glxGpuFormatType (format elem)) = true) elems ->
  forall t,
  exists ext,
    forEach elems (attribute handle i v) t = Ok (tt, t ++ ext) /\
    bindsOnly i ext /\ attachedAt i ext = [].
Proof.
  induction 1 as [|elem rest Hok Hrest IH]; intros t.
  - exists []. simpl. unfold ret. rewrite app_nil_r.
    repeat split; constructor.
  - destruct (attribute_run handle i v elem t Hok) as (e1 & Hrun1 & Hb1 & Ha1).
    destruct (IH (t ++ e1)) as (e2 & Hrun2 & Hb2 & Ha2).
    exists (e1 ++ e2). simpl. unfold bind. rewrite Hrun1, Hrun2, <- app_assoc.
    split; [reflexivity|]. split; [apply Forall_app; split; assumption|].
    unfold attachedAt in *. rewrite flat_map_app, Ha1, Ha2. reflexivity.
Qed.

Lemma attributes_inv (handle i : Z) (v : Layout) (elems : list Attribute) :
  forall t t',
  forEach elems (attribute handle i v) t = Ok (tt, t') ->
  Forall (fun elem => isOk (glxGpuFormatType (format elem)) = true) elems.
Proof.
  induction elems as [|elem rest IH]; intros t t'; [constructor|].
  simpl. unfold bind at 1.
  destruct (attribute handle i v elem t) as [[[] t1]| |] eqn:H1; try discriminate.
  intros Hrest. constructor; [exact (attribute_inv _ _ _ _ _ _ H1)|].
  exact (IH _ _ Hrest).
Qed.

Lemma layouts_run (handle i : Z) (vl : list Layout) :
  Forall (fun v => is_Some (bufferHandle v) /\
                   Forall (fun elem => isOk (glxGpuFormatType (format elem)) = true)
                          (formats v)) vl ->
  forall t,
  exists ext,
    forEach vl (layout handle i) t = Ok (tt, t ++ ext) /\
    bindsOnly i ext /\
    Some <$> attachedAt i ext = map bufferHandle vl.
Proof.
  induction 1 as [|v rest [[buf Hbuf] Hfmts] Hrest IH]; intros t.
  - exists []. simpl. unfold ret. rewrite app_nil_r.
    repeat split; constructor.
  - simpl forEach. unfold bind at 1. unfold layout at 1. rewrite Hbuf.
    run_vao.
    destruct (attributes_run handle i v (formats v) Hfmts
                (t ++ [GlVertexArrayVertexBuffer handle i buf (to_GLintptr (bufferOffset v))
                         (to_GLsizei (stride v))]))
      as (e1 & Hrun1 & Hb1 & Ha1).
    rewrite Hrun1.
    destruct (IH ((t ++ [GlVertexArrayVertexBuffer handle i buf (to_GLintptr (bufferOffset v))
                         (to_GLsizei (stride v))]) ++ e1))
      as (e2 & Hrun2 & Hb2 & Ha2).
    rewrite Hrun2.
    exists ([GlVertexArrayVertexBuffer handle i buf (to_GLintptr (bufferOffset v))
                         (to_GLsizei (stride v))]
            ++ e1 ++ e2).
    rewrite <- !app_assoc. split; [reflexivity|]. split.
    + apply Forall_app. split; [|apply Forall_app; split; assumption].
      repeat constructor. intros j [= <-]. reflexivity.
    + unfold attachedAt in *. rewrite !flat_map_app, Ha1. simpl.
      rewrite Z.eqb_refl. simpl. rewrite Hbuf. f_equal. exact Ha2.
Qed.

Lemma layouts_inv (handle i : Z) (vl : list Layout) :
  forall t t',
  forEach vl (layout handle i) t = Ok (tt, t') ->
  Forall (fun v => is_Some (bufferHandle v) /\
                   Forall (fun elem => isOk (glxGpuFormatType (format elem)) = true)
                          (formats v)) vl.
Proof.
  induction vl as [|v rest IH]; intros t t'; [constructor|].
  simpl. unfold bind at 1. unfold layout at 1.
  destruct (bufferHandle v) as [buf|] eqn:Hbuf; [|discriminate].
  unfold bind at 1. unfold call at 1, modify.
  destruct (forEach (formats v) _ _) as [[[] t1]| |] eqn:Hattrs; try discriminate.
  intros Hrest. constructor; [|exact (IH _ _ Hrest)].
  split; [exists buf; exact Hbuf|]. exact (attributes_inv _ _ _ _ _ _ Hattrs).
Qed.

(** X22. [glxGenerateVao] never advances its binding index: whenever it
    returns, every vertex-buffer call and every attribute-binding call it
    has made names the binding index 0, so that the buffers of all vertex
    layouts are attached, one after the other, to that one index.  It
    returns, with the name the driver created, exactly when every vertex
    layout has a buffer and formats with a component type, and the index
    buffer is there if the primitive is indexed. *)
Theorem glxGenerateVao_binds_index_zero (prim : Primitive) :
  (supported prim ->
   exists cs, glxGenerateVao prim [] = Ok (created, cs)) /\
  (forall handle cs,
      glxGenerateVao prim [] = Ok (handle, cs) ->
      handle = created /\ supported prim /\ bindsOnly 0 cs /\
      Some <$> attachedAt 0 cs = map bufferHandle (vertexLayout prim)).
Proof.
  assert (Hrun : supported prim ->
                 exists cs, glxGenerateVao prim [] = Ok (created, cs) /\
                            bindsOnly 0 cs /\
                            Some <$> attachedAt 0 cs
                            = map bufferHandle (vertexLayout prim)).
  { intros [Hlayouts Hindex]. unfold glxGenerateVao. run_vao.
    destruct (layouts_run created 0 (vertexLayout prim) Hlayouts
                [GlCreateVertexArrays created;
                 GlObjectLabelVertexArray created
                   (to_GLsizei (Z.of_nat (String.length (name prim))))
                   (name prim)])
      as (ext & Hrun & Hb & Ha).
    rewrite Hrun.
    set (c1 := GlCreateVertexArrays created) in *.
    set (c2 := GlObjectLabelVertexArray created
                 (to_GLsizei (Z.of_nat (String.length (name prim))))
                 (name prim)) in *.
    assert (Hhead : forall tl,
               bindsOnly 0 tl -> attachedAt 0 tl = [] ->
               bindsOnly 0 (c1 :: c2 :: ext ++ tl) /\
               Some <$> attachedAt 0 (c1 :: c2 :: ext ++ tl)
               = map bufferHandle (vertexLayout prim)).
    { intros tl Hbt Hat. split.
      - constructor; [intros j [=]|]. constructor; [intros j [=]|].
        apply Forall_app. split; assumption.
      - unfold attachedAt in *. simpl. rewrite flat_map_app, Hat, app_nil_r.
        exact Ha. }
    destruct (isIndexed prim) eqn:Hidx.
    - destruct (Hindex eq_refl) as [buf Hbuf]. rewrite Hbuf. cbn.
      eexists. split; [reflexivity|]. apply Hhead; [|reflexivity].
      repeat constructor. intros j [=].
    - cbn. eexists. split; [reflexivity|].
      pose proof (Hhead [] ltac:(constructor) eq_refl) as H.
      rewrite app_nil_r in H. exact H. }
  split.
  - intros Hsup. destruct (Hrun Hsup) as (cs & Heq & _). exists cs. exact Heq.
  - intros handle cs Hgen.
    assert (Hsup : supported prim).
    { revert Hgen. unfold glxGenerateVao. run_vao.
      destruct (forEach (vertexLayout prim) _ _) as [[[] t1]| |] eqn:Hl;
        try discriminate.
      apply layouts_inv in Hl. intros Hgen. split; [exact Hl|].
      intros Hidx. rewrite Hidx in Hgen.
      destruct (indexHandle prim) as [buf|]; [exists buf; reflexivity|].
      discriminate. }
    destruct (Hrun Hsup) as (cs' & Heq & Hb & Ha). rewrite Heq in Hgen.
    injection Hgen as <- <-. auto.
Qed.

End Generate.

(** Two vertex layouts, on the buffers 11 and 12: both are attached to the
    binding index 0. *)
Lemma glxGenerateVao_binds_index_zero_witness :
  let positions := {| bufferHandle := Some 11; bufferOffset := 0; stride := 12;
                      instanced := false;
                      formats := [{| index := 0; format := RGB32f; offset := 0 |}] |} in
  let colors := {| bufferHandle := Some 12; bufferOffset := 0; stride := 4;
                   instanced := true;
                   formats := [{| index := 1; format := RGBA8; offset := 0 |}] |} in
  let prim := {| name := "mesh"; vertexLayout := [positions; colors];
                 isIndexed := false; indexHandle := None |} in
  let isFloat := fun f => match f with RGB32f => true | _ => false end in
  let bits := fun f => match f with RGB32f => 32 | _ => 8 end in
  exists cs,
    glxGenerateVao isFloat bits (fun _ => false) (fun _ => 3) (fun _ => false)
                   5 prim [] = Ok (5, cs) /\
    attachedAt 0 cs = [11; 12] /\ attachedAt 1 cs = [].
Proof.
  intros positions colors prim isFloat bits.
  destruct (glxGenerateVao_binds_index_zero isFloat bits (fun _ => false)
              (fun _ => 3) (fun _ => false) 5 prim) as [Hreturns Hzero].
  destruct Hreturns as (cs & Hrun).
  { split; [|discriminate].
    repeat constructor; eexists; reflexivity. }
  exists cs. split; [exact Hrun|].
  destruct (Hzero 5 cs Hrun) as (_ & _ & Hb & Ha).
  split.
  - simpl in Ha. destruct (attachedAt 0 cs) as [|a [|b [|c l]]];
      try discriminate. injection Ha as -> ->. reflexivity.
  - clear Ha Hrun. induction Hb as [|c l Hc Hl IH]; [reflexivity|].
    simpl. rewrite IH, app_nil_r.
    destruct c; try reflexivity. rewrite (Hc _ eq_refl). reflexivity.
Defined.

End Vao.

(** ** Binding a pipeline (glxBindPipeline) *)

Module BindPipeline.

Import GL.

(** [BlendState::LogicOp], [BlendState::BlendOp] and [BlendState::Blend]
    (pipeline.hpp); the last constructor of each stands for a value that is
    none of the enumerators. *)
Inductive LogicOp : Type :=
| CLEAR | AND | AND_REV | COPY | AND_INV | NO_OP | XOR | OR
| NOR | EQUIV | INV | OR_REV | COPY_INV | OR_INV | NAND | SET
| OtherLogicOp (code : N).

Inductive BlendOp : Type :=
| ADD | SUBTRACT | REV_SUBTRACT | MIN | MAX
| OtherBlendOp (code : N).

Inductive Blend : Type :=
| ZERO | ONE | SRC | SRC_REV | DST | DST_REV | SRC_ALPHA | SRC_ALPHA_REV
| DST_ALPHA | DST_ALPHA_REV | FACTOR | FACTOR_REV
| FACTOR_ALPHA | FACTOR_ALPHA_REV | SRC_ALPHA_SAT | SRC1
| SRC1_REV | SRC1_ALPHA | SRC1_ALPHA_REV
| OtherBlend (code : N).

#[global] Instance LogicOp_eq_dec : EqDecision LogicOp.
Proof. solve_decision. Defined.

#[global] Instance BlendOp_eq_dec : EqDecision BlendOp.
Proof. solve_decision. Defined.

#[global] Instance Blend_eq_dec : EqDecision Blend.
Proof. solve_decision. Defined.

(** The names of the constants the translations return, and of the
    capabilities and modes [glxBindPipeline] names. *)
Inductive GLname : Type :=
| GL_CLEAR | GL_AND | GL_AND_REVERSE | GL_COPY | GL_AND_INVERTED | GL_NOOP
| GL_XOR | GL_OR | GL_NOR | GL_EQUIV | GL_INVERT | GL_OR_REVERSE
| GL_COPY_INVERTED | GL_OR_INVERTED | GL_NAND | GL_SET
| GL_FUNC_ADD | GL_FUNC_SUBTRACT | GL_FUNC_REVERSE_SUBTRACT | GL_MIN | GL_MAX
| GL_ZERO | GL_ONE | GL_SRC_COLOR | GL_ONE_MINUS_SRC_COLOR
| GL_DST_COLOR | GL_ONE_MINUS_DST_COLOR | GL_SRC_ALPHA | GL_ONE_MINUS_SRC_ALPHA
| GL_DST_ALPHA | GL_ONE_MINUS_DST_ALPHA
| GL_CONSTANT_COLOR | GL_ONE_MINUS_CONSTANT_COLOR
| GL_CONSTANT_ALPHA | GL_ONE_MINUS_CONSTANT_ALPHA | GL_SRC_ALPHA_SATURATE
| GL_SRC1_COLOR | GL_ONE_MINUS_SRC1_COLOR | GL_SRC1_ALPHA | GL_ONE_MINUS_SRC1_ALPHA
| GL_CULL_FACE | GL_SAMPLE_SHADING | GL_BLEND
| GL_BACK | GL_FRONT | GL_CCW | GL_CW
| GL_FRONT_AND_BACK | GL_FILL | GL_LINE.

(** [glxLogicOp] *)
Definition glxLogicOp (logicOp : LogicOp) : Result GLname :=
  match logicOp with
  | CLEAR => Ok GL_CLEAR | AND => Ok GL_AND | AND_REV => Ok GL_AND_REVERSE
  | COPY => Ok GL_COPY | AND_INV => Ok GL_AND_INVERTED | NO_OP => Ok GL_NOOP
  | XOR => Ok GL_XOR | OR => Ok GL_OR | NOR => Ok GL_NOR
  | EQUIV => Ok GL_EQUIV | INV => Ok GL_INVERT | OR_REV => Ok GL_OR_REVERSE
  | COPY_INV => Ok GL_COPY_INVERTED | OR_INV => Ok GL_OR_INVERTED
  | NAND => Ok GL_NAND | SET => Ok GL_SET
  | OtherLogicOp _ => Fatal "Invalid logic op"
  end.

(** [glxBlendOp] *)
Definition glxBlendOp (blendOp : BlendOp) : Result GLname :=
  match blendOp with
  | ADD => Ok GL_FUNC_ADD | SUBTRACT => Ok GL_FUNC_SUBTRACT
  | REV_SUBTRACT => Ok GL_FUNC_REVERSE_SUBTRACT
  | MIN => Ok GL_MIN | MAX => Ok GL_MAX
  | OtherBlendOp _ => Fatal "Invalid logic op"
  end.

(** [glxBlend] *)
Definition glxBlend (blend : Blend) : Result GLname :=
  match blend with
  | ZERO => Ok GL_ZERO | ONE => Ok GL_ONE
  | SRC => Ok GL_SRC_COLOR | SRC_REV => Ok GL_ONE_MINUS_SRC_COLOR
  | DST => Ok GL_DST_COLOR | DST_REV => Ok GL_ONE_MINUS_DST_COLOR
  | SRC_ALPHA => Ok GL_SRC_ALPHA | SRC_ALPHA_REV => Ok GL_ONE_MINUS_SRC_ALPHA
  | DST_ALPHA => Ok GL_DST_ALPHA | DST_ALPHA_REV => Ok GL_ONE_MINUS_DST_ALPHA
  | FACTOR => Ok GL_CONSTANT_COLOR | FACTOR_REV => Ok GL_ONE_MINUS_CONSTANT_COLOR
  | FACTOR_ALPHA => Ok GL_CONSTANT_ALPHA
  | FACTOR_ALPHA_REV => Ok GL_ONE_MINUS_CONSTANT_ALPHA
  | SRC_ALPHA_SAT => Ok GL_SRC_ALPHA_SATURATE
  | SRC1 => Ok GL_SRC1_COLOR | SRC1_REV => Ok GL_ONE_MINUS_SRC1_COLOR
  | SRC1_ALPHA => Ok GL_SRC1_ALPHA | SRC1_ALPHA_REV => Ok GL_ONE_MINUS_SRC1_ALPHA
  | OtherBlend _ => Fatal "Invalid logic op"
  end.

Section Bind.

(** [f32] and [Vec4f32] with their [!=], the conversion of an [f32] to
    [bool] and the components of a vector: the vector type is declared in
    types/vec.hpp, outside the sources at hand.  [CullMode], [WindMode] and
    [FillMode] are declared in graphics/enums.hpp: a mode is its [u8] code,
    and the enumerators the code names are variables. *)
Variable f32 : Type.
Variable f32_neq : f32 -> f32 -> bool.
Variable f32_nonzero : f32 -> bool.
Variable Vec4f : Type.
Variable vec4_neq : Vec4f -> Vec4f -> bool.
Variable component : Vec4f -> nat -> f32.
Variable BACK : N.
Variable CCW : N.
Variable FILL : N.

(** [Rasterizer] *)
Record Rasterizer : Type := mkRasterizer {
  fill : N;
  cull : N;
  winding : N
}.

(** [BlendState] *)
Record BlendState : Type := mkBlendState {
  blendFactor : Vec4f;
  logicOp : LogicOp;
  writeMask : N;
  blendOp : BlendOp;
  alphaBlendOp : BlendOp;
  srcBlend : Blend;
  dstBlend : Blend;
  alphaSrcBlend : Blend;
  alphaDstBlend : Blend;
  blendEnable : bool
}.

(** [MSAA] *)
Record MSAA : Type := mkMSAA {
  samples : Z;
  minSampleShading : f32
}.

(** What [glxBindPipeline] reads of a pipeline: the first program handle
    and the fixed-function state of its description. *)
Record Pipeline : Type := mkPipeline {
  program : GLuint;
  rasterizer : Rasterizer;
  blendState : BlendState;
  msaa : MSAA
}.

(** The fields of [GLContext] that [glxBindPipeline] reads or writes. *)
Record Context : Type := mkContext {
  currRaster : Rasterizer;
  currBlend : BlendState;
  enableMinSampleShading : bool;
  ctxMinSampleShading : f32
}.

Inductive Call : Type :=
| GlUseProgram (program : GLuint)
| GlEnable (cap : GLname)
| GlDisable (cap : GLname)
| GlCullFace (mode : GLname)
| GlFrontFace (mode : GLname)
| GlPolygonMode (face mode : GLname)
| GlColorMask (r g b a : N)
| GlMinSampleShading (value : f32)
| GlBlendColor (r g b a : f32)
| GlLogicOp (opcode : GLname)
| GlBlendEquationSeparate (modeRGB modeAlpha : GLname)
| GlBlendFuncSeparate (srcRGB dstRGB srcAlpha dstAlpha : GLname).

Definition St : Type := (Context * list Call)%type.

Definition call (c : Call) : M St unit :=
  modify (fun s => (fst s, snd s ++ [c])).

Definition getContext : M St Context := fun s => Ok (fst s, s).

Definition setRaster (f : Rasterizer -> Rasterizer) : M St unit :=
  modify (fun s =>
    ({| currRaster := f (currRaster (fst s)); currBlend := currBlend (fst s);
        enableMinSampleShading := enableMinSampleShading (fst s);
        ctxMinSampleShading := ctxMinSampleShading (fst s) |}, snd s)).

Definition setBlend (f : BlendState -> BlendState) : M St unit :=
  modify (fun s =>
    ({| currRaster := currRaster (fst s); currBlend := f (currBlend (fst s));
        enableMinSampleShading := enableMinSampleShading (fst s);
        ctxMinSampleShading := ctxMinSampleShading (fst s) |}, snd s)).

Definition setSampleShading (enable : bool) (value : f32) : M St unit :=
  modify (fun s =>
    ({| currRaster := currRaster (fst s); currBlend := currBlend (fst s);
        enableMinSampleShading := enable;
        ctxMinSampleShading := value |}, snd s)).

(** [if (r0.cull != r.cull) { ... }] *)
Definition bindCull (r : Rasterizer) : M St unit :=
  (c <- getContext ;;
   let r0 := currRaster c in
   when (negb (cull r0 =? cull r)%N)
        (when (negb (cull r0 =? 0)%N && (cull r =? 0)%N)
              (call (GlDisable GL_CULL_FACE)) ;;;
         when ((cull r0 =? 0)%N && negb (cull r =? 0)%N)
              (call (GlEnable GL_CULL_FACE)) ;;;
         when (negb (cull r =? 0)%N)
              (call (GlCullFace (if (cull r =? BACK)%N then GL_BACK else GL_FRONT))) ;;;
         setRaster (fun r0 => {| fill := fill r0; cull := cull r;
                                 winding := winding r0 |})))%m.

(** [if (r0.winding != r.winding && u8(r.cull)) { ... }] *)
Definition bindWinding (r : Rasterizer) : M St unit :=
  (c <- getContext ;;
   let r0 := currRaster c in
   when (negb (winding r0 =? winding r)%N && negb (cull r =? 0)%N)
        (call (GlFrontFace (if (winding r =? CCW)%N then GL_CCW else GL_CW)) ;;;
         setRaster (fun r0 => {| fill := fill r0; cull := cull r0;
                                 winding := winding r |})))%m.

(** [if (r0.fill != r.fill) { ... }] *)
Definition bindFill (r : Rasterizer) : M St unit :=
  (c <- getContext ;;
   let r0 := currRaster c in
   when (negb (fill r0 =? fill r)%N)
        (call (GlPolygonMode GL_FRONT_AND_BACK
                 (if (fill r =? FILL)%N then GL_FILL else GL_LINE)) ;;;
         setRaster (fun r0 => {| fill := fill r; cull := cull r0;
                                 winding := winding r0 |})))%m.

Definition withWriteMask (m : N) (b0 : BlendState) : BlendState :=
  {| blendFactor := blendFactor b0; logicOp := logicOp b0; writeMask := m;
     blendOp := blendOp b0; alphaBlendOp := alphaBlendOp b0;
     srcBlend := srcBlend b0; dstBlend := dstBlend b0;
     alphaSrcBlend := alphaSrcBlend b0; alphaDstBlend := alphaDstBlend b0;
     blendEnable := blendEnable b0 |}.

Definition withBlendEnable (e : bool) (b0 : BlendState) : BlendState :=
  {| blendFactor := blendFactor b0; logicOp := logicOp b0;
     writeMask := writeMask b0;
     blendOp := blendOp b0; alphaBlendOp := alphaBlendOp b0;
     srcBlend := srcBlend b0; dstBlend := dstBlend b0;
     alphaSrcBlend := alphaSrcBlend b0; alphaDstBlend := alphaDstBlend b0;
     blendEnable := e |}.

Definition withBlendFactor (f : Vec4f) (b0 : BlendState) : BlendState :=
  {| blendFactor := f; logicOp := logicOp b0; writeMask := writeMask b0;
     blendOp := blendOp b0; alphaBlendOp := alphaBlendOp b0;
     srcBlend := srcBlend b0; dstBlend := dstBlend b0;
     alphaSrcBlend := alphaSrcBlend b0; alphaDstBlend := alphaDstBlend b0;
     blendEnable := blendEnable b0 |}.

Definition withLogicOp (o : LogicOp) (b0 : BlendState) : BlendState :=
  {| blendFactor := blendFactor b0; logicOp := o; writeMask := writeMask b0;
     blendOp := blendOp b0; alphaBlendOp := alphaBlendOp b0;
     srcBlend := srcBlend b0; dstBlend := dstBlend b0;
     alphaSrcBlend := alphaSrcBlend b0; alphaDstBlend := alphaDstBlend b0;
     blendEnable := blendEnable b0 |}.

Definition withBlendOps (o a : BlendOp) (b0 : BlendState) : BlendState :=
  {| blendFactor := blendFactor b0; logicOp := logicOp b0;
     writeMask := writeMask b0;
     blendOp := o; alphaBlendOp := a;
     srcBlend := srcBlend b0; dstBlend := dstBlend b0;
     alphaSrcBlend := alphaSrcBlend b0; alphaDstBlend := alphaDstBlend b0;
     blendEnable := blendEnable b0 |}.

Definition withBlends (s d sa da : Blend) (b0 : BlendState) : BlendState :=
  {| blendFactor := blendFactor b0; logicOp := logicOp b0;
     writeMask := writeMask b0;
     blendOp := blendOp b0; alphaBlendOp := alphaBlendOp b0;
     srcBlend := s; dstBlend := d; alphaSrcBlend := sa; alphaDstBlend := da;
     blendEnable := blendEnable b0 |}.

(** [if (b0.writeMask != b.writeMask) { ... }] *)
Definition bindWriteMask (b : BlendState) : M St unit :=
  (c <- getContext ;;
   when (negb (writeMask (currBlend c) =? writeMask b)%N)
        (call (GlColorMask (N.land (writeMask b) 1) (N.land (writeMask b) 2)
                           (N.land (writeMask b) 4) (N.land (writeMask b) 8)) ;;;
         setBlend (withWriteMask (writeMask b))))%m.

(** [if (msaa.samples && msaa.minSampleShading) { ... } else if ...] *)
Definition bindSampleShading (m : MSAA) : M St unit :=
  (c <- getContext ;;
   if negb (samples m =? 0) && f32_nonzero (minSampleShading m) then
     (when (negb (enableMinSampleShading c))
           (call (GlEnable GL_SAMPLE_SHADING) ;;;
            setSampleShading true (ctxMinSampleShading c)) ;;;
      c <- getContext ;;
      when (f32_neq (ctxMinSampleShading c) (minSampleShading m))
           (call (GlMinSampleShading (minSampleShading m)) ;;;
            setSampleShading (enableMinSampleShading c) (minSampleShading m)))
   else
     when (enableMinSampleShading c)
          (call (GlDisable GL_SAMPLE_SHADING) ;;;
           setSampleShading false (ctxMinSampleShading c)))%m.

(** [if (b0.blendEnable != b.blendEnable) { ... }] *)
Definition bindBlendEnable (b : BlendState) : M St unit :=
  (c <- getContext ;;
   when (negb (Bool.eqb (blendEnable (currBlend c)) (blendEnable b)))
        (call (if blendEnable b then GlEnable GL_BLEND else GlDisable GL_BLEND) ;;;
         setBlend (withBlendEnable (blendEnable b))))%m.

(** [if (b0.blendFactor != b.blendFactor) { ... }] *)
Definition bindBlendFactor (b : BlendState) : M St unit :=
  (c <- getContext ;;
   when (vec4_neq (blendFactor (currBlend c)) (blendFactor b))
        (call (GlBlendColor (component (blendFactor b) 0)
                            (component (blendFactor b) 1)
                            (component (blendFactor b) 2)
                            (component (blendFactor b) 3)) ;;;
         setBlend (withBlendFactor (blendFactor b))))%m.

(** [if (b0.logicOp != b.logicOp) { ... }] *)
Definition bindLogicOp (b : BlendState) : M St unit :=
  (c <- getContext ;;
   when (negb (bool_decide (logicOp (currBlend c) = logicOp b)))
        (op <- lift (glxLogicOp (logicOp b)) ;;
         call (GlLogicOp op) ;;;
         setBlend (withLogicOp (logicOp b))))%m.

(** [if (b0.alphaBlendOp != b.alphaBlendOp || b0.blendOp != b.blendOp)
    { ... }] *)
Definition bindBlendOps (b : BlendState) : M St unit :=
  (c <- getContext ;;
   when (negb (bool_decide (alphaBlendOp (currBlend c) = alphaBlendOp b)) ||
         negb (bool_decide (blendOp (currBlend c) = blendOp b)))
        (rgb <- lift (glxBlendOp (blendOp b)) ;;
         alpha <- lift (glxBlendOp (alphaBlendOp b)) ;;
         call (GlBlendEquationSeparate rgb alpha) ;;;
         setBlend (withBlendOps (blendOp b) (alphaBlendOp b))))%m.

(** [if (b0.srcBlend != b.srcBlend || b0.dstBlend != b.dstBlend ||
    b0.alphaSrcBlend != b.alphaSrcBlend || b0.alphaDstBlend != b.alphaDstBlend)
    { ... }] *)
Definition bindBlendFuncs (b : BlendState) : M St unit :=
  (c <- getContext ;;
   when (negb (bool_decide (srcBlend (currBlend c) = srcBlend b)) ||
         negb (bool_decide (dstBlend (currBlend c) = dstBlend b)) ||
         negb (bool_decide (alphaSrcBlend (currBlend c) = alphaSrcBlend b)) ||
         negb (bool_decide (alphaDstBlend (currBlend c) = alphaDstBlend b)))
        (s <- lift (glxBlend (srcBlend b)) ;;
         d <- lift (glxBlend (dstBlend b)) ;;
         sa <- lift (glxBlend (alphaSrcBlend b)) ;;
         da <- lift (glxBlend (alphaDstBlend b)) ;;
         call (GlBlendFuncSeparate s d sa da) ;;;
         setBlend (withBlends (srcBlend b) (dstBlend b)
                              (alphaSrcBlend b) (alphaDstBlend b))))%m.

(** [if (b0.blendEnable) { ... }] *)
Definition bindBlend (b : BlendState) : M St unit :=
  (c <- getContext ;;
   when (blendEnable (currBlend c))
        (bindBlendFactor b ;;;
         bindLogicOp b ;;;
         bindBlendOps b ;;;
         bindBlendFuncs b))%m.

(** [glxBindPipeline(ctx, pipeline)] *)
Definition glxBindPipeline (p : Pipeline) : M St unit :=
  (call (GlUseProgram (program p)) ;;;
   bindCull (rasterizer p) ;;;
   bindWinding (rasterizer p) ;;;
   bindFill (rasterizer p) ;;;
   bindWriteMask (blendState p) ;;;
   bindSampleShading (msaa p) ;;;
   bindBlendEnable (blendState p) ;;;
   bindBlend (blendState p))%m.

(** *** The cached state after a bind *)

(** The context caches the state of pipeline [p]: every field a bind of [p]
    compares is equal to the pipeline's ([!=] is false for the floats).  The winding is only compared while
    culling is on, minSampleShading only while sample shading is on, and the
    blend parameters only while blending is on. *)
Definition synced (p : Pipeline) (c : Context) : Prop :=
  let r := rasterizer p in
  let b := blendState p in
  let r0 := currRaster c in
  let b0 := currBlend c in
  cull r0 = cull r /\
  (cull r <> 0%N -> winding r0 = winding r) /\
  fill r0 = fill r /\
  writeMask b0 = writeMask b /\
  enableMinSampleShading c =
    negb (samples (msaa p) =? 0) && f32_nonzero (minSampleShading (msaa p)) /\
  (enableMinSampleShading c = true ->
   f32_neq (ctxMinSampleShading c) (minSampleShading (msaa p)) = false) /\
  blendEnable b0 = blendEnable b /\
  (blendEnable b = true ->
   vec4_neq (blendFactor b0) (blendFactor b) = false /\
   logicOp b0 = logicOp b /\
   blendOp b0 = blendOp b /\ alphaBlendOp b0 = alphaBlendOp b /\
   srcBlend b0 = srcBlend b /\ dstBlend b0 = dstBlend b /\
   alphaSrcBlend b0 = alphaSrcBlend b /\ alphaDstBlend b0 = alphaDstBlend b).

Ltac run_block :=
  unfold getContext, when, call, setRaster, setBlend, setSampleShading,
         bind, ret, modify, lift;
  cbn [fst snd currRaster currBlend enableMinSampleShading ctxMinSampleShading].

Ltac fields := repeat split; auto.

Lemma bindCull_inv (r : Rasterizer) (c c' : Context) (t t' : list Call) :
  bindCull r (c, t) = Ok (tt, (c', t')) ->
  cull (currRaster c') = cull r /\
  winding (currRaster c') = winding (currRaster c) /\
  fill (currRaster c') = fill (currRaster c) /\
  currBlend c' = currBlend c /\
  enableMinSampleShading c' = enableMinSampleShading c /\
  ctxMinSampleShading c' = ctxMinSampleShading c.
Proof.
  unfold bindCull. run_block.
  destruct (cull (currRaster c) =? cull r)%N eqn:Hc; cbn.
  - apply N.eqb_eq in Hc. intros [= <- <-]. fields.
  - destruct (cull (currRaster c) =? 0)%N, (cull r =? 0)%N; cbn;
      intros [= <- <-]; cbn; fields.
Qed.

Lemma bindCull_noop (r : Rasterizer) (c : Context) (t : list Call) :
  cull (currRaster c) = cull r ->
  bindCull r (c, t) = Ok (tt, (c, t)).
Proof.
  intros H. unfold bindCull. run_block. rewrite H, N.eqb_refl. reflexivity.
Qed.

Lemma bindWinding_inv (r : Rasterizer) (c c' : Context) (t t' : list Call) :
  bindWinding r (c, t) = Ok (tt, (c', t')) ->
  cull (currRaster c') = cull (currRaster c) /\
  (cull r <> 0%N -> winding (currRaster c') = winding r) /\
  fill (currRaster c') = fill (currRaster c) /\
  currBlend c' = currBlend c /\
  enableMinSampleShading c' = enableMinSampleShading c /\
  ctxMinSampleShading c' = ctxMinSampleShading c.
Proof.
  unfold bindWinding. run_block.
  destruct (winding (currRaster c) =? winding r)%N eqn:Hw; cbn.
  - apply N.eqb_eq in Hw. intros [= <- <-]. fields.
  - destruct (cull r =? 0)%N eqn:Hz; cbn; intros [= <- <-]; cbn.
    + apply N.eqb_eq in Hz. repeat split; auto. intros Hn. contradiction.
    + fields.
Qed.

Lemma bindWinding_noop (r : Rasterizer) (c : Context) (t : list Call) :
  (cull r <> 0%N -> winding (currRaster c) = winding r) ->
  bindWinding r (c, t) = Ok (tt, (c, t)).
Proof.
  intros H. unfold bindWinding. run_block.
  destruct (cull r =? 0)%N eqn:Hz.
  - rewrite andb_false_r. reflexivity.
  - apply N.eqb_neq in Hz. rewrite (H Hz), N.eqb_refl. reflexivity.
Qed.

Lemma bindFill_inv (r : Rasterizer) (c c' : Context) (t t' : list Call) :
  bindFill r (c, t) = Ok (tt, (c', t')) ->
  cull (currRaster c') = cull (currRaster c) /\
  winding (currRaster c') = winding (currRaster c) /\
  fill (currRaster c') = fill r /\
  currBlend c' = currBlend c /\
  enableMinSampleShading c' = enableMinSampleShading c /\
  ctxMinSampleShading c' = ctxMinSampleShading c.
Proof.
  unfold bindFill. run_block.
  destruct (fill (currRaster c) =? fill r)%N eqn:Hf; cbn.
  - apply N.eqb_eq in Hf. intros [= <- <-]. fields.
  - intros [= <- <-]. cbn. fields.
Qed.

Lemma bindFill_noop (r : Rasterizer) (c : Context) (t : list Call) :
  fill (currRaster c) = fill r ->
  bindFill r (c, t) = Ok (tt, (c, t)).
Proof.
  intros H. unfold bindFill. run_block. rewrite H, N.eqb_refl. reflexivity.
Qed.

Lemma bindWriteMask_inv (b : BlendState) (c c' : Context) (t t' : list Call) :
  bindWriteMask b (c, t) = Ok (tt, (c', t')) ->
  currRaster c' = currRaster c /\
  enableMinSampleShading c' = enableMinSampleShading c /\
  ctxMinSampleShading c' = ctxMinSampleShading c /\
  currBlend c' = withWriteMask (writeMask b) (currBlend c).
Proof.
  unfold bindWriteMask. run_block.
  destruct (writeMask (currBlend c) =? writeMask b)%N eqn:Hm; cbn.
  - apply N.eqb_eq in Hm. intros [= <- <-]. repeat split.
    rewrite <- Hm. destruct (currBlend c). reflexivity.
  - intros [= <- <-]. cbn. auto.
Qed.

Lemma bindWriteMask_noop (b : BlendState) (c : Context) (t : list Call) :
  writeMask (currBlend c) = writeMask b ->
  bindWriteMask b (c, t) = Ok (tt, (c, t)).
Proof.
  intros H. unfold bindWriteMask. run_block. rewrite H, N.eqb_refl.
  reflexivity.
Qed.

Lemma bindSampleShading_inv (m : MSAA) (c c' : Context) (t t' : list Call) :
  bindSampleShading m (c, t) = Ok (tt, (c', t')) ->
  currRaster c' = currRaster c /\
  currBlend c' = currBlend c /\
  enableMinSampleShading c' =
    negb (samples m =? 0) && f32_nonzero (minSampleShading m) /\
  (enableMinSampleShading c' = true ->
   f32_neq (minSampleShading m) (minSampleShading m) = false ->
   f32_neq (ctxMinSampleShading c') (minSampleShading m) = false).
Proof.
  unfold bindSampleShading. run_block.
  destruct (negb (samples m =? 0) && f32_nonzero (minSampleShading m)) eqn:Hon.
  - destruct (enableMinSampleShading c) eqn:He; cbn;
      run_block.
    + destruct (f32_neq (ctxMinSampleShading c) (minSampleShading m)) eqn:Hne;
        cbn; intros [= <- <-]; cbn; fields.
    + destruct (f32_neq (ctxMinSampleShading c) (minSampleShading m)) eqn:Hne;
        cbn; intros [= <- <-]; cbn; fields.
  - destruct (enableMinSampleShading c) eqn:He; cbn; intros [= <- <-]; cbn.
    + repeat split; auto. discriminate.
    + repeat split; auto. rewrite He. discriminate.
Qed.

Lemma bindSampleShading_noop (m : MSAA) (c : Context) (t : list Call) :
  enableMinSampleShading c =
    negb (samples m =? 0) && f32_nonzero (minSampleShading m) ->
  (enableMinSampleShading c = true ->
   f32_neq (ctxMinSampleShading c) (minSampleShading m) = false) ->
  bindSampleShading m (c, t) = Ok (tt, (c, t)).
Proof.
  intros He Hm. unfold bindSampleShading. run_block. rewrite <- He.
  destruct (enableMinSampleShading c) eqn:Hen; cbn; run_block.
  - rewrite (Hm eq_refl). reflexivity.
  - reflexivity.
Qed.

Lemma bindBlendEnable_inv (b : BlendState) (c c' : Context) (t t' : list Call) :
  bindBlendEnable b (c, t) = Ok (tt, (c', t')) ->
  currRaster c' = currRaster c /\
  enableMinSampleShading c' = enableMinSampleShading c /\
  ctxMinSampleShading c' = ctxMinSampleShading c /\
  currBlend c' = withBlendEnable (blendEnable b) (currBlend c).
Proof.
  unfold bindBlendEnable. run_block.
  destruct (Bool.eqb (blendEnable (currBlend c)) (blendEnable b)) eqn:He; cbn.
  - apply Bool.eqb_prop in He. intros [= <- <-]. repeat split.
    rewrite <- He. destruct (currBlend c). reflexivity.
  - intros [= <- <-]. cbn. fields.
Qed.

Lemma bindBlendEnable_noop (b : BlendState) (c : Context) (t : list Call) :
  blendEnable (currBlend c) = blendEnable b ->
  bindBlendEnable b (c, t) = Ok (tt, (c, t)).
Proof.
  intros H. unfold bindBlendEnable. run_block. rewrite H, Bool.eqb_reflx.
  reflexivity.
Qed.

(** What a block of [bindBlend] leaves alone. *)
Definition sameButBlend (c c' : Context) : Prop :=
  currRaster c' = currRaster c /\
  enableMinSampleShading c' = enableMinSampleShading c /\
  ctxMinSampleShading c' = ctxMinSampleShading c /\
  writeMask (currBlend c') = writeMask (currBlend c) /\
  blendEnable (currBlend c') = blendEnable (currBlend c).

Lemma bindBlendFactor_inv (b : BlendState) (c c' : Context) (t t' : list Call) :
  bindBlendFactor b (c, t) = Ok (tt, (c', t')) ->
  sameButBlend c c' /\
  (vec4_neq (blendFactor b) (blendFactor b) = false ->
   vec4_neq (blendFactor (currBlend c')) (blendFactor b) = false) /\
  logicOp (currBlend c') = logicOp (currBlend c) /\
  blendOp (currBlend c') = blendOp (currBlend c) /\
  alphaBlendOp (currBlend c') = alphaBlendOp (currBlend c) /\
  srcBlend (currBlend c') = srcBlend (currBlend c) /\
  dstBlend (currBlend c') = dstBlend (currBlend c) /\
  alphaSrcBlend (currBlend c') = alphaSrcBlend (currBlend c) /\
  alphaDstBlend (currBlend c') = alphaDstBlend (currBlend c).
Proof.
  unfold bindBlendFactor, sameButBlend. run_block.
  destruct (vec4_neq (blendFactor (currBlend c)) (blendFactor b)) eqn:Hne; cbn;
    intros [= <- <-]; cbn; fields.
Qed.

Lemma bindBlendFactor_noop (b : BlendState) (c : Context) (t : list Call) :
  vec4_neq (blendFactor (currBlend c)) (blendFactor b) = false ->
  bindBlendFactor b (c, t) = Ok (tt, (c, t)).
Proof.
  intros H. unfold bindBlendFactor. run_block. rewrite H. reflexivity.
Qed.

Lemma bindLogicOp_inv (b : BlendState) (c c' : Context) (t t' : list Call) :
  bindLogicOp b (c, t) = Ok (tt, (c', t')) ->
  sameButBlend c c' /\
  blendFactor (currBlend c') = blendFactor (currBlend c) /\
  logicOp (currBlend c') = logicOp b /\
  blendOp (currBlend c') = blendOp (currBlend c) /\
  alphaBlendOp (currBlend c') = alphaBlendOp (currBlend c) /\
  srcBlend (currBlend c') = srcBlend (currBlend c) /\
  dstBlend (currBlend c') = dstBlend (currBlend c) /\
  alphaSrcBlend (currBlend c') = alphaSrcBlend (currBlend c) /\
  alphaDstBlend (currBlend c') = alphaDstBlend (currBlend c).
Proof.
  unfold bindLogicOp, sameButBlend. run_block.
  destruct (bool_decide (logicOp (currBlend c) = logicOp b)) eqn:He; cbn.
  - apply bool_decide_eq_true in He. intros [= <- <-]. fields.
  - destruct (glxLogicOp (logicOp b)); cbn; try discriminate.
    intros [= <- <-]. cbn. fields.
Qed.

Lemma bindLogicOp_noop (b : BlendState) (c : Context) (t : list Call) :
  logicOp (currBlend c) = logicOp b ->
  bindLogicOp b (c, t) = Ok (tt, (c, t)).
Proof.
  intros H. unfold bindLogicOp. run_block.
  rewrite (bool_decide_eq_true_2 _ H). reflexivity.
Qed.

Lemma bindBlendOps_inv (b : BlendState) (c c' : Context) (t t' : list Call) :
  bindBlendOps b (c, t) = Ok (tt, (c', t')) ->
  sameButBlend c c' /\
  blendFactor (currBlend c') = blendFactor (currBlend c) /\
  logicOp (currBlend c') = logicOp (currBlend c) /\
  blendOp (currBlend c') = blendOp b /\
  alphaBlendOp (currBlend c') = alphaBlendOp b /\
  srcBlend (currBlend c') = srcBlend (currBlend c) /\
  dstBlend (currBlend c') = dstBlend (currBlend c) /\
  alphaSrcBlend (currBlend c') = alphaSrcBlend (currBlend c) /\
  alphaDstBlend (currBlend c') = alphaDstBlend (currBlend c).
Proof.
  unfold bindBlendOps, sameButBlend. run_block.
  destruct (bool_decide (alphaBlendOp (currBlend c) = alphaBlendOp b)) eqn:Ha;
    destruct (bool_decide (blendOp (currBlend c) = blendOp b)) eqn:Ho; cbn.
  1: { apply bool_decide_eq_true in Ha, Ho. intros [= <- <-]. fields. }
  all: destruct (glxBlendOp (blendOp b)); cbn; try discriminate;
       destruct (glxBlendOp (alphaBlendOp b)); cbn; try discriminate;
       intros [= <- <-]; cbn; fields.
Qed.

Lemma bindBlendOps_noop (b : BlendState) (c : Context) (t : list Call) :
  blendOp (currBlend c) = blendOp b ->
  alphaBlendOp (currBlend c) = alphaBlendOp b ->
  bindBlendOps b (c, t) = Ok (tt, (c, t)).
Proof.
  intros Ho Ha. unfold bindBlendOps. run_block.
  rewrite (bool_decide_eq_true_2 _ Ho), (bool_decide_eq_true_2 _ Ha).
  reflexivity.
Qed.

Lemma bindBlendFuncs_inv (b : BlendState) (c c' : Context) (t t' : list Call) :
  bindBlendFuncs b (c, t) = Ok (tt, (c', t')) ->
  sameButBlend c c' /\
  blendFactor (currBlend c') = blendFactor (currBlend c) /\
  logicOp (currBlend c') = logicOp (currBlend c) /\
  blendOp (currBlend c') = blendOp (currBlend c) /\
  alphaBlendOp (currBlend c') = alphaBlendOp (currBlend c) /\
  srcBlend (currBlend c') = srcBlend b /\
  dstBlend (currBlend c') = dstBlend b /\
  alphaSrcBlend (currBlend c') = alphaSrcBlend b /\
  alphaDstBlend (currBlend c') = alphaDstBlend b.
Proof.
  unfold bindBlendFuncs, sameButBlend. run_block.
  destruct (bool_decide (srcBlend (currBlend c) = srcBlend b)) eqn:H1;
    destruct (bool_decide (dstBlend (currBlend c) = dstBlend b)) eqn:H2;
    destruct (bool_decide (alphaSrcBlend (currBlend c) = alphaSrcBlend b)) eqn:H3;
    destruct (bool_decide (alphaDstBlend (currBlend c) = alphaDstBlend b)) eqn:H4;
    cbn.
  1: { apply bool_decide_eq_true in H1, H2, H3, H4. intros [= <- <-]. fields. }
  all: destruct (glxBlend (srcBlend b)); cbn; try discriminate;
       destruct (glxBlend (dstBlend b)); cbn; try discriminate;
       destruct (glxBlend (alphaSrcBlend b)); cbn; try discriminate;
       destruct (glxBlend (alphaDstBlend b)); cbn; try discriminate;
       intros [= <- <-]; cbn; fields.
Qed.

Lemma bindBlendFuncs_noop (b : BlendState) (c : Context) (t : list Call) :
  srcBlend (currBlend c) = srcBlend b ->
  dstBlend (currBlend c) = dstBlend b ->
  alphaSrcBlend (currBlend c) = alphaSrcBlend b ->
  alphaDstBlend (currBlend c) = alphaDstBlend b ->
  bindBlendFuncs b (c, t) = Ok (tt, (c, t)).
Proof.
  intros H1 H2 H3 H4. unfold bindBlendFuncs. run_block.
  rewrite (bool_decide_eq_true_2 _ H1), (bool_decide_eq_true_2 _ H2),
          (bool_decide_eq_true_2 _ H3), (bool_decide_eq_true_2 _ H4).
  reflexivity.
Qed.

Lemma bind_Ok_inv {S A B : Type} (m : M S A) (k : A -> M S B) (s s' : S) (b : B) :
  bind m k s = Ok (b, s') ->
  exists a s1, m s = Ok (a, s1) /\ k a s1 = Ok (b, s').
Proof.
  unfold bind. destruct (m s) as [[a s1]| |]; try discriminate.
  intros H. exists a, s1. auto.
Qed.

Lemma bindBlend_inv (b : BlendState) (c c' : Context) (t t' : list Call) :
  bindBlend b (c, t) = Ok (tt, (c', t')) ->
  sameButBlend c c' /\
  (blendEnable (currBlend c) = true ->
   vec4_neq (blendFactor b) (blendFactor b) = false ->
   vec4_neq (blendFactor (currBlend c')) (blendFactor b) = false /\
   logicOp (currBlend c') = logicOp b /\
   blendOp (currBlend c') = blendOp b /\
   alphaBlendOp (currBlend c') = alphaBlendOp b /\
   srcBlend (currBlend c') = srcBlend b /\
   dstBlend (currBlend c') = dstBlend b /\
   alphaSrcBlend (currBlend c') = alphaSrcBlend b /\
   alphaDstBlend (currBlend c') = alphaDstBlend b) /\
  (blendEnable (currBlend c) = false -> c' = c /\ t' = t).
Proof.
  unfold bindBlend, sameButBlend.
  unfold getContext at 1. unfold bind at 1. cbn [fst snd]. unfold when.
  destruct (blendEnable (currBlend c)) eqn:He.
  - intros H.
    apply bind_Ok_inv in H. destruct H as ([] & [c1 t1] & H1 & H).
    apply bind_Ok_inv in H. destruct H as ([] & [c2 t2] & H2 & H).
    apply bind_Ok_inv in H. destruct H as ([] & [c3 t3] & H3 & H4).
    apply bindBlendFactor_inv in H1. apply bindLogicOp_inv in H2.
    apply bindBlendOps_inv in H3. apply bindBlendFuncs_inv in H4.
    unfold sameButBlend in *.
    destruct H1 as ((R1 & E1 & M1 & W1 & B1) & F1 & L1 & O1 & A1 & S1 & D1 & AS1 & AD1).
    destruct H2 as ((R2 & E2 & M2 & W2 & B2) & F2 & L2 & O2 & A2 & S2 & D2 & AS2 & AD2).
    destruct H3 as ((R3 & E3 & M3 & W3 & B3) & F3 & L3 & O3 & A3 & S3 & D3 & AS3 & AD3).
    destruct H4 as ((R4 & E4 & M4 & W4 & B4) & F4 & L4 & O4 & A4 & S4 & D4 & AS4 & AD4).
    split; [|split].
    + repeat split; congruence.
    + intros _ Hv. specialize (F1 Hv).
      repeat split; congruence.
    + discriminate.
  - unfold ret. intros [= <- <-]. split; [fields|]. split; [discriminate|auto].
Qed.

Lemma bindBlend_noop (b : BlendState) (c : Context) (t : list Call) :
  (blendEnable (currBlend c) = true ->
   vec4_neq (blendFactor (currBlend c)) (blendFactor b) = false /\
   logicOp (currBlend c) = logicOp b /\
   blendOp (currBlend c) = blendOp b /\
   alphaBlendOp (currBlend c) = alphaBlendOp b /\
   srcBlend (currBlend c) = srcBlend b /\
   dstBlend (currBlend c) = dstBlend b /\
   alphaSrcBlend (currBlend c) = alphaSrcBlend b /\
   alphaDstBlend (currBlend c) = alphaDstBlend b) ->
  bindBlend b (c, t) = Ok (tt, (c, t)).
Proof.
  intros H. unfold bindBlend.
  unfold getContext at 1. unfold bind at 1. cbn [fst snd]. unfold when.
  destruct (blendEnable (currBlend c)); [|reflexivity].
  destruct (H eq_refl) as (F & L & O & A & S1 & D & AS & AD).
  unfold bind.
  rewrite (bindBlendFactor_noop _ _ _ F), (bindLogicOp_noop _ _ _ L),
          (bindBlendOps_noop _ _ _ O A), (bindBlendFuncs_noop _ _ _ S1 D AS AD).
  reflexivity.
Qed.

(** A bind that returns leaves the context caching the pipeline's state. *)
Lemma glxBindPipeline_synced (p : Pipeline) (c c' : Context) (t t' : list Call) :
  f32_neq (minSampleShading (msaa p)) (minSampleShading (msaa p)) = false ->
  vec4_neq (blendFactor (blendState p)) (blendFactor (blendState p)) = false ->
  glxBindPipeline p (c, t) = Ok (tt, (c', t')) ->
  synced p c'.
Proof.
  intros Hf Hv H. unfold glxBindPipeline in H.
  apply bind_Ok_inv in H. destruct H as ([] & [c0 t0] & H0 & H).
  apply bind_Ok_inv in H. destruct H as ([] & [c1 t1] & H1 & H).
  apply bind_Ok_inv in H. destruct H as ([] & [c2 t2] & H2 & H).
  apply bind_Ok_inv in H. destruct H as ([] & [c3 t3] & H3 & H).
  apply bind_Ok_inv in H. destruct H as ([] & [c4 t4] & H4 & H).
  apply bind_Ok_inv in H. destruct H as ([] & [c5 t5] & H5 & H).
  apply bind_Ok_inv in H. destruct H as ([] & [c6 t6] & H6 & H7).
  apply bindCull_inv in H1. apply bindWinding_inv in H2.
  apply bindFill_inv in H3. apply bindWriteMask_inv in H4.
  apply bindSampleShading_inv in H5. apply bindBlendEnable_inv in H6.
  apply bindBlend_inv in H7.
  destruct H1 as (C1 & W1 & F1 & B1 & E1 & M1).
  destruct H2 as (C2 & W2 & F2 & B2 & E2 & M2).
  destruct H3 as (C3 & W3 & F3 & B3 & E3 & M3).
  destruct H4 as (R4 & E4 & M4 & B4).
  destruct H5 as (R5 & B5 & E5 & M5).
  destruct H6 as (R6 & E6 & M6 & B6).
  destruct H7 as ((R7 & E7 & M7 & W7 & BE7) & On7 & Off7).
  unfold synced. cbn zeta.
  rewrite R7, R6, R5, R4, E7, E6, M7, M6, W7, BE7, B6.
  cbn [blendEnable writeMask withBlendEnable]. rewrite B5, B4.
  cbn [writeMask withWriteMask].
  split; [congruence|]. split; [intros Hn; rewrite W3; auto|].
  split; [assumption|]. split; [reflexivity|]. split; [assumption|].
  split; [intros He; apply M5; assumption|]. split; [reflexivity|].
  intros Hb. apply On7; [|assumption].
  rewrite B6. exact Hb.
Qed.

(** Binding a pipeline whose state the context caches calls glUseProgram
    and nothing else. *)
Lemma glxBindPipeline_cached (p : Pipeline) (c : Context) (t : list Call) :
  synced p c ->
  glxBindPipeline p (c, t) =
    Ok (tt, (c, t ++ [GlUseProgram (program p)])).
Proof.
  intros (C & W & F & M & E & S & B & On).
  unfold glxBindPipeline. unfold call at 1. unfold modify, bind at 1.
  cbn [fst snd]. unfold bind.
  rewrite (bindCull_noop _ _ _ C), (bindWinding_noop _ _ _ W),
          (bindFill_noop _ _ _ F), (bindWriteMask_noop _ _ _ M),
          (bindSampleShading_noop _ _ _ E S), (bindBlendEnable_noop _ _ _ B).
  rewrite bindBlend_noop; [reflexivity|].
  intros Hb. apply On. rewrite <- B. exact Hb.
Qed.

(** X23. Binding the same pipeline twice in a row: when the first
    [glxBindPipeline] returns, the second one calls glUseProgram and makes
    no other GL call, and leaves the context as it is.  The pipeline's
    minSampleShading and blend factor are taken to compare equal to
    themselves (no NaN). *)
Theorem glxBindPipeline_idempotent
        (p : Pipeline) (c c' : Context) (t t' : list Call) :
  f32_neq (minSampleShading (msaa p)) (minSampleShading (msaa p)) = false ->
  vec4_neq (blendFactor (blendState p)) (blendFactor (blendState p)) = false ->
  glxBindPipeline p (c, t) = Ok (tt, (c', t')) ->
  glxBindPipeline p (c', t') =
    Ok (tt, (c', t' ++ [GlUseProgram (program p)])).
Proof.
  intros Hf Hv H. apply glxBindPipeline_cached.
  exact (glxBindPipeline_synced p c c' t t' Hf Hv H).
Qed.

(** *** Pipelines without blending *)

(** The calls that send blend parameters. *)
Definition isBlendCall (x : Call) : bool :=
  match x with
  | GlBlendColor _ _ _ _ | GlLogicOp _
  | GlBlendEquationSeparate _ _ | GlBlendFuncSeparate _ _ _ _ => true
  | _ => false
  end.

(** [t'] is [t] followed by calls that send no blend parameter. *)
Definition extends (t t' : list Call) : Prop :=
  exists calls, t' = t ++ calls /\ Forall (fun x => isBlendCall x = false) calls.

Lemma extends_refl (t : list Call) : extends t t.
Proof. exists []. split; [symmetry; apply app_nil_r | constructor]. Qed.

Lemma extends_snoc (t t' : list Call) (x : Call) :
  extends t t' -> isBlendCall x = false -> extends t (t' ++ [x]).
Proof.
  intros (calls & -> & H) Hx. exists (calls ++ [x]). split.
  - symmetry. apply app_assoc.
  - apply Forall_app. split; [assumption|]. constructor; [assumption|constructor].
Qed.

Lemma extends_trans (t t' t'' : list Call) :
  extends t t' -> extends t' t'' -> extends t t''.
Proof.
  intros (c1 & -> & H1) (c2 & -> & H2). exists (c1 ++ c2). split.
  - symmetry. apply app_assoc.
  - apply Forall_app. split; assumption.
Qed.

Ltac extended :=
  eexists _, _; split; [reflexivity|];
  repeat (apply extends_snoc; [|reflexivity]); apply extends_refl.

Lemma bindCull_run (r : Rasterizer) (c : Context) (t : list Call) :
  exists c' t', bindCull r (c, t) = Ok (tt, (c', t')) /\ extends t t'.
Proof.
  unfold bindCull. run_block.
  destruct (cull (currRaster c) =? cull r)%N; cbn; [extended|].
  destruct (cull (currRaster c) =? 0)%N, (cull r =? 0)%N; cbn; extended.
Qed.

Lemma bindWinding_run (r : Rasterizer) (c : Context) (t : list Call) :
  exists c' t', bindWinding r (c, t) = Ok (tt, (c', t')) /\ extends t t'.
Proof.
  unfold bindWinding. run_block.
  destruct (winding (currRaster c) =? winding r)%N, (cull r =? 0)%N; cbn;
    extended.
Qed.

Lemma bindFill_run (r : Rasterizer) (c : Context) (t : list Call) :
  exists c' t', bindFill r (c, t) = Ok (tt, (c', t')) /\ extends t t'.
Proof.
  unfold bindFill. run_block.
  destruct (fill (currRaster c) =? fill r)%N; cbn; extended.
Qed.

Lemma bindWriteMask_run (b : BlendState) (c : Context) (t : list Call) :
  exists c' t', bindWriteMask b (c, t) = Ok (tt, (c', t')) /\ extends t t'.
Proof.
  unfold bindWriteMask. run_block.
  destruct (writeMask (currBlend c) =? writeMask b)%N; cbn; extended.
Qed.

Lemma bindSampleShading_run (m : MSAA) (c : Context) (t : list Call) :
  exists c' t', bindSampleShading m (c, t) = Ok (tt, (c', t')) /\ extends t t'.
Proof.
  unfold bindSampleShading. run_block.
  destruct (negb (samples m =? 0) && f32_nonzero (minSampleShading m)).
  - destruct (enableMinSampleShading c); cbn; run_block;
      destruct (f32_neq (ctxMinSampleShading c) (minSampleShading m)); cbn;
      extended.
  - destruct (enableMinSampleShading c); cbn; extended.
Qed.

Lemma bindBlendEnable_run (b : BlendState) (c : Context) (t : list Call) :
  exists c' t', bindBlendEnable b (c, t) = Ok (tt, (c', t')) /\ extends t t'.
Proof.
  unfold bindBlendEnable. run_block.
  destruct (Bool.eqb (blendEnable (currBlend c)) (blendEnable b)); cbn;
    [extended|].
  eexists _, _; split; [reflexivity|].
  apply extends_snoc; [apply extends_refl|]. destruct (blendEnable b); reflexivity.
Qed.

(** X24. A pipeline that does not enable blending: [glxBindPipeline]
    always returns (the translations of the logic op, the blend ops and the
    blend functions, the only fatal ends, are not reached), it makes none of
    the calls glBlendColor, glLogicOp, glBlendEquationSeparate and
    glBlendFuncSeparate, and the blend parameters cached in the context stay
    as they were, whatever the pipeline declares. *)
Theorem glxBindPipeline_blend_disabled
        (p : Pipeline) (c : Context) (t : list Call) :
  blendEnable (blendState p) = false ->
  exists c' calls,
    glxBindPipeline p (c, t) = Ok (tt, (c', t ++ calls)) /\
    Forall (fun x => isBlendCall x = false) calls /\
    blendEnable (currBlend c') = false /\
    blendFactor (currBlend c') = blendFactor (currBlend c) /\
    logicOp (currBlend c') = logicOp (currBlend c) /\
    blendOp (currBlend c') = blendOp (currBlend c) /\
    alphaBlendOp (currBlend c') = alphaBlendOp (currBlend c) /\
    srcBlend (currBlend c') = srcBlend (currBlend c) /\
    dstBlend (currBlend c') = dstBlend (currBlend c) /\
    alphaSrcBlend (currBlend c') = alphaSrcBlend (currBlend c) /\
    alphaDstBlend (currBlend c') = alphaDstBlend (currBlend c).
Proof.
  intros Hoff.
  destruct (bindCull_run (rasterizer p) c (t ++ [GlUseProgram (program p)]))
    as (c1 & t1 & H1 & E1).
  destruct (bindWinding_run (rasterizer p) c1 t1) as (c2 & t2 & H2 & E2).
  destruct (bindFill_run (rasterizer p) c2 t2) as (c3 & t3 & H3 & E3).
  destruct (bindWriteMask_run (blendState p) c3 t3) as (c4 & t4 & H4 & E4).
  destruct (bindSampleShading_run (msaa p) c4 t4) as (c5 & t5 & H5 & E5).
  destruct (bindBlendEnable_run (blendState p) c5 t5) as (c6 & t6 & H6 & E6).
  assert (X : extends t t6).
  { apply (extends_trans _ (t ++ [GlUseProgram (program p)]));
      [apply extends_snoc; [apply extends_refl | reflexivity]|].
    apply (extends_trans _ _ _ E1). apply (extends_trans _ _ _ E2).
    apply (extends_trans _ _ _ E3). apply (extends_trans _ _ _ E4).
    apply (extends_trans _ _ _ E5). exact E6. }
  destruct X as (calls & -> & Hcalls).
  pose proof (bindCull_inv _ _ _ _ _ H1) as (_ & _ & _ & B1 & _).
  pose proof (bindWinding_inv _ _ _ _ _ H2) as (_ & _ & _ & B2 & _).
  pose proof (bindFill_inv _ _ _ _ _ H3) as (_ & _ & _ & B3 & _).
  pose proof (bindWriteMask_inv _ _ _ _ _ H4) as (_ & _ & _ & B4).
  pose proof (bindSampleShading_inv _ _ _ _ _ H5) as (_ & B5 & _).
  pose proof (bindBlendEnable_inv _ _ _ _ _ H6) as (_ & _ & _ & B6).
  assert (Hb : blendEnable (currBlend c6) = false).
  { rewrite B6. exact Hoff. }
  exists c6, calls. split.
  - unfold glxBindPipeline. unfold call at 1. unfold modify, bind at 1.
    cbn [fst snd]. unfold bind. rewrite H1, H2, H3, H4, H5, H6.
    apply bindBlend_noop. rewrite Hb. discriminate.
  - split; [assumption|]. split; [assumption|].
    rewrite B6, B5, B4, B3, B2, B1. cbn. fields.
Qed.

End Bind.

(** *** Binds at concrete pipelines

    [f32] is read as a binary64 float with the IEEE comparison, a vector as
    four of them; BACK, CCW and FILL are given the codes 1, 1 and 0. *)

Definition float_neq (a b : float) : bool := negb (PrimFloat.eqb a b).

Definition vec4 : Type := (float * float * float * float)%type.

Definition vec4_neq (a b : vec4) : bool :=
  let '(a0, a1, a2, a3) := a in
  let '(b0, b1, b2, b3) := b in
  float_neq a0 b0 || float_neq a1 b1 || float_neq a2 b2 || float_neq a3 b3.

Definition component (v : vec4) (i : nat) : float :=
  let '(v0, v1, v2, v3) := v in
  match i with O => v0 | 1%nat => v1 | 2%nat => v2 | _ => v3 end.

Abbreviation bound :=
  (glxBindPipeline float float_neq (fun x => float_neq x 0%float)
                   vec4 vec4_neq component 1%N 1%N 0%N).

Definition freshContext : Context float vec4 :=
  mkContext float vec4 (mkRasterizer 0 0 0)
    (mkBlendState vec4 (0, 0, 0, 0)%float NO_OP 15 ADD ADD ONE ZERO ONE ZERO false)
    false 0%float.

Definition blending : Pipeline float vec4 :=
  mkPipeline float vec4 7 (mkRasterizer 0 1 1)
    (mkBlendState vec4 (1, 1, 1, 1)%float COPY 15 ADD MAX
                  SRC_ALPHA SRC_ALPHA_REV ONE ZERO true)
    (mkMSAA float 4 0.5%float).

Definition opaquePipeline : Pipeline float vec4 :=
  mkPipeline float vec4 8 (mkRasterizer 0 0 0)
    (mkBlendState vec4 (1, 1, 1, 1)%float (OtherLogicOp 99) 7 ADD ADD
                  ONE ZERO ONE ZERO false)
    (mkMSAA float 1 0%float).

Lemma glxBindPipeline_idempotent_witness :
  exists c' t',
    bound blending (freshContext, []) = Ok (tt, (c', t')) /\
    length t' = 11%nat /\
    bound blending (c', t') = Ok (tt, (c', t' ++ [GlUseProgram float 7])).
Proof.
  eexists _, _. split; [vm_compute; reflexivity|].
  split; [reflexivity|].
  apply (glxBindPipeline_idempotent float float_neq (fun x => float_neq x 0%float)
           vec4 vec4_neq component 1%N 1%N 0%N blending freshContext _ [] _).
  - vm_compute. reflexivity.
  - vm_compute. reflexivity.
  - vm_compute. reflexivity.
Defined.

Lemma glxBindPipeline_blend_disabled_witness :
  blendEnable vec4 (blendState float vec4 opaquePipeline) = false /\
  exists c' calls,
    bound opaquePipeline (freshContext, []) = Ok (tt, (c', [] ++ calls)) /\
    Forall (fun x => isBlendCall float x = false) calls /\
    blendEnable vec4 (currBlend float vec4 c') = false /\
    blendFactor vec4 (currBlend float vec4 c') =
      blendFactor vec4 (currBlend float vec4 freshContext) /\
    logicOp vec4 (currBlend float vec4 c') =
      logicOp vec4 (currBlend float vec4 freshContext) /\
    blendOp vec4 (currBlend float vec4 c') =
      blendOp vec4 (currBlend float vec4 freshContext) /\
    alphaBlendOp vec4 (currBlend float vec4 c') =
      alphaBlendOp vec4 (currBlend float vec4 freshContext) /\
    srcBlend vec4 (currBlend float vec4 c') =
      srcBlend vec4 (currBlend float vec4 freshContext) /\
    dstBlend vec4 (currBlend float vec4 c') =
      dstBlend vec4 (currBlend float vec4 freshContext) /\
    alphaSrcBlend vec4 (currBlend float vec4 c') =
      alphaSrcBlend vec4 (currBlend float vec4 freshContext) /\
    alphaDstBlend vec4 (currBlend float vec4 c') =
      alphaDstBlend vec4 (currBlend float vec4 freshContext).
Proof.
  split; [reflexivity|].
  apply (glxBindPipeline_blend_disabled float float_neq
           (fun x => float_neq x 0%float) vec4 vec4_neq component 1%N 1%N 0%N
           opaquePipeline freshContext []).
  reflexivity.
Defined.

End BindPipeline.

(** ** Beginning a render pass (glxBeginRenderPass) *)

Module RenderPass.

Import GL.

Section Begin.

(** The values of the constants; GL_DEPTH_BUFFER_BIT is not among the
    constants the other modules name, so it is a variable of its own. *)
Variable GLv : GLconst -> GLenum.
Variable DEPTH_BUFFER_BIT : Z.

Inductive Call : Type :=
| GlBindFramebuffer (target : GLenum) (framebuffer : GLuint)
| GlClear (mask : Z).

(** [ctx.bound], and the calls made so far. *)
Definition St : Type := (gmap GLenum GLuint * list Call)%type.

(** [ctx.bound[target]]: reading a key that is absent gives the
    value-initialised handle 0. *)
Definition boundAt (bound : gmap GLenum GLuint) (target : GLenum) : GLuint :=
  default 0 (bound !! target).

Definition call (c : Call) : M St unit :=
  modify (fun s => (fst s, snd s ++ [c])).

(** [glxBeginRenderPass(ctx, framebuffer)] *)
Definition glxBeginRenderPass (framebuffer : GLuint) : M St unit :=
  (s <- get ;;
   (if boundAt (fst s) (GLv GL_DRAW_FRAMEBUFFER) =? framebuffer then
      (* operator[] has inserted the key it read *)
      modify (fun s => (<[GLv GL_DRAW_FRAMEBUFFER :=
                           boundAt (fst s) (GLv GL_DRAW_FRAMEBUFFER)]> (fst s),
                        snd s))
    else
      modify (fun s => (<[GLv GL_DRAW_FRAMEBUFFER := framebuffer]> (fst s),
                        snd s)) ;;;
      call (GlBindFramebuffer (GLv GL_DRAW_FRAMEBUFFER) framebuffer)) ;;;
   call (GlClear (Z.lor (GLv GL_COLOR_BUFFER_BIT) DEPTH_BUFFER_BIT)))%m.

(** X25. Every render pass clears, and the framebuffer is bound only when
    it changes: [glxBeginRenderPass] always ends with one glClear of the
    colour and depth bits, preceded by glBindFramebuffer exactly when the
    framebuffer differs from the one cached for GL_DRAW_FRAMEBUFFER (0 in a
    context that has bound none); beginning a second pass on the same
    framebuffer makes the glClear call only. *)
Theorem glxBeginRenderPass_binds_once
        (framebuffer : GLuint) (bound : gmap GLenum GLuint) (t : list Call) :
  let clear := GlClear (Z.lor (GLv GL_COLOR_BUFFER_BIT) DEPTH_BUFFER_BIT) in
  exists bound',
    glxBeginRenderPass framebuffer (bound, t) =
      Ok (tt, (bound',
               t ++ (if boundAt bound (GLv GL_DRAW_FRAMEBUFFER) =? framebuffer
                     then []
                     else [GlBindFramebuffer (GLv GL_DRAW_FRAMEBUFFER)
                                             framebuffer])
                 ++ [clear])) /\
    boundAt bound' (GLv GL_DRAW_FRAMEBUFFER) = framebuffer /\
    (forall target, target <> GLv GL_DRAW_FRAMEBUFFER ->
                    bound' !! target = bound !! target) /\
    forall t', glxBeginRenderPass framebuffer (bound', t') =
               Ok (tt, (bound', t' ++ [clear])).
Proof.
  intros clear.
  assert (Hsame : forall (b : gmap GLenum GLuint) t',
             boundAt b (GLv GL_DRAW_FRAMEBUFFER) = framebuffer ->
             b !! GLv GL_DRAW_FRAMEBUFFER = Some framebuffer ->
             glxBeginRenderPass framebuffer (b, t') =
               Ok (tt, (b, t' ++ [clear]))).
  { intros b t' Hb Hl. unfold glxBeginRenderPass, get, call, modify, bind.
    cbn [fst snd]. rewrite Hb, Z.eqb_refl. cbn [fst snd].
    rewrite insert_id by (rewrite Hb; exact Hl). reflexivity. }
  unfold glxBeginRenderPass, get, call, modify, bind. cbn [fst snd].
  destruct (boundAt bound (GLv GL_DRAW_FRAMEBUFFER) =? framebuffer) eqn:He;
    cbn [fst snd];
    eexists; (split; [rewrite ?app_nil_l, <- ?app_assoc; reflexivity|]).
  - apply Z.eqb_eq in He. rewrite He.
    split; [unfold boundAt; rewrite lookup_insert_eq; reflexivity|].
    split; [intros target Ht; apply lookup_insert_ne; congruence|].
    intros t'. apply Hsame.
    + unfold boundAt. rewrite lookup_insert_eq. reflexivity.
    + apply lookup_insert_eq.
  - split; [unfold boundAt; rewrite lookup_insert_eq; reflexivity|].
    split; [intros target Ht; apply lookup_insert_ne; congruence|].
    intros t'. apply Hsame.
    + unfold boundAt. rewrite lookup_insert_eq. reflexivity.
    + apply lookup_insert_eq.
Qed.

End Begin.

End RenderPass.
